(** * To-do list application: state containers, pagination and store adapter

    A shallow embedding of the hooks of the application
    ([usePagination], [useTodos], [useNotes], [useLocalStorage]) and of the
    note search of [NotesSearch], with the properties the specification
    states about them.

    Conventions of the embedding.
    - A React state cell is a field of a record; a state setter is a
      function from the old record to the new one.
    - JavaScript numbers that hold array lengths and page numbers are
      integers far below 2^53, where double arithmetic is exact; they are
      modelled in [Z], and the one division of the code is taken in [Q].
    - JavaScript strings are modelled by [string], read as sequences of
      code units in the Latin-1 range (0..255); [trim] and [toLowerCase]
      are the restrictions of the ECMAScript functions to that range.
    - The clock, the random generator, the time zone and the browser
      storage are inputs.
    - A callback belongs to the render that built it.  The setter of
      [useLocalStorage] calls an updater on the value its render saw, so
      an operation is given with the list of its render ([setTodosOf],
      [toggleTodoOf], [setNotesOf], [setValueOf]); the operation of the
      render that is current is the case where that list is the list in
      memory.
    - [JSON.parse] and [JSON.stringify] are modelled on all JSON values
      ([LocalStorage.Json]). *)

From Stdlib Require Import ZArith NArith QArith Qround Lia List Bool Ascii String.
From Stdlib Require Import DecimalString DecimalN.
From stdpp Require Import base list strings gmap.

#[local] Open Scope Z_scope.

(** ** Pagination view ([src/hooks/usePagination.ts]) *)

Module Pagination.

Section WithItems.

Context {T : Type}.

(** [options.itemsPerPage ?? 5] *)
Definition itemsPerPageOf (itemsPerPage : option Z) : Z :=
  match itemsPerPage with
  | Some n => n
  | None => 5
  end.

Variable ITEMS_PER_PAGE : Z.

(** The hook's own state is the page number; the source list is handed in
    afresh at every render, so the pair is what a render sees. *)
Record view : Type := View { allItems : list T; currentPage : Z }.

(** [useState(1)] *)
Definition mount (items : list T) : view :=
  {| allItems := items; currentPage := 1 |}.

(** [Math.ceil(allItems.length / ITEMS_PER_PAGE)], for a page size above 0
    (JavaScript divides by 0 to [Infinity] or [NaN], [Q] to 0). *)
Definition totalPages (v : view) : Z :=
  Qceiling (inject_Z (Z.of_nat (length (allItems v))) / inject_Z ITEMS_PER_PAGE).

(** [Array.prototype.slice(0, end)] for an integer [end]: a negative
    [end] counts from the end of the array. *)
Definition slice0 (l : list T) (e : Z) : list T :=
  let len := Z.of_nat (length l) in
  let final := if e <? 0 then Z.max (len + e) 0 else Z.min e len in
  firstn (Z.to_nat final) l.

Definition displayedItems (v : view) : list T :=
  let endIndex := currentPage v * ITEMS_PER_PAGE in
  slice0 (allItems v) endIndex.

Definition remainingItems (v : view) : Z :=
  Z.of_nat (length (allItems v)) - Z.of_nat (length (displayedItems v)).

Definition hasNextPage (v : view) : bool :=
  currentPage v <? totalPages v.

Definition setCurrentPage (f : Z -> Z) (v : view) : view :=
  {| allItems := allItems v; currentPage := f (currentPage v) |}.

Definition loadMore (v : view) : view :=
  setCurrentPage
    (fun prev =>
       let nextPage := prev + 1 in
       if nextPage <=? totalPages v then nextPage else prev)
    v.

Definition showLess (v : view) : view :=
  setCurrentPage
    (fun prev =>
       let prevPage := prev - 1 in
       if prevPage >=? 1 then prevPage else 1)
    v.

Definition reset (v : view) : view :=
  setCurrentPage (fun _ => 1) v.

(** What can happen to a mounted view: one of the three actions, or a
    render with another source list (the page number is kept). *)
Inductive event : Type :=
| LoadMore
| ShowLess
| Reset
| Rerender (items : list T).

Definition step (v : view) (e : event) : view :=
  match e with
  | LoadMore => loadMore v
  | ShowLess => showLess v
  | Reset => reset v
  | Rerender items => {| allItems := items; currentPage := currentPage v |}
  end.

Definition run (v : view) (es : list event) : view :=
  fold_left step es v.

(** The number of pages of the source never goes down along [es]. *)
Fixpoint neverShrinks (v : view) (es : list event) : bool :=
  match es with
  | [] => true
  | e :: es' =>
      (totalPages v <=? totalPages (step v e)) && neverShrinks (step v e) es'
  end.

End WithItems.

End Pagination.

(** ** JavaScript strings, on code units 0..255 *)

Module JsString.

#[local] Open Scope string_scope.
#[local] Open Scope N_scope.

(** ECMAScript WhiteSpace and LineTerminator code points below 256:
    TAB, LF, VT, FF, CR, SP and NBSP. *)
Definition isWhiteSpace (c : ascii) : bool :=
  let n := N_of_ascii c in
  ((9 <=? n) && (n <=? 13)) || (n =? 32) || (n =? 160).

Fixpoint trimStart (s : string) : string :=
  match s with
  | EmptyString => EmptyString
  | String c s' => if isWhiteSpace c then trimStart s' else s
  end.

Fixpoint trimEnd (s : string) : string :=
  match s with
  | EmptyString => EmptyString
  | String c s' =>
      match trimEnd s' with
      | EmptyString => if isWhiteSpace c then EmptyString else String c EmptyString
      | t => String c t
      end
  end.

(** [String.prototype.trim] *)
Definition trim (s : string) : string := trimEnd (trimStart s).

(** Truthiness of a string: [!s] is true exactly on the empty string. *)
Definition truthy (s : string) : bool :=
  match s with
  | EmptyString => false
  | String _ _ => true
  end.

(** Lower-case mapping of a code unit below 256: A-Z and the Latin-1
    capitals U+00C0..U+00DE (U+00D7, the multiplication sign, apart). *)
Definition toLowerCaseUnit (c : ascii) : ascii :=
  let n := N_of_ascii c in
  if ((65 <=? n) && (n <=? 90))
     || ((192 <=? n) && (n <=? 222) && negb (n =? 215))
  then ascii_of_N (n + 32)
  else c.

(** [String.prototype.toLowerCase] *)
Fixpoint toLowerCase (s : string) : string :=
  match s with
  | EmptyString => EmptyString
  | String c s' => String (toLowerCaseUnit c) (toLowerCase s')
  end.

(** [String.prototype.includes]: the search string occurs at some
    position. *)
Fixpoint includes (s searchString : string) : bool :=
  if String.prefix searchString s then true
  else match s with
       | EmptyString => false
       | String _ s' => includes s' searchString
       end.

(** [String.prototype.substr(start, length)] for [start, length >= 0]. *)
Definition substr (s : string) (start len : nat) : string :=
  String.substring start len s.

(** [String.prototype.padStart(2, "0")] *)
Definition padStart2 (s : string) : string :=
  match String.length s with
  | 0%nat => "00"
  | 1%nat => "0" ++ s
  | _ => s
  end.

(** [String(n)] and [`${n}`] for a natural number [n]. *)
Definition ofNumber (n : N) : string :=
  NilEmpty.string_of_uint (N.to_uint n).

(** A string made of white space only (the empty string is one). *)
Fixpoint whiteSpaceOnly (s : string) : bool :=
  match s with
  | EmptyString => true
  | String c s' => isWhiteSpace c && whiteSpaceOnly s'
  end.

(** A string of decimal digits. *)
Fixpoint digitsOnly (s : string) : bool :=
  match s with
  | EmptyString => true
  | String c s' =>
      let n := N_of_ascii c in
      ((48 <=? n) && (n <=? 57)) && digitsOnly s'
  end.

(** [needle] occurs in [hay] up to the case of letters. *)
Definition containsIgnoringCase (hay needle : string) : Prop :=
  exists before found after,
    hay = before ++ found ++ after /\
    toLowerCase found = toLowerCase needle.

End JsString.

(** ** Selections of a list *)

(** [Selects P l r]: [r] holds the elements of [l] that satisfy [P], each
    as often as in [l] and in the order of [l].  This is what
    [Array.prototype.filter] is specified to return. *)
Inductive Selects {A : Type} (P : A -> Prop) : list A -> list A -> Prop :=
| Selects_nil : Selects P [] []
| Selects_keep x l r : P x -> Selects P l r -> Selects P (x :: l) (x :: r)
| Selects_drop x l r : ~ P x -> Selects P l r -> Selects P (x :: l) r.

(** ** The clock and the random generator *)

Record Env : Type := {
  (** [Date.now()], in milliseconds *)
  dateNow : N;
  (** [new Date().toISOString()] *)
  isoNow : string;
  (** [getFullYear()], [getMonth()] (from 0) and [getDate()] of [new Date()] *)
  localYear : N;
  localMonth : N;
  localDate : N;
  (** [Math.random().toString(36)] *)
  randomBase36 : string
}.

(** ** Statements that run against a state cell and may throw *)

Module Effect.

Inductive outcome (A : Type) : Type :=
| Returned (a : A)
| Thrown (message : string).
Arguments Returned {A} a.
Arguments Thrown {A} message.

(** A handler body over a state [S]: the completion and the state left. *)
Definition M (S A : Type) : Type := S -> outcome A * S.

Definition ret {S A} (a : A) : M S A := fun s => (Returned a, s).

Definition throw {S A} (message : string) : M S A :=
  fun s => (Thrown message, s).

Definition bind {S A B} (m : M S A) (k : A -> M S B) : M S B :=
  fun s =>
    match m s with
    | (Returned a, s') => k a s'
    | (Thrown message, s') => (Thrown message, s')
    end.

(** A state setter called with an updater function. *)
Definition update {S} (f : S -> S) : M S unit :=
  fun s => (Returned tt, f s).

Definition completion {S A} (m : M S A) (s : S) : outcome A := fst (m s).
Definition stateAfter {S A} (m : M S A) (s : S) : S := snd (m s).

Declare Scope effect_scope.
Delimit Scope effect_scope with effect.
Notation "m ;; k" := (bind m (fun _ => k))
  (at level 100, k at level 200, right associativity) : effect_scope.

End Effect.

(** ** To-do state container ([src/hooks/useTodos.ts], [src/types/todo.ts]) *)

Module Todos.
Import JsString Effect.
#[local] Open Scope string_scope.

Record Todo : Type := {
  id : string;
  text : string;
  completed : bool;
  createdAt : string;
  updatedAt : string
}.

Inductive FilterType : Type := all | active | completed_.

(** The three state cells of the hook (the [TodoState] interface). *)
Record TodoState : Type := {
  todos : list Todo;
  filter : FilterType;
  searchQuery : string
}.

(** [useLocalStorage<Todo[]>('todos', [])], [useState('all')],
    [useState('')], on a storage without the key. *)
Definition initial : TodoState :=
  {| todos := []; filter := all; searchQuery := "" |}.

(** The setter a render hands out: [setValue] of [useLocalStorage] is
    rebuilt by [useCallback] whenever [storedValue] changes, and calls an
    updater on the [storedValue] of the render that built it
    ([value(storedValue)], useLocalStorage lines 71-73 and 84), not on the
    list in memory.  [rendered] is the list that render saw; this is the
    effect on the list in memory (the write to the storage is in
    [LocalStorage]). *)
Definition setTodosOf (rendered : list Todo) (f : list Todo -> list Todo)
  : M TodoState unit :=
  update (fun s =>
    {| todos := f rendered; filter := filter s; searchQuery := searchQuery s |}).

(** [setTodos(prev => f(prev))] on the setter of the render that is
    current when the call is made: the list that render saw is the list in
    memory.  This is the first call a handler makes; a further call of
    the same handler still holds the setter of that render
    ([setTodosOf]). *)
Definition setTodos (f : list Todo -> list Todo) : M TodoState unit :=
  fun s => setTodosOf (todos s) f s.

Definition setFilter (f : FilterType) : M TodoState unit :=
  update (fun s =>
    {| todos := todos s; filter := f; searchQuery := searchQuery s |}).

Definition setSearchQuery (q : string) : M TodoState unit :=
  update (fun s =>
    {| todos := todos s; filter := filter s; searchQuery := q |}).

(** [`${Date.now()}-${Math.random().toString(36).substr(2, 9)}`] *)
Definition generateId (env : Env) : string :=
  ofNumber (dateNow env) ++ "-" ++ substr (randomBase36 env) 2 9.

Definition addTodo (env : Env) (text : string) : M TodoState unit :=
  let trimmedText := trim text in
  if negb (truthy trimmedText) then ret tt
  else
    let now := isoNow env in
    let newTodo :=
      {| id := generateId env;
         text := trimmedText;
         completed := false;
         createdAt := now;
         updatedAt := now |} in
    setTodos (fun prev => newTodo :: prev).

(** [toggleTodo] as the render that saw [rendered] returns it
    ([useCallback] on [setTodos], which is that render's setter). *)
Definition toggleTodoOf (rendered : list Todo) (env : Env) (id' : string)
  : M TodoState unit :=
  setTodosOf rendered (fun prev =>
    map (fun todo =>
           if String.eqb (id todo) id'
           then {| id := id todo;
                   text := text todo;
                   completed := negb (completed todo);
                   createdAt := createdAt todo;
                   updatedAt := isoNow env |}
           else todo)
        prev).

(** [toggleTodo] of the render that is current. *)
Definition toggleTodo (env : Env) (id' : string) : M TodoState unit :=
  fun s => toggleTodoOf (todos s) env id' s.

Definition deleteTodo (id' : string) : M TodoState unit :=
  setTodos (fun prev =>
    List.filter (fun todo => negb (String.eqb (id todo) id')) prev).

Definition editTodo (env : Env) (id' newText : string) : M TodoState unit :=
  let trimmedText := trim newText in
  if negb (truthy trimmedText) then ret tt
  else
    setTodos (fun prev =>
      map (fun todo =>
             if String.eqb (id todo) id'
             then {| id := id todo;
                     text := trimmedText;
                     completed := completed todo;
                     createdAt := createdAt todo;
                     updatedAt := isoNow env |}
             else todo)
          prev).

Definition clearCompleted : M TodoState unit :=
  setTodos (fun prev => List.filter (fun todo => negb (completed todo)) prev).

Definition filteredTodos (s : TodoState) : list Todo :=
  List.filter
    (fun todo =>
       includes (toLowerCase (text todo)) (toLowerCase (searchQuery s)))
    (List.filter
       (fun todo =>
          match filter s with
          | active => negb (completed todo)
          | completed_ => completed todo
          | all => true
          end)
       (todos s)).

Module Stats.
Record t : Type := { total : nat; active : nat; completed : nat }.
End Stats.

Definition stats (s : TodoState) : Stats.t :=
  {| Stats.total := length (todos s);
     Stats.active := length (List.filter (fun t => negb (completed t)) (todos s));
     Stats.completed := length (List.filter (fun t => completed t) (todos s)) |}.

(** A record passes the filter selector. *)
Definition passes (f : FilterType) (todo : Todo) : Prop :=
  match f with
  | all => True
  | active => completed todo = false
  | completed_ => completed todo = true
  end.

End Todos.

(** ** Note state container ([useNotes]) *)

Module Notes.
Import JsString Effect.
#[local] Open Scope string_scope.

(** Modelled from the spec: the [Note] interface of [@/types/todo], whose
    declaration is not in the sources at hand; the fields are the ones
    [addNote] fills in and the persisted layout of the specification
    lists. *)
Record Note : Type := {
  id : string;
  content : string;
  date : string;
  createdAt : string;
  updatedAt : string;
  convertedToTodo : bool
}.

(** The state is the array the hook holds.  Every render whose array is
    new sorts it in place ([allNotes], modelled in [NotesOrder]), so the
    array a handler finds is the one the last render has sorted.

    The setter a render hands out is [setValue] of [useLocalStorage]: it
    calls an updater on the array that render saw ([rendered]), see
    [Todos.setTodosOf]. *)
Definition setNotesOf (rendered : list Note) (f : list Note -> list Note)
  : M (list Note) unit :=
  update (fun _ => f rendered).

(** [setNotes(prev => f(prev))] on the setter of the render that is
    current when the call is made, the first call of a handler. *)
Definition setNotes (f : list Note -> list Note) : M (list Note) unit :=
  fun s => setNotesOf s f s.

Definition generateId (env : Env) : string :=
  ofNumber (dateNow env) ++ "-" ++ substr (randomBase36 env) 2 9.

Definition getTodayDate (env : Env) : string :=
  let year := ofNumber (localYear env) in
  let month := padStart2 (ofNumber (localMonth env + 1)) in
  let day := padStart2 (ofNumber (localDate env)) in
  year ++ "-" ++ month ++ "-" ++ day.

Definition emptyContent : string := "Konten catatan tidak boleh kosong".

Definition addNote (env : Env) (content : string) : M (list Note) Note :=
  let trimmedContent := trim content in
  if negb (truthy trimmedContent) then throw emptyContent
  else
    let now := isoNow env in
    let newNote :=
      {| id := generateId env;
         content := trimmedContent;
         date := getTodayDate env;
         createdAt := now;
         updatedAt := now;
         convertedToTodo := false |} in
    (setNotes (fun prev => newNote :: prev) ;; ret newNote)%effect.

Definition updateNote (env : Env) (id' content : string) : M (list Note) unit :=
  let trimmedContent := trim content in
  if negb (truthy trimmedContent) then throw emptyContent
  else
    setNotes (fun prev =>
      map (fun note =>
             if String.eqb (id note) id'
             then {| id := id note;
                     content := trimmedContent;
                     date := date note;
                     createdAt := createdAt note;
                     updatedAt := isoNow env;
                     convertedToTodo := convertedToTodo note |}
             else note)
          prev).

Definition deleteNote (id' : string) : M (list Note) unit :=
  setNotes (fun prev =>
    List.filter (fun note => negb (String.eqb (id note) id')) prev).

Definition markAsConverted (env : Env) (id' : string) : M (list Note) unit :=
  setNotes (fun prev =>
    map (fun note =>
           if String.eqb (id note) id'
           then {| id := id note;
                   content := content note;
                   date := date note;
                   createdAt := createdAt note;
                   updatedAt := isoNow env;
                   convertedToTodo := true |}
           else note)
        prev).


Definition getTodayNotes (env : Env) (notes : list Note) : list Note :=
  let today := getTodayDate env in
  List.filter (fun note => String.eqb (date note) today) notes.

End Notes.

(** ** Note search ([src/components/todo/NotesSearch.tsx]) *)

Module NotesSearch.
Import JsString Notes.
#[local] Open Scope string_scope.
#[local] Open Scope Z_scope.

Definition digit (c : ascii) : option Z :=
  let n := Z.of_N (N_of_ascii c) in
  if (48 <=? n) && (n <=? 57) then Some (n - 48) else None.

Definition number2 (a b : ascii) : option Z :=
  match digit a, digit b with
  | Some x, Some y => Some (10 * x + y)
  | _, _ => None
  end.

Definition number4 (a b c d : ascii) : option Z :=
  match number2 a b, number2 c d with
  | Some x, Some y => Some (100 * x + y)
  | _, _ => None
  end.

Definition isLeapYear (y : Z) : bool :=
  (y mod 4 =? 0) && (negb (y mod 100 =? 0) || (y mod 400 =? 0)).

Definition daysInMonth (y m : Z) : Z :=
  if m =? 2 then (if isLeapYear y then 29 else 28)
  else if (m =? 4) || (m =? 6) || (m =? 9) || (m =? 11) then 30
  else 31.

(** The calendar date a string [YYYY-MM-DD] denotes.  [new Date(s +
    "T00:00:00")] is local midnight of that date; on other strings the
    result is an invalid date or depends on the engine, and the model
    gives none. *)
Definition parseDate (s : string) : option (Z * Z * Z) :=
  match s with
  | String y1 (String y2 (String y3 (String y4 (String dash1
      (String m1 (String m2 (String dash2
        (String d1 (String d2 EmptyString))))))))) =>
      match number4 y1 y2 y3 y4, number2 m1 m2, number2 d1 d2 with
      | Some y, Some m, Some d =>
          if Ascii.eqb dash1 "-" && Ascii.eqb dash2 "-"
             && (1 <=? m) && (m <=? 12) && (1 <=? d) && (d <=? daysInMonth y m)
          then Some (y, m, d)
          else None
      | _, _, _ => None
      end
  | _ => None
  end.

(** ECMAScript [DayFromYear]: the day number of 1 January of year [y],
    counted from 1 January 1970. *)
Definition dayFromYear (y : Z) : Z :=
  365 * (y - 1970) + (y - 1969) / 4 - (y - 1901) / 100 + (y - 1601) / 400.

(** Days of the year before the first of month [m] (1..12). *)
Fixpoint daysBeforeMonth (y : Z) (m : nat) : Z :=
  match m with
  | O => 0
  | S O => 0
  | S m' => daysBeforeMonth y m' + daysInMonth y (Z.of_nat m')
  end.

(** ECMAScript [MakeDay] on a calendar date. *)
Definition makeDay (y m d : Z) : Z :=
  dayFromYear y + daysBeforeMonth y (Z.to_nat m) + (d - 1).

(** ECMAScript [WeekDay]: 0 is Sunday; day 0 was a Thursday. *)
Definition weekDay (day : Z) : Z := (day + 4) mod 7.

Definition msPerHour : Z := 3600000.
Definition msPerDay : Z := 86400000.

(** ECMAScript [Day(t)], the day number of a time value. *)
Definition dayOf (t : Z) : Z := t / msPerDay.

(** The time zone of the runtime, as ECMAScript uses it: [utc t] is
    [UTC(t)], the time value of the local time [t], and [localTime t] is
    [LocalTime(t)], the local time of the time value [t]. *)
Record TimeZone : Type := {
  utc : Z -> Z;
  localTime : Z -> Z
}.

(** A zone that keeps one offset from UTC. *)
Definition fixedOffset (offset : Z) : TimeZone :=
  {| utc := fun t => t - offset;
     localTime := fun t => t + offset |}.

(** A zone whose offset changes from [before] to [after] at the instant
    [instant].  A local time the change repeats is read as the earlier
    instant, and a local time the change skips is read with the offset
    [before], as [UTC(t)] is specified. *)
Definition shiftingOffset (instant before after : Z) : TimeZone :=
  {| utc := fun t =>
       if t - before <? instant then t - before
       else if instant <=? t - after then t - after
       else t - before;
     localTime := fun t =>
       if t <? instant then t + before else t + after |}.

(** [Date.prototype.getDay] of [new Date(dateString + "T00:00:00")]: a
    date and time with no offset is a local time, so the time value is
    [UTC] of local midnight of the date, and [getDay] is the weekday of
    its local time. *)
Definition getDay (zone : TimeZone) (dateString : string) : option Z :=
  match parseDate dateString with
  | Some (y, m, d) =>
      let date := utc zone (makeDay y m d * msPerDay) in
      Some (weekDay (dayOf (localTime zone date)))
  | None => None
  end.

Definition days : list string :=
  ["Minggu"; "Senin"; "Selasa"; "Rabu"; "Kamis"; "Jumat"; "Sabtu"].

Definition getDayName (zone : TimeZone) (dateString : string) : option string :=
  match getDay zone dateString with
  | Some i => nth_error days (Z.to_nat i)
  | None => None
  end.

(** The callback of [notes.filter]; none where [getDayName] has none. *)
Definition noteMatches (zone : TimeZone) (query : string) (note : Note)
  : option bool :=
  if includes (date note) query then Some true
  else
    match getDayName zone (date note) with
    | None => None
    | Some name =>
        let dayName := toLowerCase name in
        if includes dayName query then Some true
        else if includes (toLowerCase (content note)) query then Some true
        else Some false
    end.

Fixpoint filterNotes (zone : TimeZone) (query : string) (notes : list Note)
  : option (list Note) :=
  match notes with
  | [] => Some []
  | note :: rest =>
      match noteMatches zone query note, filterNotes zone query rest with
      | Some keep, Some rest' => Some (if keep then note :: rest' else rest')
      | _, _ => None
      end
  end.

Definition filteredNotes (zone : TimeZone) (notes : list Note)
  (searchQuery : string) : option (list Note) :=
  if negb (truthy (trim searchQuery)) then Some notes
  else
    let query := trim (toLowerCase searchQuery) in
    filterNotes zone query notes.

(** Local midnight of the date falls on the date in the zone: the zone
    did not skip it. *)
Definition keepsDate (zone : TimeZone) (dateString : string) : bool :=
  match parseDate dateString with
  | Some (y, m, d) =>
      dayOf (localTime zone (utc zone (makeDay y m d * msPerDay)))
        =? makeDay y m d
  | None => false
  end.

(** The dates the note container produces. *)
Definition validDate (s : string) : bool :=
  match parseDate s with
  | Some _ => true
  | None => false
  end.

(** The readings of the clock are those of a calendar day with a year of
    four digits. *)
Definition calendarEnv (env : Env) : bool :=
  let y := Z.of_N (localYear env) in
  let m := Z.of_N (localMonth env) + 1 in
  let d := Z.of_N (localDate env) in
  (1000 <=? y) && (y <=? 9999) && (m <=? 12) && (1 <=? d)
  && (d <=? daysInMonth y m).

(** [String(n)] is four digits that read back as [n]. *)
Definition fourDigits (n : N) : bool :=
  match ofNumber n with
  | String a (String b (String c (String d EmptyString))) =>
      match number4 a b c d with
      | Some y => y =? Z.of_N n
      | None => false
      end
  | _ => false
  end.

(** [String(n).padStart(2, "0")] is two digits that read back as [n]. *)
Definition twoDigits (n : N) : bool :=
  match padStart2 (ofNumber n) with
  | String a (String b EmptyString) =>
      match number2 a b with
      | Some y => y =? Z.of_N n
      | None => false
      end
  | _ => false
  end.

(** *** The search as the specification words it

    The weekday of a calendar date, by Zeller's congruence (January and
    February count as months 13 and 14 of the year before), its name in
    the language of a locale, and the three ways a note can match. *)

Inductive Weekday : Type :=
| Sunday | Monday | Tuesday | Wednesday | Thursday | Friday | Saturday.

Inductive Locale : Type := Indonesian | English.

Definition weekdayName (locale : Locale) (weekday : Weekday) : string :=
  match locale, weekday with
  | Indonesian, Sunday => "Minggu"
  | Indonesian, Monday => "Senin"
  | Indonesian, Tuesday => "Selasa"
  | Indonesian, Wednesday => "Rabu"
  | Indonesian, Thursday => "Kamis"
  | Indonesian, Friday => "Jumat"
  | Indonesian, Saturday => "Sabtu"
  | English, Sunday => "Sunday"
  | English, Monday => "Monday"
  | English, Tuesday => "Tuesday"
  | English, Wednesday => "Wednesday"
  | English, Thursday => "Thursday"
  | English, Friday => "Friday"
  | English, Saturday => "Saturday"
  end.

(** Zeller's congruence; 0 is Saturday. *)
Definition zeller (y m d : Z) : Z :=
  let year := if m <? 3 then y - 1 else y in
  let month := if m <? 3 then m + 12 else m in
  let K := year mod 100 in
  let J := year / 100 in
  (d + 13 * (month + 1) / 5 + K + K / 4 + J / 4 + 5 * J) mod 7.

Definition weekdayOf (y m d : Z) : Weekday :=
  match zeller y m d with
  | 0 => Saturday
  | 1 => Sunday
  | 2 => Monday
  | 3 => Tuesday
  | 4 => Wednesday
  | 5 => Thursday
  | _ => Friday
  end.

(** The two weekdays of the first of every month of a year are the
    same (0 is Sunday for [weekDay]). *)
Definition firstsAgree (year : N) : bool :=
  forallb (fun m =>
             (zeller (Z.of_N year) m 1 + 6) mod 7
               =? weekDay (makeDay (Z.of_N year) m 1))
          [1; 2; 3; 4; 5; 6; 7; 8; 9; 10; 11; 12].

(** The localized weekday name derived from the date. *)
Definition localizedWeekday (locale : Locale) (dateString : string)
  : option string :=
  match parseDate dateString with
  | Some (y, m, d) => Some (weekdayName locale (weekdayOf y m d))
  | None => None
  end.

(** The specification's reading of a match. *)
Definition specMatches (locale : Locale) (searchQuery : string) (note : Note)
  : Prop :=
  let query := trim searchQuery in
  query = "" \/
  containsIgnoringCase (date note) query \/
  (exists name, localizedWeekday locale (date note) = Some name /\
                containsIgnoringCase name query) \/
  containsIgnoringCase (content note) query.

End NotesSearch.

(** ** The order of the notes ([allNotes] of [useNotes], lines 145-150) *)

Module NotesOrder.
Import JsString Notes NotesSearch.
#[local] Open Scope string_scope.
#[local] Open Scope Z_scope.

Definition number3 (a b c : ascii) : option Z :=
  match digit a, number2 b c with
  | Some x, Some y => Some (100 * x + y)
  | _, _ => None
  end.

(** [new Date(s).getTime()] on a text [toISOString] writes,
    [YYYY-MM-DDTHH:mm:ss.sssZ], which every [createdAt] of the container
    is: the milliseconds from the epoch to that time, in UTC.  On other
    texts the result is another time, not a number or up to the engine,
    and the model gives none. *)
Definition timeValue (s : string) : option Z :=
  match parseDate (substring 0 10 s), substring 10 14 s with
  | Some (y, m, d),
    String t (String h1 (String h2 (String colon1 (String m1 (String m2
      (String colon2 (String s1 (String s2 (String point
        (String f1 (String f2 (String f3 (String z EmptyString))))))))))))) =>
      match number2 h1 h2, number2 m1 m2, number2 s1 s2, number3 f1 f2 f3 with
      | Some hour, Some minute, Some second, Some ms =>
          if Ascii.eqb t "T" && Ascii.eqb colon1 ":" && Ascii.eqb colon2 ":"
             && Ascii.eqb point "." && Ascii.eqb z "Z"
             && (String.length s =? 24)%nat
             && (hour <=? 23) && (minute <=? 59) && (second <=? 59)
          then Some (makeDay y m d * msPerDay + hour * msPerHour
                     + minute * 60000 + second * 1000 + ms)
          else None
      | _, _, _, _ => None
      end
  | _, _ => None
  end.

(** The notes with the numbers the comparator computes. *)
Fixpoint withTimes (notes : list Note) : option (list (Z * Note)) :=
  match notes with
  | [] => Some []
  | note :: rest =>
      match timeValue (createdAt note), withTimes rest with
      | Some time, Some entries => Some ((time, note) :: entries)
      | _, _ => None
      end
  end.

(** [Array.prototype.sort] with the comparator [(a, b) => time(b) -
    time(a)]: the later note first, and notes of one time in the order they
    had (the sort is stable).  An entry is put in place in front of the
    entries sorted so far, which stood behind it. *)
Fixpoint insertEntry (entry : Z * Note) (sorted : list (Z * Note))
  : list (Z * Note) :=
  match sorted with
  | [] => [entry]
  | other :: rest =>
      if fst entry <? fst other then other :: insertEntry entry rest
      else entry :: sorted
  end.

Definition sortEntries (entries : list (Z * Note)) : list (Z * Note) :=
  fold_right insertEntry [] entries.

(** [allNotes]: the array of the hook, sorted in place by every render
    that finds a new array.  It is the array the render hands on, the
    one [getTodayNotes], [getNotesByDate] and [stats] filter, and the one
    the setter of that render starts from. *)
Definition allNotes (notes : list Note) : option (list Note) :=
  match withTimes notes with
  | Some entries => Some (map snd (sortEntries entries))
  | None => None
  end.

End NotesOrder.

(** ** Persistent store adapter ([useLocalStorage]) *)

Module LocalStorage.
Import JsString.
#[local] Open Scope string_scope.

(** The browser storage: the entries and the room the origin is given.
    A write that would take more room than that is refused (the quota
    error of [setItem]). *)
Record Storage : Type := {
  items : gmap string string;
  quota : nat
}.

Definition usage (m : gmap string string) : nat :=
  map_fold (fun k v acc => (String.length k + String.length v + acc)%nat) 0%nat m.

Definition getItem (key : string) (st : Storage) : option string :=
  items st !! key.

Definition setItem (key value : string) (st : Storage) : option Storage :=
  let items' := <[key := value]> (items st) in
  if (usage items' <=? quota st)%nat
  then Some {| items := items'; quota := quota st |}
  else None.

Definition removeItem (key : string) (st : Storage) : Storage :=
  {| items := delete key (items st); quota := quota st |}.

(** [JSON.stringify] and [JSON.parse] on the values of type [T]; [parse]
    has no result exactly where [JSON.parse] throws.  [JSON.parse(item) as
    T] is a cast that checks nothing: [T] stands for all the values the
    stored texts decode to, whatever the type the hook is used at. *)
Class JSON (T : Type) : Type := {
  stringify : T -> string;
  parse : string -> option T
}.

(** A value that JSON can carry: its text decodes to it again, and is not
    the empty text. *)
Class JSONSerializable {T : Type} `{JSON T} (v : T) : Prop := {
  parse_stringify : parse (stringify v) = Some v;
  stringify_truthy : truthy (stringify v) = true
}.

Section Hook.

Context {T : Type} `{JSON T}.
Variable key : string.

(** The hook on one page: the React state cell and the storage. *)
Record hook : Type := { storedValue : T; storage : Storage }.

(** The lazy initial state: [item ? JSON.parse(item) : initialValue],
    and [initialValue] when that throws. *)
Definition read (initialValue : T) (st : Storage) : T :=
  match getItem key st with
  | Some item =>
      if truthy item then
        match parse item with
        | Some v => v
        | None => initialValue
        end
      else initialValue
  | None => initialValue
  end.

Definition useLocalStorage (initialValue : T) (st : Storage) : hook :=
  {| storedValue := read initialValue st; storage := st |}.

(** [T | ((prev: T) => T)] *)
Inductive setStateAction : Type :=
| Value (value : T)
| Updater (f : T -> T).

(** [value instanceof Function ? value(storedValue) : value], where
    [storedValue] is the one the render that built the setter saw. *)
Definition valueToStore (value : setStateAction) (rendered : T) : T :=
  match value with
  | Updater f => f rendered
  | Value v => v
  end.

(** The setter built by a render that saw [rendered] ([useCallback] with
    [storedValue] among its dependencies), called on the hook as it is
    now: the state is set first; a refused write is caught and leaves the
    storage as it was. *)
Definition setValueOf (rendered : T) (value : setStateAction) (h : hook) : hook :=
  let valueToStore := valueToStore value rendered in
  match setItem key (stringify valueToStore) (storage h) with
  | Some st' => {| storedValue := valueToStore; storage := st' |}
  | None => {| storedValue := valueToStore; storage := storage h |}
  end.

(** [setValue] as the components call it: every handler makes one call,
    on the setter of the latest render. *)
Definition setValue (value : setStateAction) (h : hook) : hook :=
  setValueOf (storedValue h) value h.

(** The fields of a [StorageEvent] the handler looks at; [None] is
    [null]. *)
Record StorageEvent : Type := {
  eventKey : option string;
  newValue : option string
}.

Definition handleStorageChange (e : StorageEvent) (h : hook) : hook :=
  match eventKey e, newValue e with
  | Some k, Some text =>
      if String.eqb k key && truthy text then
        match parse text with
        | Some v => {| storedValue := v; storage := storage h |}
        | None => h
        end
      else h
  | _, _ => h
  end.

End Hook.

(** JSON white space: space, tab, line feed, carriage return. *)
Definition isJsonSpace (c : ascii) : bool :=
  let n := N_of_ascii c in
  ((n =? 32) || (n =? 9) || (n =? 10) || (n =? 13))%N.

Fixpoint skipSpace (s : string) : string :=
  match s with
  | EmptyString => EmptyString
  | String c s' => if isJsonSpace c then skipSpace s' else s
  end.

Fixpoint allSpace (s : string) : bool :=
  match s with
  | EmptyString => true
  | String c s' => isJsonSpace c && allSpace s'
  end.

(** *** JSON values, [JSON.parse] and [JSON.stringify]

    A value is kept as the JSON grammar builds it.  A string is the list
    of its code units, since an escape can name any unit up to 65535.  A
    number is the decimal value of its literal, [mantissa * 10 ^
    exponent]: the engine holds the double nearest to it, which
    [JSON.stringify] writes with the same digits for literals of up to 15
    digits within the range of doubles (and it reads [-0] where this has
    [0]).  The texts are on code units
    0..255 like all strings here, so [stringifyJson] writes a unit above
    255 as an escape, where the engine writes the character. *)

#[warnings="-register-all"]
Inductive Json : Type :=
| JNull
| JBool (b : bool)
| JNumber (mantissa exponent : Z)
| JString (units : list N)
| JArray (elements : list Json)
| JObject (members : list (list N * Json)).

(** The quotation mark. *)
Definition quote : ascii := ascii_of_N 34.

(** The text after [word], where the text starts with it. *)
Fixpoint after (word s : string) : option string :=
  match word with
  | EmptyString => Some s
  | String c word' =>
      match s with
      | String c' s' => if Ascii.eqb c c' then after word' s' else None
      | EmptyString => None
      end
  end.

Definition decimalDigit (c : ascii) : option Z :=
  let n := N_of_ascii c in
  if ((48 <=? n) && (n <=? 57))%N then Some (Z.of_N (n - 48)) else None.

Definition hexDigit (c : ascii) : option N :=
  let n := N_of_ascii c in
  if ((48 <=? n) && (n <=? 57))%N then Some (n - 48)%N
  else if ((65 <=? n) && (n <=? 70))%N then Some (n - 55)%N
  else if ((97 <=? n) && (n <=? 102))%N then Some (n - 87)%N
  else None.

(** The code unit of a one-character escape. *)
Definition escaped (c : ascii) : option N :=
  if Ascii.eqb c quote then Some 34%N
  else if Ascii.eqb c "\" then Some 92%N
  else if Ascii.eqb c "/" then Some 47%N
  else if Ascii.eqb c "b" then Some 8%N
  else if Ascii.eqb c "f" then Some 12%N
  else if Ascii.eqb c "n" then Some 10%N
  else if Ascii.eqb c "r" then Some 13%N
  else if Ascii.eqb c "t" then Some 9%N
  else None.

(** A string after its opening quotation mark: the code units up to the
    closing one, and the text after it. *)
Fixpoint parseString (s : string) (acc : list N) : option (list N * string) :=
  match s with
  | EmptyString => None
  | String c rest =>
      if Ascii.eqb c quote then Some (rev acc, rest)
      else if Ascii.eqb c "\" then
        match rest with
        | EmptyString => None
        | String e rest' =>
            if Ascii.eqb e "u" then
              match rest' with
              | String h1 (String h2 (String h3 (String h4 rest''))) =>
                  match hexDigit h1, hexDigit h2, hexDigit h3, hexDigit h4 with
                  | Some a, Some b, Some c', Some d =>
                      parseString rest'' ((((a * 16 + b) * 16 + c') * 16 + d)%N :: acc)
                  | _, _, _, _ => None
                  end
              | _ => None
              end
            else
              match escaped e with
              | Some unit => parseString rest' (unit :: acc)
              | None => None
              end
        end
      else if (N_of_ascii c <? 32)%N then None
      else parseString rest (N_of_ascii c :: acc)
  end.

Fixpoint takeDigits (s : string) : list Z * string :=
  match s with
  | EmptyString => ([], s)
  | String c rest =>
      match decimalDigit c with
      | Some d => let (ds, rest') := takeDigits rest in (d :: ds, rest')
      | None => ([], s)
      end
  end.

Definition digitsValue (ds : list Z) : Z :=
  fold_left (fun acc d => 10 * acc + d)%Z ds 0%Z.

(** [mantissa * 10 ^ exponent] with no zero at the end of the mantissa;
    zero is [0 * 10 ^ 0]. *)
Fixpoint stripZeros (fuel : nat) (mantissa exponent : Z) : Z * Z :=
  match fuel with
  | O => (mantissa, exponent)
  | S fuel =>
      if (mantissa =? 0)%Z then (0, 0)%Z
      else if (mantissa mod 10 =? 0)%Z
           then stripZeros fuel (mantissa / 10)%Z (exponent + 1)%Z
           else (mantissa, exponent)
  end.

(** An optional sign: whether it is the minus sign, and the text after
    it. *)
Definition signOf (plus : bool) (s : string) : bool * string :=
  match s with
  | String c rest =>
      if Ascii.eqb c "-" then (true, rest)
      else if plus && Ascii.eqb c "+" then (false, rest)
      else (false, s)
  | EmptyString => (false, s)
  end.

Definition fractionOf (s : string) : option (list Z * string) :=
  match s with
  | String c rest =>
      if Ascii.eqb c "." then
        match takeDigits rest with
        | ([], _) => None
        | (ds, rest') => Some (ds, rest')
        end
      else Some ([], s)
  | EmptyString => Some ([], s)
  end.

Definition exponentOf (s : string) : option (Z * string) :=
  match s with
  | String c rest =>
      if Ascii.eqb c "e" || Ascii.eqb c "E" then
        let (negative, rest) := signOf true rest in
        match takeDigits rest with
        | ([], _) => None
        | (ds, rest') =>
            Some (if negative then (- digitsValue ds)%Z else digitsValue ds, rest')
        end
      else Some (0%Z, s)
  | EmptyString => Some (0%Z, s)
  end.

(** A number literal: an optional minus sign, the digits of the whole
    part (a single 0, or digits that do not start with 0), an optional
    fraction (a point and digits) and an optional exponent ([e] or [E], an
    optional sign and digits). *)
Definition parseNumber (s : string) : option (Json * string) :=
  let (negative, s) := signOf false s in
  match takeDigits s with
  | ([], _) => None
  | (0%Z :: _ :: _, _) => None
  | (whole, s) =>
      match fractionOf s with
      | None => None
      | Some (fraction, s) =>
          match exponentOf s with
          | None => None
          | Some (power, s) =>
              let digits := app whole fraction in
              let mantissa := digitsValue digits in
              let (m, e) :=
                stripZeros (length digits)
                           (if negative then - mantissa else mantissa)%Z
                           (power - Z.of_nat (length fraction))%Z in
              Some (JNumber m e, s)
          end
      end
  end.

Fixpoint sameKey (a b : list N) : bool :=
  match a, b with
  | [], [] => true
  | x :: a', y :: b' => (x =? y)%N && sameKey a' b'
  | _, _ => false
  end.

Fixpoint unitsValue (units : list N) (acc : N) : option N :=
  match units with
  | [] => Some acc
  | u :: rest =>
      if ((48 <=? u) && (u <=? 57))%N then unitsValue rest (10 * acc + (u - 48))%N
      else None
  end.

(** An array index: a key that is the decimal writing, with no zero in
    front, of a number below [2^32 - 1]. *)
Definition arrayIndex (key : list N) : option N :=
  match key with
  | [] => None
  | [48%N] => Some 0%N
  | 48%N :: _ => None
  | _ =>
      if (length key <=? 10)%nat then
        match unitsValue key 0 with
        | Some n => if (n <? 4294967295)%N then Some n else None
        | None => None
        end
      else None
  end.

Fixpoint hasKey (key : list N) (members : list (list N * Json)) : bool :=
  match members with
  | [] => false
  | (k, _) :: rest => sameKey k key || hasKey key rest
  end.

Fixpoint replaceMember (key : list N) (v : Json) (members : list (list N * Json))
  : list (list N * Json) :=
  match members with
  | [] => []
  | (k, v') :: rest =>
      if sameKey k key then (k, v) :: rest
      else (k, v') :: replaceMember key v rest
  end.

Fixpoint insertIndex (i : N) (key : list N) (v : Json)
  (members : list (list N * Json)) : list (list N * Json) :=
  match members with
  | [] => [(key, v)]
  | (k, v') :: rest =>
      match arrayIndex k with
      | Some j =>
          if (j <? i)%N then (k, v') :: insertIndex i key v rest
          else (key, v) :: members
      | None => (key, v) :: members
      end
  end.

(** [CreateDataProperty] on the object under construction, in the order
    in which the properties of an object are listed: array indices in
    ascending order, then the other keys in the order of their creation;
    a key met again keeps its place and takes the new value. *)
Definition addMember (key : list N) (v : Json) (members : list (list N * Json))
  : list (list N * Json) :=
  if hasKey key members then replaceMember key v members
  else
    match arrayIndex key with
    | Some i => insertIndex i key v members
    | None => app members [(key, v)]
    end.

(** A value, with the text that follows it; [elements] and [members]
    read the rest of an array after its bracket and of an object after
    its brace. *)
Definition valueStep
  (elements : string -> option (list Json * string))
  (members : string -> list (list N * Json) -> option (list (list N * Json) * string))
  (s : string) : option (Json * string) :=
  match skipSpace s with
  | EmptyString => None
  | String c rest as text =>
      if Ascii.eqb c quote then
        match parseString rest [] with
        | Some (units, rest') => Some (JString units, rest')
        | None => None
        end
      else if Ascii.eqb c "[" then
        match after "]" (skipSpace rest) with
        | Some rest' => Some (JArray [], rest')
        | None =>
            match elements rest with
            | Some (l, rest') => Some (JArray l, rest')
            | None => None
            end
        end
      else if Ascii.eqb c "{" then
        match after "}" (skipSpace rest) with
        | Some rest' => Some (JObject [], rest')
        | None =>
            match members rest [] with
            | Some (l, rest') => Some (JObject l, rest')
            | None => None
            end
        end
      else
        match after "null" text, after "true" text, after "false" text with
        | Some rest', _, _ => Some (JNull, rest')
        | _, Some rest', _ => Some (JBool true, rest')
        | _, _, Some rest' => Some (JBool false, rest')
        | None, None, None => parseNumber text
        end
  end.

(** The elements of an array up to its closing bracket: a value, then a
    comma and more elements, or the bracket. *)
Definition elementsStep
  (value : string -> option (Json * string))
  (elements : string -> option (list Json * string))
  (s : string) : option (list Json * string) :=
  match value s with
  | Some (v, rest) =>
      match skipSpace rest with
      | String c rest' =>
          if Ascii.eqb c "," then
            match elements rest' with
            | Some (l, rest'') => Some (v :: l, rest'')
            | None => None
            end
          else if Ascii.eqb c "]" then Some ([v], rest')
          else None
      | EmptyString => None
      end
  | None => None
  end.

(** The members of an object up to its closing brace: a key, a colon and
    a value, then a comma and more members, or the brace. *)
Definition membersStep
  (value : string -> option (Json * string))
  (members : string -> list (list N * Json) -> option (list (list N * Json) * string))
  (s : string) (acc : list (list N * Json))
  : option (list (list N * Json) * string) :=
  match skipSpace s with
  | String c rest =>
      if Ascii.eqb c quote then
        match parseString rest [] with
        | Some (key, rest) =>
            match after ":" (skipSpace rest) with
            | Some rest =>
                match value rest with
                | Some (v, rest) =>
                    let acc := addMember key v acc in
                    match skipSpace rest with
                    | String c' rest' =>
                        if Ascii.eqb c' "," then members rest' acc
                        else if Ascii.eqb c' "}" then Some (acc, rest')
                        else None
                    | EmptyString => None
                    end
                | None => None
                end
            | None => None
            end
        | None => None
        end
      else None
  | EmptyString => None
  end.

(** The three readers, tied together.  Every call goes on with a shorter
    text or, from [parseElements] to [parseValue], once with the same
    text, so that a [fuel] above twice the length of the text is never
    used up ([JsonFacts.parseValue_fuel]). *)
Fixpoint parseValue (fuel : nat) (s : string) : option (Json * string) :=
  match fuel with
  | O => None
  | S fuel => valueStep (parseElements fuel) (parseMembers fuel) s
  end
with parseElements (fuel : nat) (s : string) : option (list Json * string) :=
  match fuel with
  | O => None
  | S fuel => elementsStep (parseValue fuel) (parseElements fuel) s
  end
with parseMembers (fuel : nat) (s : string) (acc : list (list N * Json))
  : option (list (list N * Json) * string) :=
  match fuel with
  | O => None
  | S fuel => membersStep (parseValue fuel) (parseMembers fuel) s acc
  end.

(** [JSON.parse]: one value, with white space around it at most. *)
Definition parseJson (text : string) : option Json :=
  match parseValue (2 * String.length text + 2) text with
  | Some (v, rest) => if allSpace rest then Some v else None
  | None => None
  end.

Definition hexChar (n : N) : ascii :=
  if (n <? 10)%N then ascii_of_N (48 + n) else ascii_of_N (87 + n).

Definition hex4 (n : N) : string :=
  String (hexChar (n / 4096 mod 16)%N)
    (String (hexChar (n / 256 mod 16)%N)
       (String (hexChar (n / 16 mod 16)%N)
          (String (hexChar (n mod 16)%N) EmptyString))).

Definition quoteUnit (u : N) : string :=
  if (u =? 34)%N then String "\" (String quote EmptyString)
  else if (u =? 92)%N then "\\"
  else if (u =? 8)%N then "\b"
  else if (u =? 9)%N then "\t"
  else if (u =? 10)%N then "\n"
  else if (u =? 12)%N then "\f"
  else if (u =? 13)%N then "\r"
  else if ((u <? 32) || (255 <? u))%N then "\u" ++ hex4 u
  else String (ascii_of_N u) EmptyString.

(** [QuoteJSONString] *)
Definition quoteString (units : list N) : string :=
  String quote (fold_right (fun u rest => quoteUnit u ++ rest)
                           (String quote EmptyString) units).

Fixpoint zeros (n : nat) : string :=
  match n with
  | O => EmptyString
  | S n => String "0" (zeros n)
  end.

(** [Number::toString] on the digits of the number. *)
Definition numberToString (mantissa exponent : Z) : string :=
  if (mantissa =? 0)%Z then "0"
  else
    let sign := if (mantissa <? 0)%Z then "-" else "" in
    let digits := ofNumber (Z.to_N (Z.abs mantissa)) in
    let k := Z.of_nat (String.length digits) in
    let n := (k + exponent)%Z in
    sign ++
    (if ((k <=? n) && (n <=? 21))%Z then digits ++ zeros (Z.to_nat (n - k))
     else if ((0 <? n) && (n <=? 21))%Z then
       substring 0 (Z.to_nat n) digits ++ "." ++
       substring (Z.to_nat n) (Z.to_nat (k - n)) digits
     else if ((-6 <? n) && (n <=? 0))%Z then
       "0." ++ zeros (Z.to_nat (- n)) ++ digits
     else
       let power := (n - 1)%Z in
       let exponentPart :=
         "e" ++ (if (power <? 0)%Z then "-" else "+")
             ++ ofNumber (Z.to_N (Z.abs power)) in
       if (k =? 1)%Z then digits ++ exponentPart
       else substring 0 1 digits ++ "." ++
            substring 1 (Z.to_nat (k - 1)) digits ++ exponentPart).

(** [JSON.stringify] *)
Fixpoint stringifyJson (v : Json) : string :=
  match v with
  | JNull => "null"
  | JBool true => "true"
  | JBool false => "false"
  | JNumber mantissa exponent => numberToString mantissa exponent
  | JString units => quoteString units
  | JArray elements =>
      "[" ++
      (fix list (l : list Json) : string :=
         match l with
         | [] => "]"
         | x :: rest =>
             stringifyJson x ++
             match rest with
             | [] => "]"
             | _ => "," ++ list rest
             end
         end) elements
  | JObject members =>
      "{" ++
      (fix list (l : list (list N * Json)) : string :=
         match l with
         | [] => "}"
         | (key, x) :: rest =>
             quoteString key ++ ":" ++ stringifyJson x ++
             match rest with
             | [] => "}"
             | _ => "," ++ list rest
             end
         end) members
  end.

(** [ToBoolean] *)
Definition toBoolean (v : Json) : bool :=
  match v with
  | JNull => false
  | JBool b => b
  | JNumber mantissa _ => negb (mantissa =? 0)%Z
  | JString [] => false
  | JString _ => true
  | JArray _ => true
  | JObject _ => true
  end.

#[export] Instance JSON_value : JSON Json := {|
  stringify := stringifyJson;
  parse := parseJson
|}.

End LocalStorage.

(** ** Sample data for the examples *)

Module Samples.
#[local] Open Scope string_scope.

Definition sampleEnv : Env :=
  {| dateNow := 1737331200000;
     isoNow := "2025-01-20T00:00:00.000Z";
     localYear := 2025; localMonth := 0; localDate := 20;
     randomBase36 := "0.k3x9q1z7a4f" |}.

Definition laterEnv : Env :=
  {| dateNow := 1737331260000;
     isoNow := "2025-01-20T00:01:00.000Z";
     localYear := 2025; localMonth := 0; localDate := 20;
     randomBase36 := "0.5f1m2c8wq0z" |}.

Definition earlierEnv : Env :=
  {| dateNow := 1737244800000;
     isoNow := "2025-01-19T00:00:00.000Z";
     localYear := 2025; localMonth := 0; localDate := 19;
     randomBase36 := "0.b7c2m4n8p" |}.

Definition sampleState : Todos.TodoState :=
  {| Todos.todos :=
       [ {| Todos.id := "1737331200000-k3x9q1z7a";
            Todos.text := "Water the plants";
            Todos.completed := true;
            Todos.createdAt := "2025-01-20T00:00:00.000Z";
            Todos.updatedAt := "2025-01-20T00:00:00.000Z" |};
         {| Todos.id := "1737244800000-b7c2m4n8p";
            Todos.text := "Buy MILK";
            Todos.completed := false;
            Todos.createdAt := "2025-01-19T00:00:00.000Z";
            Todos.updatedAt := "2025-01-19T00:00:00.000Z" |} ];
     Todos.filter := Todos.all;
     Todos.searchQuery := "" |}.

Definition mondayNote : Notes.Note :=
  {| Notes.id := "1737331200000-k3x9q1z7a";
     Notes.content := "Rapat tim jam 10";
     Notes.date := "2025-01-20";
     Notes.createdAt := "2025-01-20T00:00:00.000Z";
     Notes.updatedAt := "2025-01-20T00:00:00.000Z";
     Notes.convertedToTodo := false |}.

Definition sundayNote : Notes.Note :=
  {| Notes.id := "1737244800000-b7c2m4n8p";
     Notes.content := "Belanja mingguan";
     Notes.date := "2025-01-19";
     Notes.createdAt := "2025-01-19T00:00:00.000Z";
     Notes.updatedAt := "2025-01-19T00:00:00.000Z";
     Notes.convertedToTodo := true |}.

(** A note written later on the day of [mondayNote]. *)
Definition eveningNote : Notes.Note :=
  {| Notes.id := "1737396000000-z2y4x6w8v";
     Notes.content := "Siram tanaman";
     Notes.date := "2025-01-20";
     Notes.createdAt := "2025-01-20T18:00:00.000Z";
     Notes.updatedAt := "2025-01-20T18:00:00.000Z";
     Notes.convertedToTodo := false |}.

(** A note of the day Samoa left out. *)
Definition fridayNote : Notes.Note :=
  {| Notes.id := "1325239200000-q8w2e4r6t";
     Notes.content := "Jemput paket";
     Notes.date := "2011-12-30";
     Notes.createdAt := "2011-12-30T10:00:00.000Z";
     Notes.updatedAt := "2011-12-30T10:00:00.000Z";
     Notes.convertedToTodo := false |}.

(** Western Indonesian time: seven hours ahead of UTC all year. *)
Definition jakarta : NotesSearch.TimeZone :=
  NotesSearch.fixedOffset (7 * NotesSearch.msPerHour)%Z.

(** Samoa: at the end of 29 December 2011 (10:00 UTC on the 30th) the
    offset went from ten hours behind UTC to fourteen hours ahead, and 30
    December 2011 did not take place. *)
Definition apia : NotesSearch.TimeZone :=
  NotesSearch.shiftingOffset
    (NotesSearch.makeDay 2011 12 30 * NotesSearch.msPerDay
     + 10 * NotesSearch.msPerHour)%Z
    (-10 * NotesSearch.msPerHour)%Z
    (14 * NotesSearch.msPerHour)%Z.

(** A storage with room for the entry of the flag, and one without. *)
Definition roomyStorage : LocalStorage.Storage :=
  {| LocalStorage.items := {[ "visits" := "42" ]};
     LocalStorage.quota := 5000 |}.

Definition fullStorage : LocalStorage.Storage :=
  {| LocalStorage.items := {[ "visits" := "42" ]};
     LocalStorage.quota := 12 |}.

(** A storage whose entry for the flag was cut short. *)
Definition garbledStorage : LocalStorage.Storage :=
  {| LocalStorage.items := {[ "done" := "tru"; "visits" := "42" ]};
     LocalStorage.quota := 5000 |}.

(** The updater [prev => !prev]. *)
Definition negate (prev : LocalStorage.Json) : LocalStorage.Json :=
  LocalStorage.JBool (negb (LocalStorage.toBoolean prev)).

End Samples.

(** ** Handlers of the components *)

(** What the handlers need besides the containers: [try]/[finally], and a
    handler of one hook run inside a larger state. *)
Module Handler.
Import Effect.

(** [try { body } finally { finalizer }] *)
Definition tryFinally {S A} (body : M S A) (finalizer : M S unit) : M S A :=
  fun s =>
    match body s with
    | (completed, s') =>
        match finalizer s' with
        | (Returned _, s'') => (completed, s'')
        | (Thrown message, s'') => (Thrown message, s'')
        end
    end.

(** A handler over a part [T] of the state [S]. *)
Definition zoom {S T A} (get : S -> T) (set : T -> S -> S) (m : M T A) : M S A :=
  fun s =>
    match m (get s) with
    | (completed, t') => (completed, set t' s)
    end.

End Handler.

(** *** [TodoInput] ([src/unnamed/part_000], lines 23-80) *)

Module TodoInput.
Import JsString Effect.
#[local] Open Scope string_scope.

(** [handleSubmit], for an input that holds [value]; the result is the
    value the input holds afterwards ([setValue('')] after [onAdd]). *)
Definition handleSubmit {S} (onAdd : string -> M S unit) (value : string)
  : M S string :=
  let trimmedValue := trim value in
  if truthy trimmedValue
  then bind (onAdd trimmedValue) (fun _ => ret EmptyString)
  else ret value.

(** [handleKeyDown], on the [key] of the event. *)
Definition handleKeyDown {S} (onAdd : string -> M S unit) (key value : string)
  : M S string :=
  if String.eqb key "Enter" then handleSubmit onAdd value else ret value.

End TodoInput.

(** *** [TodoItem] ([src/components/todo/PaginationLoadMore.tsx], lines
    201-270) *)

Module TodoItem.
Import JsString Effect.
#[local] Open Scope string_scope.

(** [useState(false)] and [useState(todo.text)] *)
Record state : Type := { isEditing : bool; editValue : string }.

Definition mount (todo : Todos.Todo) : state :=
  {| isEditing := false; editValue := Todos.text todo |}.

Definition handleStartEdit (todo : Todos.Todo) (st : state) : state :=
  {| isEditing := true; editValue := Todos.text todo |}.

Definition handleCancelEdit (todo : Todos.Todo) (st : state) : state :=
  {| isEditing := false; editValue := Todos.text todo |}.

Definition handleSaveEdit {S} (onEdit : string -> string -> M S unit)
    (todo : Todos.Todo) (st : state) : M S state :=
  let trimmedValue := trim (editValue st) in
  bind
    (if truthy trimmedValue && negb (String.eqb trimmedValue (Todos.text todo))
     then onEdit (Todos.id todo) trimmedValue
     else ret tt)
    (fun _ => ret {| isEditing := false; editValue := editValue st |}).

Definition handleEditKeyDown {S} (onEdit : string -> string -> M S unit)
    (key : string) (todo : Todos.Todo) (st : state) : M S state :=
  if String.eqb key "Enter" then handleSaveEdit onEdit todo st
  else if String.eqb key "Escape" then ret (handleCancelEdit todo st)
  else ret st.

End TodoItem.

(** *** [TodoFilter] ([src/unnamed/part_000], lines 280-310) and
    [TodoStats] ([src/unnamed/part_002]) *)

Module TodoFilter.

Module Counts.
Record t : Type := { all : nat; active : nat; completed : nat }.
End Counts.

(** [counts[filter]] *)
Definition getCount (counts : Counts.t) (filter : Todos.FilterType) : nat :=
  match filter with
  | Todos.all => Counts.all counts
  | Todos.active => Counts.active counts
  | Todos.completed_ => Counts.completed counts
  end.

End TodoFilter.

Module TodoStats.

(** The component renders nothing when [stats.total === 0]. *)
Definition rendered (stats : Todos.Stats.t) : bool :=
  negb (Nat.eqb (Todos.Stats.total stats) 0).

(** The button that calls [onClearCompleted] is there when the component
    is rendered and [stats.completed > 0]. *)
Definition clearButtonShown (stats : Todos.Stats.t) : bool :=
  rendered stats && Nat.ltb 0 (Todos.Stats.completed stats).

End TodoStats.

(** *** [PaginationLoadMore] ([src/components/todo/PaginationLoadMore.tsx],
    lines 81-170) *)

Module PaginationLoadMore.

(** The props the page hands in. *)
Record props : Type := {
  remainingItems : Z;
  canShowLess : bool;
  disabled : bool;
  isLoading : bool
}.

(** [disabled={disabled || remainingItems === 0}] of the load-more button. *)
Definition loadMoreDisabled (p : props) : bool :=
  disabled p || (remainingItems p =? 0).

(** The show-less button is rendered under [canShowLess]. *)
Definition showLessShown (p : props) : bool := canShowLess p.

End PaginationLoadMore.

(** *** [NoteForm] ([src/components/todo/NoteForm.tsx]) *)

Module NoteForm.
Import JsString Effect Handler.
#[local] Open Scope string_scope.

(** [useState("")] and [useState(false)] *)
Record state : Type := { content : string; isSubmitting : bool }.

Definition initial : state := {| content := ""; isSubmitting := false |}.

Section WithParent.

(** The state of the parent, on which the callbacks of the props act. *)
Context {S : Type}.

Definition setContent (c : string) : M (state * S) unit :=
  update (fun '(f, s) => ({| content := c; isSubmitting := isSubmitting f |}, s)).

Definition setIsSubmitting (b : bool) : M (state * S) unit :=
  update (fun '(f, s) => ({| content := content f; isSubmitting := b |}, s)).

(** A callback of the props, run on the parent. *)
Definition parent {A} (m : M S A) : M (state * S) A :=
  zoom snd (fun s' '(f, _) => (f, s')) m.

(** The effect on [editingNote] and [isOpen]. *)
Definition syncContent (editingNote : option (string * string)) : M (state * S) unit :=
  match editingNote with
  | Some (_, c) => setContent c
  | None => setContent ""
  end.

Variable onClose : M S unit.
Variable onAddNote : string -> M S unit.
Variable onEditNote : option (string -> string -> M S unit).
Variable onConvertToTodo : string -> M S unit.

(** The handlers read [content] and [editingNote] of the render that built
    them. *)
Definition handleAddNote (f : state) : M (state * S) unit :=
  if negb (truthy (trim (content f))) then ret tt
  else
    (setIsSubmitting true ;;
     tryFinally
       (parent (onAddNote (content f)) ;; setContent "" ;; parent onClose)
       (setIsSubmitting false))%effect.

Definition handleEditNote (editingNote : option (string * string)) (f : state)
  : M (state * S) unit :=
  match editingNote with
  | Some (id', _) =>
      if negb (truthy (trim (content f))) then ret tt
      else
        (setIsSubmitting true ;;
         tryFinally
           (match onEditNote with
            | Some onEdit => parent (onEdit id' (content f))
            | None => ret tt
            end ;; setContent "" ;; parent onClose)
           (setIsSubmitting false))%effect
  | None => ret tt
  end.

Definition handleConvertToTodo (f : state) : M (state * S) unit :=
  if negb (truthy (trim (content f))) then ret tt
  else
    (setIsSubmitting true ;;
     tryFinally
       (parent (onConvertToTodo (content f)) ;; setContent "" ;; parent onClose)
       (setIsSubmitting false))%effect.

(** [handleKeyDown], on the modifier and the key of the event. *)
Definition handleKeyDown (ctrlKey metaKey : bool) (key : string) (f : state)
  : M (state * S) unit :=
  if (ctrlKey || metaKey) && String.eqb key "Enter"
  then handleConvertToTodo f
  else ret tt.

Definition handleOpenChange (open : bool) : M (state * S) unit :=
  if negb open then (setContent "" ;; parent onClose)%effect else ret tt.

End WithParent.

End NoteForm.

(** *** The page ([src/pages/Index.tsx], lines 43-190 and the props of
    lines 196-356) *)

Module Index.
Import JsString Effect Handler.
#[local] Open Scope string_scope.
#[local] Open Scope Z_scope.

(** The state the page holds: the two containers, the page number of
    [usePagination], and the two cells of the note form. *)
Record state : Type := {
  todoState : Todos.TodoState;
  notes : list Notes.Note;
  currentPage : Z;
  isNoteFormOpen : bool;
  editingNote : option (string * string)
}.

Definition onTodos {A} (m : M Todos.TodoState A) : M state A :=
  zoom todoState
       (fun t s => {| todoState := t; notes := notes s;
                      currentPage := currentPage s;
                      isNoteFormOpen := isNoteFormOpen s;
                      editingNote := editingNote s |})
       m.

Definition onNotes {A} (m : M (list Notes.Note) A) : M state A :=
  zoom notes
       (fun n s => {| todoState := todoState s; notes := n;
                      currentPage := currentPage s;
                      isNoteFormOpen := isNoteFormOpen s;
                      editingNote := editingNote s |})
       m.

Definition setIsNoteFormOpen (b : bool) : M state unit :=
  update (fun s => {| todoState := todoState s; notes := notes s;
                      currentPage := currentPage s;
                      isNoteFormOpen := b;
                      editingNote := editingNote s |}).

Definition setEditingNote (e : option (string * string)) : M state unit :=
  update (fun s => {| todoState := todoState s; notes := notes s;
                      currentPage := currentPage s;
                      isNoteFormOpen := isNoteFormOpen s;
                      editingNote := e |}).

(** The page filters the list the hook has filtered already, with a guard
    for a blank query. *)
Definition filteredTodos (s : Todos.TodoState) : list Todos.Todo :=
  let todos := Todos.filteredTodos s in
  let filter := Todos.filter s in
  let searchQuery := Todos.searchQuery s in
  List.filter
    (fun todo =>
       if negb (truthy (trim searchQuery)) then true
       else includes (toLowerCase (Todos.text todo)) (toLowerCase searchQuery))
    (List.filter
       (fun todo =>
          match filter with
          | Todos.active => negb (Todos.completed todo)
          | Todos.completed_ => Todos.completed todo
          | Todos.all => true
          end)
       todos).

(** [usePagination(filteredTodos, { itemsPerPage: 5 })] as the page sees
    it. *)
Definition pagination (s : state) : Pagination.view :=
  {| Pagination.allItems := filteredTodos (todoState s);
     Pagination.currentPage := currentPage s |}.

Definition paginatedTodos (s : state) : list Todos.Todo :=
  Pagination.displayedItems 5 (pagination s).

(** The props of [PaginationLoadMore]. *)
Definition paginationProps (s : state) : PaginationLoadMore.props :=
  {| PaginationLoadMore.remainingItems := Pagination.remainingItems 5 (pagination s);
     PaginationLoadMore.canShowLess := 1 <? currentPage s;
     PaginationLoadMore.disabled := negb (Pagination.hasNextPage 5 (pagination s));
     PaginationLoadMore.isLoading := false |}.

(** [PaginationLoadMore] is rendered under [paginatedTodos.length > 0]. *)
Definition paginationRendered (s : state) : bool :=
  Nat.ltb 0%nat (length (paginatedTodos s)).

(** The [counts] prop of [TodoFilter]. *)
Definition filterCounts (s : Todos.TodoState) : TodoFilter.Counts.t :=
  let stats := Todos.stats s in
  {| TodoFilter.Counts.all := Todos.Stats.total stats;
     TodoFilter.Counts.active := Todos.Stats.active stats;
     TodoFilter.Counts.completed := Todos.Stats.completed stats |}.

Definition handleAddNote (env : Env) (content : string) : M state unit :=
  bind (onNotes (Notes.addNote env content)) (fun _ => ret tt).

Definition handleEditNote (note : string * string) : M state unit :=
  (setEditingNote (Some note) ;; setIsNoteFormOpen true)%effect.

Definition handleSaveEditNote (env : Env) (id' content : string) : M state unit :=
  (onNotes (Notes.updateNote env id' content) ;; setEditingNote None)%effect.

Definition handleConvertNoteToTodo (env : Env) (content : string) : M state unit :=
  onTodos (Todos.addTodo env content).

(** [onClose] of the note form. *)
Definition closeNoteForm : M state unit :=
  (setIsNoteFormOpen false ;; setEditingNote None)%effect.

(** The page with the note form closed, around the two containers. *)
Definition closed (s : state) (todoState' : Todos.TodoState)
    (notes' : list Notes.Note) : state :=
  {| todoState := todoState';
     notes := notes';
     currentPage := currentPage s;
     isNoteFormOpen := false;
     editingNote := None |}.

(** The three buttons of the note form, with the props the page gives it,
    as handlers of the latest render. *)
Definition saveNote (env : Env) : M (NoteForm.state * state) unit :=
  fun '(f, s) =>
    NoteForm.handleAddNote closeNoteForm (handleAddNote env) f (f, s).

Definition saveEdit (env : Env) : M (NoteForm.state * state) unit :=
  fun '(f, s) =>
    NoteForm.handleEditNote closeNoteForm (Some (handleSaveEditNote env))
      (editingNote s) f (f, s).

Definition convertToTodo (env : Env) : M (NoteForm.state * state) unit :=
  fun '(f, s) =>
    NoteForm.handleConvertToTodo closeNoteForm (handleConvertNoteToTodo env) f (f, s).

End Index.

(** *** Derived state of [useNotes] ([src/unnamed/part_005], lines 155-164) *)

Module NotesStats.

Record t : Type := { total : nat; today : nat; notConverted : nat }.

Definition stats (env : Env) (notes : list Notes.Note) : t :=
  let today := Notes.getTodayDate env in
  let todayNotes := List.filter (fun note => String.eqb (Notes.date note) today) notes in
  {| total := length notes;
     today := length todayNotes;
     notConverted :=
       length (List.filter (fun note => negb (Notes.convertedToTodo note)) todayNotes) |}.

End NotesStats.

(** *** The storage event of a write *)

Module StorageEvents.
Import LocalStorage.

(** The event the browser sends to the other pages of the origin after a
    page has set [key]: the key and the text now stored. *)
Definition written (key : string) (st' : Storage) : StorageEvent :=
  {| eventKey := Some key; newValue := getItem key st' |}.

(** The event after [removeItem]. *)
Definition removed (key : string) : StorageEvent :=
  {| eventKey := Some key; newValue := None |}.

End StorageEvents.

Module MoreSamples.
#[local] Open Scope string_scope.

(** A storage with room for one more short entry, and no more. *)
Definition tightStorage : LocalStorage.Storage :=
  {| LocalStorage.items := {[ "visits" := "42" ]};
     LocalStorage.quota := 16 |}.

Definition samplePage : Index.state :=
  {| Index.todoState := Samples.sampleState;
     Index.notes := [Samples.mondayNote];
     Index.currentPage := 1;
     Index.isNoteFormOpen := false;
     Index.editingNote := None |}.

End MoreSamples.

(** ** Shapes the containers keep *)

Module Invariants.
Import JsString.

(** A text as the containers store it: trimmed and not empty. *)
Definition tidy (text : string) : Prop :=
  trim text = text /\ text <> EmptyString.

Definition todosTidy (todos : list Todos.Todo) : Prop :=
  Forall (fun todo => tidy (Todos.text todo)) todos.

Definition notesTidy (notes : list Notes.Note) : Prop :=
  Forall (fun note => tidy (Notes.content note)) notes.

End Invariants.

(** * Properties *)

(** ** Pagination *)

Module PaginationFacts.
Import Pagination.

Section WithItems.

Context {T : Type}.
Implicit Types (v : view (T:=T)) (es : list (event (T:=T))).

(** [Math.ceil] of a quotient of integers, in integer terms. *)
Lemma Qceiling_div (n p : Z) :
  0 < p -> Qceiling (inject_Z n / inject_Z p) = - ((- n) / p).
Proof.
  intros Hp. destruct p as [|q|q]; try lia.
  unfold Qceiling, Qfloor, Qdiv, Qmult, Qinv, Qopp, inject_Z. simpl.
  rewrite Z.mul_1_r. reflexivity.
Qed.

Lemma totalPages_ceiling ps v :
  0 < ps ->
  (totalPages ps v - 1) * ps < Z.of_nat (length (allItems v))
    <= totalPages ps v * ps.
Proof.
  intros Hp. unfold totalPages. rewrite Qceiling_div by assumption.
  set (n := Z.of_nat (length (allItems v))).
  pose proof (Z.div_mod (- n) ps ltac:(lia)) as Hdm.
  pose proof (Z.mod_pos_bound (- n) ps Hp) as Hb.
  nia.
Qed.

Lemma totalPages_nonneg ps v : 0 < ps -> 0 <= totalPages ps v.
Proof.
  intros Hp. pose proof (totalPages_ceiling ps v Hp). nia.
Qed.

Lemma totalPages_pos ps v :
  0 < ps -> allItems v <> [] -> 1 <= totalPages ps v.
Proof.
  intros Hp Hne. pose proof (totalPages_ceiling ps v Hp) as [_ H].
  destruct (allItems v) as [|x l]; [congruence|].
  simpl length in H. nia.
Qed.

Lemma totalPages_step ps v e :
  match e with
  | Rerender _ => True
  | _ => totalPages ps (step ps v e) = totalPages ps v
  end.
Proof. destruct e; trivial. Qed.

(** The page number as the actions leave it. *)
Lemma loadMore_page ps v :
  currentPage (loadMore ps v) =
    if currentPage v + 1 <=? totalPages ps v
    then currentPage v + 1 else currentPage v.
Proof. reflexivity. Qed.

Lemma showLess_page v :
  currentPage (showLess v) = Z.max 1 (currentPage v - 1).
Proof.
  unfold showLess, setCurrentPage. simpl.
  destruct (Z.geb_spec (currentPage v - 1) 1); lia.
Qed.

Lemma step_page_lower ps v e :
  1 <= currentPage v -> 1 <= currentPage (step ps v e).
Proof.
  intros H. destruct e; cbn [step]; try (simpl; lia).
  - rewrite loadMore_page. destruct (_ <=? _); lia.
  - rewrite showLess_page. lia.
Qed.

Lemma step_page_upper ps v e :
  totalPages ps v <= totalPages ps (step ps v e) ->
  currentPage v <= Z.max 1 (totalPages ps v) ->
  currentPage (step ps v e) <= Z.max 1 (totalPages ps (step ps v e)).
Proof.
  intros Hgrow H. destruct e; cbn [step] in *.
  - change (totalPages ps (loadMore ps v)) with (totalPages ps v).
    rewrite loadMore_page.
    destruct (Z.leb_spec (currentPage v + 1) (totalPages ps v)); lia.
  - change (totalPages ps (showLess v)) with (totalPages ps v).
    rewrite showLess_page. lia.
  - simpl. lia.
  - simpl currentPage. lia.
Qed.

Lemma run_page_lower ps es : forall v,
  1 <= currentPage v -> 1 <= currentPage (run ps v es).
Proof.
  induction es as [|e es IH]; intros v H; simpl; [assumption|].
  apply IH, step_page_lower, H.
Qed.

Lemma run_page_upper ps es : forall v,
  neverShrinks ps v es = true ->
  currentPage v <= Z.max 1 (totalPages ps v) ->
  currentPage (run ps v es) <= Z.max 1 (totalPages ps (run ps v es)).
Proof.
  induction es as [|e es IH]; intros v Hs H; simpl; [assumption|].
  simpl in Hs. apply andb_prop in Hs as [Hle Hs].
  apply Z.leb_le in Hle.
  apply IH; [assumption|]. apply step_page_upper; assumption.
Qed.

(** C1 (as amended). In every state reachable from a mounted view the
    page number is at least 1.  It is at most the number of pages,
    [ceil(totalItems / pageSize)], or 1 when that number is 0, as long as
    no render has handed in a source with fewer pages than the one
    before; on a source that is not empty this is the bound of the
    specification. *)
Theorem page_within_bounds ps (items : list T) es (Hps : 0 < ps) :
  let v := run ps (mount items) es in
  1 <= currentPage v /\
  (neverShrinks ps (mount items) es = true ->
     currentPage v <= Z.max 1 (totalPages ps v) /\
     (allItems v <> [] -> currentPage v <= totalPages ps v)).
Proof.
  intros v. split.
  - apply run_page_lower. simpl. lia.
  - intros Hs.
    assert (currentPage v <= Z.max 1 (totalPages ps v)) as Hup.
    { apply run_page_upper; [assumption|]. simpl. lia. }
    split; [assumption|].
    intros Hne. pose proof (totalPages_pos ps v Hps Hne). lia.
Qed.

Lemma slice0_prefix (l : list T) e :
  0 <= e ->
  slice0 l e = firstn (Z.to_nat (Z.min e (Z.of_nat (length l)))) l.
Proof.
  intros He. unfold slice0. destruct (Z.ltb_spec e 0); [lia|reflexivity].
Qed.

Lemma displayedItems_prefix ps v :
  0 <= currentPage v * ps ->
  displayedItems ps v =
    firstn (Z.to_nat (Z.min (currentPage v * ps) (Z.of_nat (length (allItems v)))))
           (allItems v).
Proof. intros H. unfold displayedItems. apply slice0_prefix, H. Qed.

Lemma displayedItems_length ps v :
  0 <= currentPage v * ps ->
  Z.of_nat (length (displayedItems ps v)) =
    Z.min (currentPage v * ps) (Z.of_nat (length (allItems v))).
Proof.
  intros H. rewrite displayedItems_prefix by assumption.
  rewrite length_firstn. lia.
Qed.

Lemma hasNextPage_lt ps v :
  hasNextPage ps v = true <-> currentPage v < totalPages ps v.
Proof. unfold hasNextPage. apply Z.ltb_lt. Qed.

Lemma totalPages_13_by_5 (l : list T) p :
  length l = 13%nat -> totalPages 5 {| allItems := l; currentPage := p |} = 3.
Proof. intros H. unfold totalPages. simpl allItems. rewrite H. reflexivity. Qed.

(** C2. In every reachable state, for a positive page size, the visible
    window is the prefix of the source of length
    [min (currentPage * pageSize) sourceLength], [totalPages] is the
    ceiling of [sourceLength / pageSize] (the least [k] with
    [sourceLength <= k * pageSize]), and [hasNextPage] holds exactly when
    [currentPage < totalPages].  For every source of length 13 and page
    size 5 the pages 1, 2, 3 show 5, 10, 13 items, [hasNextPage] is true
    on pages 1 and 2 and false on page 3, [loadMore] on page 3 stays on
    page 3 and [showLess] on page 1 stays on page 1. *)
Theorem pagination_arithmetic ps (items : list T) es (Hps : 0 < ps) :
  let v := run ps (mount items) es in
  let len := Z.of_nat (length (allItems v)) in
  (displayedItems ps v =
     firstn (Z.to_nat (Z.min (currentPage v * ps) len)) (allItems v) /\
   Z.of_nat (length (displayedItems ps v)) = Z.min (currentPage v * ps) len /\
   ((totalPages ps v - 1) * ps < len <= totalPages ps v * ps) /\
   (hasNextPage ps v = true <-> currentPage v < totalPages ps v) /\
   remainingItems ps v = len - Z.min (currentPage v * ps) len) /\
  (forall l : list T, length l = 13%nat ->
     let page p := {| allItems := l; currentPage := p |} in
     (length (displayedItems 5 (page 1)) = 5%nat /\
      length (displayedItems 5 (page 2)) = 10%nat /\
      length (displayedItems 5 (page 3)) = 13%nat) /\
     (hasNextPage 5 (page 1) = true /\
      hasNextPage 5 (page 2) = true /\
      hasNextPage 5 (page 3) = false) /\
     run 5 (mount l) [LoadMore; LoadMore] = page 3 /\
     loadMore 5 (page 3) = page 3 /\
     showLess (page 1) = page 1).
Proof.
  intros v len.
  assert (1 <= currentPage v) as Hlo.
  { apply run_page_lower. simpl. lia. }
  assert (0 <= currentPage v * ps) as Hnn by nia.
  split.
  - split; [apply displayedItems_prefix, Hnn|].
    split; [apply displayedItems_length, Hnn|].
    split; [apply totalPages_ceiling, Hps|].
    split; [apply hasNextPage_lt|].
    unfold remainingItems. rewrite displayedItems_length by assumption.
    reflexivity.
  - intros l Hl page.
    assert (forall p, 1 <= p ->
              length (displayedItems 5 (page p)) = Z.to_nat (Z.min (p * 5) 13))
      as Hlen.
    { intros p Hp.
      pose proof (displayedItems_length 5 (page p)) as H.
      simpl currentPage in H. simpl allItems in H. rewrite Hl in H. lia. }
    assert (forall p, hasNextPage 5 (page p) = (p <? 3)) as Hnext.
    { intros p. unfold hasNextPage. unfold page at 2.
      rewrite totalPages_13_by_5 by assumption. reflexivity. }
    split; [|split; [|split; [|split]]].
    + rewrite !Hlen by lia. repeat split; reflexivity.
    + rewrite !Hnext. repeat split; reflexivity.
    + unfold run, mount. cbn [fold_left step].
      unfold loadMore at 2. unfold setCurrentPage. cbn [currentPage allItems].
      rewrite totalPages_13_by_5 by assumption. cbn.
      unfold loadMore, setCurrentPage. cbn [currentPage allItems].
      rewrite totalPages_13_by_5 by assumption. reflexivity.
    + unfold loadMore, setCurrentPage, page. cbn [currentPage allItems].
      rewrite totalPages_13_by_5 by assumption. reflexivity.
    + reflexivity.
Qed.

End WithItems.

Lemma pagination_arithmetic_witness :
  let v := run 5 (mount (seq 0 13)) [LoadMore; ShowLess; LoadMore] in
  displayedItems 5 v = seq 0 10 /\
  totalPages 5 v = 3 /\ hasNextPage 5 v = true /\ remainingItems 5 v = 3.
Proof.
  intros v.
  destruct (pagination_arithmetic 5 (seq 0 13) [LoadMore; ShowLess; LoadMore]
              ltac:(lia)) as [(Hwin & _ & _ & Hnext & Hrem) _].
  split; [exact Hwin|]. split; [reflexivity|].
  split; [apply Hnext; reflexivity|]. exact Hrem.
Defined.

Lemma page_within_bounds_witness :
  let es := [LoadMore; LoadMore; LoadMore; LoadMore; ShowLess;
             Rerender (seq 0 21); LoadMore; LoadMore] in
  let v := run 5 (mount (seq 0 13)) es in
  currentPage v = 4 /\ totalPages 5 v = 5 /\
  1 <= currentPage v /\ currentPage v <= totalPages 5 v.
Proof.
  intros es v.
  destruct (page_within_bounds 5 (seq 0 13) es ltac:(lia)) as [Hlo Hup].
  destruct (Hup ltac:(reflexivity)) as [_ Hne].
  split; [reflexivity|]. split; [reflexivity|]. split; [exact Hlo|].
  apply Hne. discriminate.
Defined.

(** C1 as the specification states it fails on an empty source: the view
    is mounted on page 1 while the number of pages is 0. *)
Lemma page_above_total_on_empty_source :
  let v := run 5 (mount (@nil nat)) [] in
  currentPage v = 1 /\ totalPages 5 v = 0 /\
  ~ (1 <= currentPage v <= totalPages 5 v).
Proof. vm_compute. repeat split; try reflexivity. intros [_ H]. apply H. reflexivity. Qed.

(** It also fails after the source shrinks: the page number is kept. *)
Example page_above_total_after_shrink :
  let v := run 5 (mount (seq 0 13)) [LoadMore; LoadMore; Rerender (seq 0 3)] in
  currentPage v = 3 /\ totalPages 5 v = 1.
Proof. vm_compute. split; reflexivity. Qed.

End PaginationFacts.

(** ** Selections *)

Module SelectsFacts.

Section WithPredicate.

Context {A : Type} (P : A -> Prop).

Lemma Selects_filter (p : A -> bool) (l : list A) :
  (forall x, p x = true <-> P x) -> Selects P l (List.filter p l).
Proof.
  intros Hp. induction l as [|x l IH]; simpl; [constructor|].
  destruct (p x) eqn:Hx.
  - apply Selects_keep; [now apply Hp|exact IH].
  - apply Selects_drop; [|exact IH]. intros HP. apply Hp in HP. congruence.
Qed.

Lemma Selects_sublist (l r : list A) : Selects P l r -> sublist r l.
Proof. induction 1; now constructor. Qed.

Lemma Selects_In (l r : list A) :
  Selects P l r -> forall x, In x r <-> In x l /\ P x.
Proof.
  induction 1 as [|y l r Hy _ IH|y l r Hy _ IH]; intros x; simpl.
  - tauto.
  - rewrite IH. split; [intros [<-|[? ?]]; tauto|tauto].
  - rewrite IH. split; [tauto|]. intros [[<-|?] ?]; tauto.
Qed.

Lemma Selects_all (l : list A) : (forall x, P x) -> Selects P l l.
Proof. intros HP. induction l; constructor; auto. Qed.

(** A list has one selection only. *)
Lemma Selects_unique (l r r' : list A) :
  Selects P l r -> Selects P l r' -> r = r'.
Proof.
  intros H. revert r'. induction H as [|y l r Hy _ IH|y l r Hy _ IH];
    intros r' H'; inversion H'; subst; try contradiction;
    [reflexivity|f_equal|]; now apply IH.
Qed.

End WithPredicate.

Lemma Selects_iff {A} (P Q : A -> Prop) (l r : list A) :
  (forall x, P x <-> Q x) -> Selects P l r -> Selects Q l r.
Proof.
  intros HPQ. induction 1; constructor; auto; try now apply HPQ.
  intros HQ. now apply HPQ in HQ.
Qed.

Lemma filter_filter_and {A} (p q : A -> bool) (l : list A) :
  List.filter q (List.filter p l) = List.filter (fun x => p x && q x) l.
Proof.
  induction l as [|x l IH]; simpl; [reflexivity|].
  destruct (p x); simpl; [|exact IH]. destruct (q x); now rewrite IH.
Qed.

End SelectsFacts.

(** ** Strings *)

Module JsStringFacts.
Import JsString.
#[local] Open Scope string_scope.
#[local] Arguments String.append !_ _ / : simpl nomatch.

Lemma append_nil_r (s : string) : s ++ "" = s.
Proof. induction s as [|c s IH]; simpl; [reflexivity|]. now rewrite IH. Qed.

Lemma append_assoc (a b c : string) : (a ++ b) ++ c = a ++ (b ++ c).
Proof. induction a as [|x a IH]; simpl; [reflexivity|]. now rewrite IH. Qed.

Lemma prefix_app (q s : string) :
  String.prefix q s = true <-> exists rest, s = q ++ rest.
Proof.
  revert s. induction q as [|c q IH]; intros s.
  - split; [intros _; now exists s|intros _; now destruct s].
  - destruct s as [|d s]; simpl.
    + split; [discriminate|]. intros [rest Hrest]. discriminate.
    + destruct (ascii_dec c d) as [->|Hne].
      * rewrite IH. split.
        -- intros [rest ->]. now exists rest.
        -- intros [rest Hrest]. injection Hrest as ->. now exists rest.
      * split; [discriminate|]. intros [rest Hrest]. congruence.
Qed.

Lemma includes_unfold (s q : string) :
  includes s q =
    if String.prefix q s then true
    else match s with
         | EmptyString => false
         | String _ s' => includes s' q
         end.
Proof. destruct s; reflexivity. Qed.

(** [includes] finds exactly the occurrences of the search string. *)
Lemma includes_occurs (s q : string) :
  includes s q = true <-> exists before after, s = before ++ q ++ after.
Proof.
  induction s as [|c s IH]; rewrite includes_unfold;
    destruct (String.prefix q _) eqn:Hp.
  - split; [intros _|reflexivity].
    apply prefix_app in Hp as [rest Hrest]. now exists "", rest.
  - split; [discriminate|]. intros (before & after & Heq).
    destruct before; [|discriminate]. simpl in Heq.
    assert (String.prefix q "" = true) by (apply prefix_app; eauto).
    congruence.
  - split; [intros _|reflexivity].
    apply prefix_app in Hp as [rest Hrest]. now exists "", rest.
  - rewrite IH. split.
    + intros (before & after & ->). now exists (String c before), after.
    + intros (before & after & Heq). destruct before as [|d before].
      * simpl in Heq.
        assert (String.prefix q (String c s) = true)
          by (apply prefix_app; eauto).
        congruence.
      * simpl in Heq. injection Heq as -> ->. eauto.
Qed.

Lemma toLowerCase_app (a b : string) :
  toLowerCase (a ++ b) = toLowerCase a ++ toLowerCase b.
Proof. induction a as [|c a IH]; simpl; [reflexivity|]. now rewrite IH. Qed.

(** A split of the lower-cased string comes from a split of the string. *)
Lemma toLowerCase_split (s x y : string) :
  toLowerCase s = x ++ y ->
  exists a b, s = a ++ b /\ toLowerCase a = x /\ toLowerCase b = y.
Proof.
  revert s. induction x as [|c x IH]; intros s Heq.
  - exists "", s. auto.
  - destruct s as [|d s]; [discriminate|]. simpl in Heq.
    injection Heq as Hc Hrest. apply IH in Hrest as (a & b & -> & <- & <-).
    exists (String d a), b. simpl. now rewrite Hc.
Qed.

Lemma toLowerCaseUnit_idem (c : ascii) :
  toLowerCaseUnit (toLowerCaseUnit c) = toLowerCaseUnit c.
Proof. destruct c as [[] [] [] [] [] [] [] []]; reflexivity. Qed.

Lemma toLowerCase_idem (s : string) :
  toLowerCase (toLowerCase s) = toLowerCase s.
Proof.
  induction s as [|c s IH]; simpl; [reflexivity|].
  now rewrite toLowerCaseUnit_idem, IH.
Qed.

(** Searching the lower-cased needle in the lower-cased text is searching
    the needle up to case. *)
Lemma includes_toLowerCase (hay needle : string) :
  includes (toLowerCase hay) (toLowerCase needle) = true <->
  containsIgnoringCase hay needle.
Proof.
  rewrite includes_occurs. unfold containsIgnoringCase. split.
  - intros (x & z & Heq).
    apply toLowerCase_split in Heq as (a & rest & -> & <- & Hrest).
    apply toLowerCase_split in Hrest as (w & b & -> & Hw & <-).
    now exists a, w, b.
  - intros (a & w & b & -> & Hw).
    exists (toLowerCase a), (toLowerCase b).
    now rewrite !toLowerCase_app, Hw.
Qed.

End JsStringFacts.

Module TrimFacts.
Import JsString JsStringFacts.
#[local] Open Scope string_scope.

Lemma trimEnd_empty (s : string) :
  trimEnd s = "" <-> whiteSpaceOnly s = true.
Proof.
  induction s as [|c s IH]; simpl; [tauto|].
  destruct (trimEnd s) eqn:Ht.
  - destruct (isWhiteSpace c); simpl.
    + rewrite <- IH. tauto.
    + split; discriminate.
  - split; [discriminate|]. intros H. apply andb_prop in H as [_ H].
    apply IH in H. discriminate.
Qed.

Lemma whiteSpaceOnly_trimStart (s : string) :
  whiteSpaceOnly (trimStart s) = whiteSpaceOnly s.
Proof.
  induction s as [|c s IH]; simpl; [reflexivity|].
  destruct (isWhiteSpace c) eqn:Hc; simpl; [assumption|].
  now rewrite Hc.
Qed.

(** [trim] leaves nothing exactly of the strings made of white space. *)
Lemma trim_empty (s : string) :
  trim s = "" <-> whiteSpaceOnly s = true.
Proof. unfold trim. now rewrite trimEnd_empty, whiteSpaceOnly_trimStart. Qed.

Lemma truthy_empty (s : string) : truthy s = false <-> s = "".
Proof. destruct s; simpl; split; congruence. Qed.

Lemma truthy_trim (s : string) :
  truthy (trim s) = negb (whiteSpaceOnly s).
Proof.
  destruct (whiteSpaceOnly s) eqn:Hw; simpl.
  - apply truthy_empty, trim_empty, Hw.
  - destruct (truthy (trim s)) eqn:Ht; [reflexivity|].
    apply truthy_empty, trim_empty in Ht. congruence.
Qed.

Lemma isWhiteSpace_toLowerCaseUnit (c : ascii) :
  isWhiteSpace (toLowerCaseUnit c) = isWhiteSpace c.
Proof. destruct c as [[] [] [] [] [] [] [] []]; reflexivity. Qed.

Lemma trimStart_toLowerCase (s : string) :
  trimStart (toLowerCase s) = toLowerCase (trimStart s).
Proof.
  induction s as [|c s IH]; simpl; [reflexivity|].
  rewrite isWhiteSpace_toLowerCaseUnit.
  destruct (isWhiteSpace c); [assumption|reflexivity].
Qed.

Lemma trimEnd_toLowerCase (s : string) :
  trimEnd (toLowerCase s) = toLowerCase (trimEnd s).
Proof.
  induction s as [|c s IH]; simpl; [reflexivity|].
  rewrite IH, isWhiteSpace_toLowerCaseUnit.
  destruct (trimEnd s); simpl; [|reflexivity].
  destruct (isWhiteSpace c); reflexivity.
Qed.

(** Lower-casing and trimming commute. *)
Lemma trim_toLowerCase (s : string) :
  trim (toLowerCase s) = toLowerCase (trim s).
Proof. unfold trim. now rewrite trimStart_toLowerCase, trimEnd_toLowerCase. Qed.

End TrimFacts.

(** ** Identifiers *)

Module IdFacts.
Import JsString JsStringFacts.
#[local] Open Scope string_scope.
#[local] Arguments String.append !_ _ / : simpl nomatch.

Lemma string_of_uint_digits (d : Decimal.uint) :
  digitsOnly (NilEmpty.string_of_uint d) = true.
Proof. induction d; simpl; auto. Qed.

Lemma ofNumber_digits (n : N) : digitsOnly (ofNumber n) = true.
Proof. apply string_of_uint_digits. Qed.

Lemma ofNumber_inj (a b : N) : ofNumber a = ofNumber b -> a = b.
Proof.
  unfold ofNumber. intros H.
  apply DecimalN.Unsigned.to_uint_inj.
  assert (NilEmpty.uint_of_string (NilEmpty.string_of_uint (N.to_uint a)) =
          NilEmpty.uint_of_string (NilEmpty.string_of_uint (N.to_uint b)))
    as H' by now rewrite H.
  rewrite !NilEmpty.usu in H'. congruence.
Qed.

(** A run of digits followed by a dash is read back without ambiguity. *)
Lemma digits_dash_inj (d1 d2 x y : string) :
  digitsOnly d1 = true -> digitsOnly d2 = true ->
  d1 ++ "-" ++ x = d2 ++ "-" ++ y -> d1 = d2 /\ x = y.
Proof.
  revert d2. induction d1 as [|c d1 IH]; intros [|c2 d2] H1 H2 Heq; simpl in *.
  - injection Heq as ->. auto.
  - injection Heq as <- _. discriminate.
  - injection Heq as -> _. discriminate.
  - injection Heq as -> Heq.
    apply andb_prop in H1 as [_ H1]. apply andb_prop in H2 as [_ H2].
    destruct (IH d2 H1 H2 Heq) as [-> ->]. auto.
Qed.

(** Two identifiers are equal only when both the clock reading and the
    random suffix are. *)
Lemma generateId_inj (e1 e2 : Env) :
  Todos.generateId e1 = Todos.generateId e2 ->
  dateNow e1 = dateNow e2 /\
  substr (randomBase36 e1) 2 9 = substr (randomBase36 e2) 2 9.
Proof.
  unfold Todos.generateId. intros H.
  apply digits_dash_inj in H as [Hn Hr]; try apply ofNumber_digits.
  split; [apply ofNumber_inj, Hn|exact Hr].
Qed.

End IdFacts.

(** ** To-do state container *)

Module TodosFacts.
Import JsString JsStringFacts TrimFacts IdFacts Effect Todos Samples.
#[local] Open Scope string_scope.

Implicit Types (s : TodoState) (l : list Todo) (todo : Todo).

Lemma filter_sublist {A} (p : A -> bool) (l : list A) :
  sublist (List.filter p l) l.
Proof.
  induction l as [|x l IH]; simpl; [constructor|].
  destruct (p x); now constructor.
Qed.

Lemma state_eta s :
  {| todos := todos s; filter := filter s; searchQuery := searchQuery s |} = s.
Proof. now destruct s. Qed.

(** The updater of [toggleTodo], [editTodo] and the like changes nothing
    when no record carries the identifier. *)
Lemma map_absent {A} (key : A -> string) (f : A -> A) (id' : string) (l : list A) :
  ~ In id' (map key l) ->
  map (fun x => if String.eqb (key x) id' then f x else x) l = l.
Proof.
  induction l as [|x l IH]; simpl; [reflexivity|]. intros Hn.
  destruct (String.eqb_spec (key x) id') as [Heq|_]; [tauto|].
  rewrite IH; [reflexivity|tauto].
Qed.

Lemma filter_absent {A} (key : A -> string) (id' : string) (l : list A) :
  ~ In id' (map key l) ->
  List.filter (fun x => negb (String.eqb (key x) id')) l = l.
Proof.
  induction l as [|x l IH]; simpl; [reflexivity|]. intros Hn.
  destruct (String.eqb_spec (key x) id') as [Heq|_]; [tauto|]. simpl.
  rewrite IH; [reflexivity|tauto].
Qed.

Lemma addTodo_empty env text s :
  trim text = "" -> addTodo env text s = (Returned tt, s).
Proof. intros H. unfold addTodo. now rewrite H. Qed.

Lemma addTodo_nonempty env text s :
  trim text <> "" ->
  addTodo env text s =
    (Returned tt,
     {| todos := {| id := generateId env;
                    text := trim text;
                    completed := false;
                    createdAt := isoNow env;
                    updatedAt := isoNow env |} :: todos s;
        filter := filter s;
        searchQuery := searchQuery s |}).
Proof.
  intros H. unfold addTodo.
  destruct (truthy (trim text)) eqn:Ht; [reflexivity|].
  apply truthy_empty in Ht. contradiction.
Qed.

(** C3 (as amended). [addTodo] trims the text; when nothing is left the
    state is unchanged; otherwise exactly one record is put in front of
    the list, with the trimmed text, [completed = false], both timestamps
    the current time, and the identifier [generateId] builds from the
    clock and the random suffix.  That identifier differs from the one of
    every record whose identifier was built from another clock reading or
    another suffix; the list itself is not consulted. *)
Theorem addTodo_prepends env text s :
  let s' := stateAfter (addTodo env text) s in
  completion (addTodo env text) s = Returned tt /\
  filter s' = filter s /\ searchQuery s' = searchQuery s /\
  (trim text = "" -> s' = s) /\
  (trim text <> "" ->
     exists newTodo,
       todos s' = newTodo :: todos s /\
       Todos.text newTodo = trim text /\
       completed newTodo = false /\
       createdAt newTodo = isoNow env /\
       updatedAt newTodo = isoNow env /\
       id newTodo = generateId env /\
       forall old env0,
         In old (todos s) ->
         id old = generateId env0 ->
         dateNow env0 <> dateNow env \/
         substr (randomBase36 env0) 2 9 <> substr (randomBase36 env) 2 9 ->
         id old <> id newTodo).
Proof.
  intros s'. subst s'. unfold completion, stateAfter.
  destruct (string_dec (trim text) "") as [He|Hne].
  - rewrite addTodo_empty by assumption. simpl.
    repeat split; auto. contradiction.
  - rewrite addTodo_nonempty by assumption. simpl.
    repeat split; auto; try contradiction.
    intros _. eexists. repeat split.
    intros old env0 _ Hold Hdiff Heq. simpl in Heq.
    rewrite Hold in Heq. apply generateId_inj in Heq as [Hn Hr].
    destruct Hdiff; contradiction.
Qed.

Lemma addTodo_prepends_witness :
  exists newTodo,
    todos (stateAfter (addTodo laterEnv "  Call the bank ") sampleState)
      = newTodo :: todos sampleState /\
    Todos.text newTodo = "Call the bank" /\
    id newTodo = "1737331260000-5f1m2c8wq" /\
    Forall (fun old => id old <> id newTodo) (todos sampleState).
Proof.
  destruct (addTodo_prepends laterEnv "  Call the bank " sampleState)
    as (_ & _ & _ & _ & H).
  destruct H as (newTodo & Hl & Ht & _ & _ & _ & Hid & Hfresh);
    [discriminate|].
  exists newTodo. split; [exact Hl|]. split; [exact Ht|]. split; [exact Hid|].
  repeat constructor.
  - apply (Hfresh _ sampleEnv); [simpl; auto|reflexivity|left; discriminate].
  - apply (Hfresh _ earlierEnv);
      [simpl; auto|reflexivity|left; discriminate].
Defined.

(** C3 as the specification states it fails when the clock and the random
    generator repeat a pair a stored record was made from: the new record
    gets the identifier of that record. *)
Lemma addTodo_repeats_identifier :
  let s' := stateAfter (addTodo sampleEnv "Call the bank") sampleState in
  trim "Call the bank" <> "" /\
  exists newTodo old,
    todos s' = newTodo :: todos sampleState /\
    In old (todos sampleState) /\
    id old = id newTodo.
Proof.
  split; [discriminate|].
  eexists _, _. split; [reflexivity|]. split; [left; reflexivity|reflexivity].
Qed.

Lemma toggle_flag_twice env1 env2 id' l :
  map completed
      (map (fun todo =>
              if String.eqb (id todo) id'
              then {| id := id todo; text := text todo;
                      completed := negb (completed todo);
                      createdAt := createdAt todo;
                      updatedAt := isoNow env2 |}
              else todo)
         (map (fun todo =>
                 if String.eqb (id todo) id'
                 then {| id := id todo; text := text todo;
                         completed := negb (completed todo);
                         createdAt := createdAt todo;
                         updatedAt := isoNow env1 |}
                 else todo) l))
  = map completed l.
Proof.
  induction l as [|todo l IH]; simpl; [reflexivity|]. rewrite IH. f_equal.
  destruct (String.eqb (id todo) id') eqn:He; simpl; rewrite He; simpl;
    [apply negb_involutive|reflexivity].
Qed.

Lemma toggle_keeps {A} (proj : Todo -> A) env id' l :
  (forall todo c u,
      proj {| id := id todo; text := text todo; completed := c;
              createdAt := createdAt todo; updatedAt := u |} = proj todo) ->
  map proj
      (map (fun todo =>
              if String.eqb (id todo) id'
              then {| id := id todo; text := text todo;
                      completed := negb (completed todo);
                      createdAt := createdAt todo;
                      updatedAt := isoNow env |}
              else todo) l)
  = map proj l.
Proof.
  intros Hproj. induction l as [|todo l IH]; simpl; [reflexivity|].
  rewrite IH. f_equal. destruct (String.eqb (id todo) id'); auto.
Qed.

(** Two calls on the callbacks of successive renders, each applied to the
    list the other left, bring the [completed] flag of every record back
    to its value (identifiers, texts and creation times never move). *)
Lemma toggleTodo_twice_across_renders env1 env2 id' s :
  let s1 := stateAfter (toggleTodo env1 id') s in
  let s2 := stateAfter (toggleTodo env2 id') s1 in
  map completed (todos s2) = map completed (todos s) /\
  map id (todos s2) = map id (todos s) /\
  map text (todos s2) = map text (todos s) /\
  map createdAt (todos s2) = map createdAt (todos s) /\
  length (todos s2) = length (todos s).
Proof.
  intros s1 s2. subst s1 s2.
  unfold stateAfter, toggleTodo, toggleTodoOf, setTodosOf, update.
  cbn [snd todos].
  split; [apply toggle_flag_twice|].
  split; [now rewrite !(toggle_keeps id)|].
  split; [now rewrite !(toggle_keeps text)|].
  split; [now rewrite !(toggle_keeps createdAt)|].
  now rewrite !length_map.
Qed.

(** The flags one toggle leaves do not depend on the clock. *)
Lemma toggle_flag_clock env1 env2 id' l :
  map completed
    (map (fun todo =>
            if String.eqb (id todo) id'
            then {| id := id todo; text := text todo;
                    completed := negb (completed todo);
                    createdAt := createdAt todo; updatedAt := isoNow env2 |}
            else todo) l)
  = map completed
      (map (fun todo =>
              if String.eqb (id todo) id'
              then {| id := id todo; text := text todo;
                      completed := negb (completed todo);
                      createdAt := createdAt todo; updatedAt := isoNow env1 |}
              else todo) l).
Proof.
  induction l as [|todo l IH]; simpl; [reflexivity|].
  rewrite IH. f_equal. now destruct (String.eqb (id todo) id').
Qed.

Lemma toggle_flag_pointwise env id' l :
  Forall2 (fun before after =>
             completed after =
               if String.eqb (id before) id'
               then negb (completed before) else completed before)
    l
    (map (fun todo =>
            if String.eqb (id todo) id'
            then {| id := id todo; text := text todo;
                    completed := negb (completed todo);
                    createdAt := createdAt todo; updatedAt := isoNow env |}
            else todo) l).
Proof.
  induction l as [|todo l IH]; simpl; constructor; [|exact IH].
  now destruct (String.eqb (id todo) id').
Qed.

Lemma toggle_flag_moves env id' l :
  In id' (map id l) ->
  map completed
    (map (fun todo =>
            if String.eqb (id todo) id'
            then {| id := id todo; text := text todo;
                    completed := negb (completed todo);
                    createdAt := createdAt todo; updatedAt := isoNow env |}
            else todo) l)
  <> map completed l.
Proof.
  induction l as [|todo l IH]; simpl; [intros []|].
  intros [Hid|Hin] Heq; injection Heq as Hhead Htail.
  - rewrite Hid, String.eqb_refl in Hhead. simpl in Hhead.
    now destruct (completed todo).
  - now apply IH.
Qed.

(** C4 (defect of the code). Two calls of [toggleTodo(id)] on the
    callback of one render: the second call starts again from the list
    that render saw, so the flags are those one toggle leaves; the flag of
    every record with the identifier ends inverted, and where the list
    holds the identifier the flags are not back to what they were. *)
Theorem toggleTodo_twice_on_one_render env1 env2 id' s :
  let rendered := todos s in
  let s1 := stateAfter (toggleTodoOf rendered env1 id') s in
  let s2 := stateAfter (toggleTodoOf rendered env2 id') s1 in
  map completed (todos s2) = map completed (todos s1) /\
  Forall2 (fun before after =>
             completed after =
               if String.eqb (id before) id'
               then negb (completed before) else completed before)
          (todos s) (todos s2) /\
  (In id' (map id (todos s)) ->
   map completed (todos s2) <> map completed (todos s)).
Proof.
  intros rendered s1 s2. subst rendered s1 s2.
  unfold stateAfter, toggleTodoOf, setTodosOf, update. cbn [snd todos].
  split; [apply toggle_flag_clock|].
  split; [apply toggle_flag_pointwise|].
  apply toggle_flag_moves.
Qed.

Lemma toggleTodo_twice_on_one_render_witness :
  let rendered := todos sampleState in
  let toggle env := toggleTodoOf rendered env "1737244800000-b7c2m4n8p" in
  let twice := stateAfter (toggle laterEnv) (stateAfter (toggle sampleEnv) sampleState) in
  map completed (todos sampleState) = [true; false] /\
  map completed (todos twice) = [true; true] /\
  map completed (todos twice) <> map completed (todos sampleState).
Proof.
  intros rendered toggle twice.
  split; [reflexivity|]. split; [reflexivity|].
  apply (toggleTodo_twice_on_one_render sampleEnv laterEnv
           "1737244800000-b7c2m4n8p" sampleState).
  simpl. auto.
Defined.

(** C5. After [clearCompleted] no record is completed; the records left
    are exactly the records of the list that were not completed, each as
    it was, all of them, in the order they had. *)
Theorem clearCompleted_keeps_active s :
  let s' := stateAfter clearCompleted s in
  completion clearCompleted s = Returned tt /\
  Selects (fun todo => completed todo = false) (todos s) (todos s') /\
  Forall (fun todo => completed todo = false) (todos s') /\
  (forall todo, In todo (todos s') <-> In todo (todos s) /\ completed todo = false) /\
  sublist (todos s') (todos s) /\
  length (todos s') = Stats.active (stats s) /\
  Stats.completed (stats s') = 0%nat /\
  filter s' = filter s /\ searchQuery s' = searchQuery s.
Proof.
  intros s'. subst s'. unfold stateAfter, completion, clearCompleted, setTodos, setTodosOf, update.
  cbn [fst snd todos filter searchQuery].
  split; [reflexivity|]. split; [|split; [|split; [|split; [|split; [|split]]]]].
  - apply SelectsFacts.Selects_filter. intros todo. apply negb_true_iff.
  - apply List.Forall_forall. intros todo Hin.
    apply filter_In in Hin as [_ H]. now apply negb_true_iff.
  - intros todo. rewrite filter_In, negb_true_iff. tauto.
  - apply filter_sublist.
  - reflexivity.
  - unfold stats. cbn [Stats.completed todos].
    induction (todos s) as [|todo l IH]; [reflexivity|]. simpl.
    destruct (completed todo) eqn:Hc; simpl; [assumption|].
    rewrite Hc. assumption.
  - auto.
Qed.

Lemma length_filter_count (l : list Todo) (b : bool) :
  length (List.filter (fun todo => Bool.eqb (completed todo) b) l) =
  count_occ Bool.bool_dec (map completed l) b.
Proof.
  induction l as [|todo l IH]; simpl; [reflexivity|].
  destruct (completed todo), b, (Bool.bool_dec _ _) as [E|E]; simpl;
    try congruence; try discriminate.
Qed.

Lemma count_flags (flags : list bool) :
  (count_occ Bool.bool_dec flags false + count_occ Bool.bool_dec flags true)%nat
  = length flags.
Proof.
  induction flags as [|b flags IH]; [reflexivity|].
  destruct b; simpl; lia.
Qed.

(** C6. The filtered view holds exactly the records of the list that
    pass the selector and whose text contains the search query up to
    case, in the order of the list; the counts are those of the whole
    list, whatever the selector and the query. *)
Theorem filteredTodos_and_stats s :
  Selects (fun todo => passes (filter s) todo /\
                       containsIgnoringCase (text todo) (searchQuery s))
          (todos s) (filteredTodos s) /\
  (forall todo,
      In todo (filteredTodos s) <->
      In todo (todos s) /\ passes (filter s) todo /\
      containsIgnoringCase (text todo) (searchQuery s)) /\
  sublist (filteredTodos s) (todos s) /\
  (Stats.total (stats s) = length (todos s) /\
   Stats.active (stats s) = count_occ Bool.bool_dec (map completed (todos s)) false /\
   Stats.completed (stats s) = count_occ Bool.bool_dec (map completed (todos s)) true /\
   Stats.total (stats s) = (Stats.active (stats s) + Stats.completed (stats s))%nat) /\
  (forall f q,
      stats (stateAfter (setFilter f) s) = stats s /\
      stats (stateAfter (setSearchQuery q) s) = stats s /\
      stats {| todos := todos s; filter := f; searchQuery := q |} = stats s).
Proof.
  assert (Stats.active (stats s) =
            count_occ Bool.bool_dec (map completed (todos s)) false) as Hact.
  { rewrite <- length_filter_count. reflexivity. }
  assert (Stats.completed (stats s) =
            count_occ Bool.bool_dec (map completed (todos s)) true) as Hcom.
  { rewrite <- length_filter_count. unfold stats. cbn [Stats.completed].
    f_equal. apply filter_ext. intros todo. now destruct (completed todo). }
  split; [|split; [|split; [|split]]].
  - unfold filteredTodos. rewrite SelectsFacts.filter_filter_and.
    apply SelectsFacts.Selects_filter. intros todo.
    rewrite andb_true_iff, includes_toLowerCase. unfold passes.
    destruct (filter s); rewrite ?negb_true_iff; tauto.
  - intros todo. unfold filteredTodos. rewrite !filter_In.
    rewrite includes_toLowerCase. unfold passes.
    destruct (filter s); rewrite ?negb_true_iff; tauto.
  - unfold filteredTodos. etransitivity; apply filter_sublist.
  - split; [reflexivity|]. split; [exact Hact|]. split; [exact Hcom|].
    rewrite Hact, Hcom. unfold stats. cbn [Stats.total].
    now rewrite count_flags, length_map.
  - intros f q. repeat split.
Qed.

Lemma missing_identifier_todos env id' newText s :
  ~ In id' (map id (todos s)) ->
  toggleTodo env id' s = (Returned tt, s) /\
  editTodo env id' newText s = (Returned tt, s) /\
  deleteTodo id' s = (Returned tt, s).
Proof.
  intros Habs. unfold toggleTodo, toggleTodoOf, editTodo, deleteTodo, setTodos, setTodosOf, update, ret.
  cbv zeta. destruct (negb _); cbv beta;
    rewrite ?(map_absent id), (filter_absent id) by assumption;
    rewrite state_eta; auto.
Qed.

End TodosFacts.

(** ** Validation policy of the two containers *)

Module PolicyFacts.
Import JsString JsStringFacts TrimFacts Effect Todos TodosFacts.
#[local] Open Scope string_scope.

Lemma addNote_empty env content (notes : list Notes.Note) :
  whiteSpaceOnly content = true ->
  Notes.addNote env content notes = (Thrown Notes.emptyContent, notes).
Proof.
  intros Hw. unfold Notes.addNote. now rewrite truthy_trim, Hw.
Qed.

Lemma updateNote_empty env id' content (notes : list Notes.Note) :
  whiteSpaceOnly content = true ->
  Notes.updateNote env id' content notes = (Thrown Notes.emptyContent, notes).
Proof.
  intros Hw. unfold Notes.updateNote. now rewrite truthy_trim, Hw.
Qed.

Lemma updateNote_missing env id' content (notes : list Notes.Note) :
  whiteSpaceOnly content = false ->
  ~ In id' (map Notes.id notes) ->
  Notes.updateNote env id' content notes = (Returned tt, notes).
Proof.
  intros Hw Habs. unfold Notes.updateNote. rewrite truthy_trim, Hw.
  cbn [negb]. unfold Notes.setNotes, Notes.setNotesOf, update.
  now rewrite (map_absent Notes.id) by assumption.
Qed.

(** C7 (as amended). On an input that is empty or white space only,
    [addTodo] returns without a change and without an error, while
    [addNote] and [updateNote] throw and leave the notes as they were.
    On an identifier no record carries, [toggleTodo], [editTodo],
    [deleteTodo], [deleteNote] and [markAsConverted] return without a
    change and without an error, and so does [updateNote] when its
    content is not empty after trimming: [updateNote] checks the content
    before it looks for the identifier. *)
Theorem validation_policy env input id' (s : TodoState) (notes : list Notes.Note) :
  (whiteSpaceOnly input = true ->
     addTodo env input s = (Returned tt, s) /\
     Notes.addNote env input notes = (Thrown Notes.emptyContent, notes) /\
     Notes.updateNote env id' input notes = (Thrown Notes.emptyContent, notes)) /\
  (~ In id' (map id (todos s)) ->
     toggleTodo env id' s = (Returned tt, s) /\
     editTodo env id' input s = (Returned tt, s) /\
     deleteTodo id' s = (Returned tt, s)) /\
  (~ In id' (map Notes.id notes) ->
     Notes.deleteNote id' notes = (Returned tt, notes) /\
     Notes.markAsConverted env id' notes = (Returned tt, notes) /\
     (whiteSpaceOnly input = false ->
        Notes.updateNote env id' input notes = (Returned tt, notes))).
Proof.
  split; [|split].
  - intros Hw. split; [|split].
    + apply addTodo_empty, trim_empty, Hw.
    + apply addNote_empty, Hw.
    + apply updateNote_empty, Hw.
  - apply missing_identifier_todos.
  - intros Habs. split; [|split].
    + unfold Notes.deleteNote, Notes.setNotes, Notes.setNotesOf, update.
      now rewrite (filter_absent Notes.id) by assumption.
    + unfold Notes.markAsConverted, Notes.setNotes, Notes.setNotesOf, update.
      now rewrite (map_absent Notes.id) by assumption.
    + intros Hw. now apply updateNote_missing.
Qed.

Lemma validation_policy_witness :
  addTodo Samples.sampleEnv "   " Samples.sampleState
    = (Returned tt, Samples.sampleState) /\
  Notes.addNote Samples.sampleEnv "   " [Samples.mondayNote]
    = (Thrown Notes.emptyContent, [Samples.mondayNote]) /\
  toggleTodo Samples.sampleEnv "no-such-id" Samples.sampleState
    = (Returned tt, Samples.sampleState) /\
  Notes.updateNote Samples.sampleEnv "no-such-id" "Rapat tim jam 11"
      [Samples.mondayNote]
    = (Returned tt, [Samples.mondayNote]).
Proof.
  pose proof (validation_policy Samples.sampleEnv "   " "no-such-id"
                Samples.sampleState [Samples.mondayNote])
    as (Hempty & Htodo & _).
  pose proof (validation_policy Samples.sampleEnv "Rapat tim jam 11" "no-such-id"
                Samples.sampleState [Samples.mondayNote])
    as (_ & _ & Hnote).
  destruct (Hempty eq_refl) as (Hadd & Hnew & _).
  destruct Htodo as (Htoggle & _).
  { simpl. intros [E|[E|[]]]; discriminate E. }
  destruct Hnote as (_ & _ & Hupdate).
  { simpl. intros [E|[]]; discriminate E. }
  split; [exact Hadd|]. split; [exact Hnew|]. split; [exact Htoggle|].
  apply Hupdate. reflexivity.
Defined.

(** C7 as the specification states it fails for [updateNote]: with a
    content of white space only it throws, also for an identifier that no
    note carries. *)
Lemma updateNote_missing_identifier_throws :
  ~ In "no-such-id" (map Notes.id [Samples.mondayNote]) /\
  whiteSpaceOnly "   " = true /\
  Notes.updateNote Samples.sampleEnv "no-such-id" "   " [Samples.mondayNote]
    = (Thrown Notes.emptyContent, [Samples.mondayNote]) /\
  completion (Notes.updateNote Samples.sampleEnv "no-such-id" "   ")
             [Samples.mondayNote]
    <> Returned tt.
Proof.
  split; [simpl; intros [E|[]]; discriminate E|].
  split; [reflexivity|]. split; [reflexivity|]. discriminate.
Qed.

End PolicyFacts.

(** ** Note search *)

Module NotesSearchFacts.
Import JsString JsStringFacts TrimFacts Notes NotesSearch.
#[local] Open Scope string_scope.
#[local] Open Scope Z_scope.

Lemma digit_lower (c : ascii) x :
  digit c = Some x -> toLowerCaseUnit c = c.
Proof.
  destruct c as [[] [] [] [] [] [] [] []]; vm_compute; congruence.
Qed.

Lemma number2_lower a b x :
  number2 a b = Some x -> toLowerCaseUnit a = a /\ toLowerCaseUnit b = b.
Proof.
  unfold number2. destruct (digit a) eqn:Ha, (digit b) eqn:Hb; try discriminate.
  intros _. split; eapply digit_lower; eassumption.
Qed.

(** A well-formed date has no letter: lower-casing leaves it as it is. *)
Lemma validDate_lower (s : string) :
  validDate s = true -> toLowerCase s = s.
Proof.
  unfold validDate, parseDate. intros H.
  destruct s as [|y1 [|y2 [|y3 [|y4 [|h1 [|m1 [|m2 [|h2 [|d1 [|d2 [|]]]]]]]]]]];
    try (cbv beta iota in H; discriminate H).
  revert H. cbv beta iota. unfold number4.
  destruct (number2 y1 y2) eqn:Hy12; try discriminate.
  destruct (number2 y3 y4) eqn:Hy34; try discriminate.
  destruct (number2 m1 m2) eqn:Hm; try discriminate.
  destruct (number2 d1 d2) eqn:Hd; try discriminate.
  destruct (Ascii.eqb_spec h1 "-") as [->|_]; [|discriminate].
  destruct (Ascii.eqb_spec h2 "-") as [->|_]; [|discriminate].
  intros _.
  apply number2_lower in Hy12 as [E1 E2], Hy34 as [E3 E4],
    Hm as [E5 E6], Hd as [E7 E8].
  cbn [toLowerCase]. rewrite E1, E2, E3, E4, E5, E6, E7, E8. reflexivity.
Qed.

Lemma forallb_range (p : N -> bool) (lo len : nat) (n : N) :
  forallb p (map N.of_nat (seq lo len)) = true ->
  (lo <= N.to_nat n < lo + len)%nat -> p n = true.
Proof.
  intros Hall Hn. rewrite forallb_forall in Hall. apply Hall.
  apply in_map_iff. exists (N.to_nat n). split; [apply N2Nat.id|].
  apply in_seq. exact Hn.
Qed.

Lemma fourDigits_years (n : N) :
  (1000 <= n <= 9999)%N -> fourDigits n = true.
Proof.
  intros Hn. apply (forallb_range fourDigits 1000 (90 * 100)); [|lia].
  vm_compute. reflexivity.
Qed.

Lemma twoDigits_small (n : N) : (n <= 99)%N -> twoDigits n = true.
Proof.
  intros Hn. apply (forallb_range twoDigits 0 100); [|lia].
  vm_compute. reflexivity.
Qed.

(** The date [getTodayDate] writes is the calendar date of the clock. *)
Lemma getTodayDate_parses (env : Env) :
  calendarEnv env = true ->
  parseDate (getTodayDate env) =
    Some (Z.of_N (localYear env), Z.of_N (localMonth env) + 1,
          Z.of_N (localDate env)).
Proof.
  unfold calendarEnv. intros Hc.
  apply andb_prop in Hc as [Hc Hd2]. apply andb_prop in Hc as [Hc Hd1].
  apply andb_prop in Hc as [Hc Hm]. apply andb_prop in Hc as [Hy1 Hy2].
  pose proof Hd2 as Hd2'. pose proof Hd1 as Hd1'. pose proof Hm as Hm'.
  apply Z.leb_le in Hy1, Hy2, Hm, Hd1, Hd2.
  assert (Z.of_N (localDate env) <= 31) as Hd31.
  { revert Hd2. unfold daysInMonth.
    repeat match goal with |- context [if ?b then _ else _] => destruct b end;
      lia. }
  pose proof (fourDigits_years (localYear env) ltac:(lia)) as Hy.
  pose proof (twoDigits_small (localMonth env + 1) ltac:(lia)) as Hmm.
  pose proof (twoDigits_small (localDate env) ltac:(lia)) as Hdd.
  unfold getTodayDate. unfold fourDigits in Hy. unfold twoDigits in Hmm, Hdd.
  destruct (ofNumber (localYear env))
    as [|y1 [|y2 [|y3 [|y4 [|]]]]]; try discriminate Hy.
  destruct (padStart2 (ofNumber (localMonth env + 1)))
    as [|m1 [|m2 [|]]]; try discriminate Hmm.
  destruct (padStart2 (ofNumber (localDate env)))
    as [|d1 [|d2 [|]]]; try discriminate Hdd.
  cbv [String.append parseDate].
  destruct (number4 y1 y2 y3 y4) as [y|]; [|discriminate Hy].
  destruct (number2 m1 m2) as [m|]; [|discriminate Hmm].
  destruct (number2 d1 d2) as [d|]; [|discriminate Hdd].
  apply Z.eqb_eq in Hy, Hmm, Hdd. subst y m d.
  replace (Z.of_N (localMonth env + 1)) with (Z.of_N (localMonth env) + 1)
    in * by lia.
  rewrite Hm', Hd1', Hd2'.
  assert ((1 <=? Z.of_N (localMonth env) + 1) = true) as -> by (apply Z.leb_le; lia).
  reflexivity.
Qed.

Lemma getTodayDate_valid (env : Env) :
  calendarEnv env = true -> validDate (getTodayDate env) = true.
Proof.
  intros Hc. unfold validDate. now rewrite getTodayDate_parses.
Qed.

(** Well-formed dates are an invariant of the note container: every
    operation keeps them, [addNote] under a calendar clock. *)
Lemma validDate_invariant (env : Env) (notes : list Note) (id' content : string) :
  Forall (fun note => validDate (date note) = true) notes ->
  (calendarEnv env = true ->
   Forall (fun note => validDate (date note) = true)
          (Effect.stateAfter (addNote env content) notes)) /\
  Forall (fun note => validDate (date note) = true)
         (Effect.stateAfter (updateNote env id' content) notes) /\
  Forall (fun note => validDate (date note) = true)
         (Effect.stateAfter (deleteNote id') notes) /\
  Forall (fun note => validDate (date note) = true)
         (Effect.stateAfter (markAsConverted env id') notes).
Proof.
  intros Hv.
  assert (forall f : Note -> Note,
             (forall note, date (f note) = date note) ->
             Forall (fun note => validDate (date note) = true)
                    (map (fun note => if String.eqb (id note) id' then f note else note)
                         notes)) as Hmap.
  { intros f Hf. induction Hv as [|note notes Hn _ IH]; simpl; constructor;
      [|exact IH].
    destruct (String.eqb (id note) id'); [now rewrite Hf|exact Hn]. }
  unfold Effect.stateAfter, addNote, updateNote, deleteNote, markAsConverted,
    setNotes, setNotesOf, Effect.update, Effect.bind, Effect.ret, Effect.throw.
  split; [|split; [|split]].
  - intros Hc. destruct (negb _); simpl; [exact Hv|].
    constructor; [apply getTodayDate_valid, Hc|exact Hv].
  - destruct (negb _); simpl; [exact Hv|]. now apply (Hmap (fun note => _)).
  - simpl. apply List.Forall_forall. intros note Hin.
    apply filter_In in Hin as [Hin _].
    rewrite List.Forall_forall in Hv. now apply Hv.
  - simpl. now apply (Hmap (fun note => _)).
Qed.

Lemma weekDay_range day : 0 <= weekDay day < 7.
Proof. unfold weekDay. apply Z.mod_pos_bound. lia. Qed.

Lemma days_total i : 0 <= i < 7 -> exists name, nth_error days (Z.to_nat i) = Some name.
Proof.
  intros Hi.
  assert (i = 0 \/ i = 1 \/ i = 2 \/ i = 3 \/ i = 4 \/ i = 5 \/ i = 6)
    as [->|[->|[->|[->|[->|[->| ->]]]]]] by lia;
    eexists; reflexivity.
Qed.

(** Whatever the zone, [getDayName] has a name for a calendar date. *)
Lemma validDate_dayName zone (s : string) :
  validDate s = true -> exists name, getDayName zone s = Some name.
Proof.
  unfold validDate, getDayName, getDay.
  destruct (parseDate s) as [[[y m] d]|]; [|discriminate].
  intros _. apply days_total, weekDay_range.
Qed.

Lemma keepsDate_valid zone (s : string) :
  keepsDate zone s = true -> validDate s = true.
Proof.
  unfold keepsDate, validDate. now destruct (parseDate s) as [[[y m] d]|].
Qed.

Lemma dayOf_midnight day : dayOf (day * msPerDay) = day.
Proof. unfold dayOf. apply Z.div_mul. discriminate. Qed.

(** A zone with a fixed offset has every local midnight. *)
Lemma fixedOffset_keepsDate offset (s : string) :
  validDate s = true -> keepsDate (fixedOffset offset) s = true.
Proof.
  unfold validDate, keepsDate. destruct (parseDate s) as [[[y m] d]|];
    [|discriminate].
  intros _. cbn [utc localTime fixedOffset].
  replace (makeDay y m d * msPerDay - offset + offset)
    with (makeDay y m d * msPerDay) by lia.
  rewrite dayOf_midnight. apply Z.eqb_refl.
Qed.

(** *** The weekday of the code and the weekday of the calendar *)

Lemma digit_range c x : digit c = Some x -> 0 <= x <= 9.
Proof.
  unfold digit. destruct (_ && _) eqn:E; [|discriminate].
  intros [= <-]. apply andb_prop in E as [E1 E2].
  apply Z.leb_le in E1, E2. lia.
Qed.

Lemma number2_range a b x : number2 a b = Some x -> 0 <= x <= 99.
Proof.
  unfold number2. destruct (digit a) eqn:Ha, (digit b) eqn:Hb; try discriminate.
  intros [= <-]. apply digit_range in Ha, Hb. lia.
Qed.

Lemma number4_range a b c d x : number4 a b c d = Some x -> 0 <= x <= 9999.
Proof.
  unfold number4.
  destruct (number2 a b) eqn:Hab, (number2 c d) eqn:Hcd; try discriminate.
  intros [= <-]. apply number2_range in Hab, Hcd. lia.
Qed.

Lemma parseDate_range (s : string) y m d :
  parseDate s = Some (y, m, d) ->
  0 <= y <= 9999 /\ 1 <= m <= 12 /\ 1 <= d <= daysInMonth y m.
Proof.
  unfold parseDate.
  destruct s as [|y1 [|y2 [|y3 [|y4 [|h1 [|m1 [|m2 [|h2 [|d1 [|d2 [|]]]]]]]]]]];
    try discriminate.
  destruct (number4 y1 y2 y3 y4) as [y'|] eqn:Hy; [|discriminate].
  destruct (number2 m1 m2) as [m'|] eqn:Hm; [|discriminate].
  destruct (number2 d1 d2) as [d'|] eqn:Hd; [|discriminate].
  destruct (_ && _) eqn:E; [|discriminate].
  intros [= <- <- <-].
  apply andb_prop in E as [E Hd2]. apply andb_prop in E as [E Hd1].
  apply andb_prop in E as [E Hm2]. apply andb_prop in E as [_ Hm1].
  apply Z.leb_le in Hd2, Hd1, Hm2, Hm1.
  apply number4_range in Hy. lia.
Qed.

(** Zeller's congruence and the day count of ECMAScript agree on the
    first of every month of the years 0 to 9999. *)
Lemma firstsAgree_years (year : N) :
  (year <= 9999)%N -> firstsAgree year = true.
Proof.
  intros Hy. apply (forallb_range firstsAgree 0 (100 * 100)); [|lia].
  vm_compute. reflexivity.
Qed.

Lemma zeller_weekDay y m d :
  0 <= y <= 9999 -> 1 <= m <= 12 ->
  (zeller y m d + 6) mod 7 = weekDay (makeDay y m d).
Proof.
  intros Hy Hm.
  assert ((zeller y m 1 + 6) mod 7 = weekDay (makeDay y m 1)) as Hfirst.
  { pose proof (firstsAgree_years (Z.to_N y) ltac:(lia)) as H.
    unfold firstsAgree in H. rewrite forallb_forall in H.
    rewrite Z2N.id in H by lia. apply Z.eqb_eq, H.
    simpl. lia. }
  revert Hfirst. unfold zeller, weekDay, makeDay. cbv zeta.
  set (year := if m <? 3 then y - 1 else y).
  set (month := if m <? 3 then m + 12 else m).
  generalize (13 * (month + 1) / 5).
  generalize (year mod 100 / 4). generalize (year mod 100).
  generalize (year / 100 / 4). generalize (year / 100).
  generalize (dayFromYear y + daysBeforeMonth y (Z.to_nat m)).
  intros g f e c b a Hfirst.
  rewrite Z.add_mod_idemp_l in * by lia.
  Z.div_mod_to_equations. lia.
Qed.


Lemma zeller_range y m d : 0 <= zeller y m d < 7.
Proof. unfold zeller. cbv zeta. apply Z.mod_pos_bound. lia. Qed.

(** The name the code looks up for the day count of a date is the
    Indonesian name of the weekday of the date. *)
Lemma weekdayName_days y m d :
  0 <= y <= 9999 -> 1 <= m <= 12 ->
  nth_error days (Z.to_nat (weekDay (makeDay y m d)))
    = Some (weekdayName Indonesian (weekdayOf y m d)).
Proof.
  intros Hy Hm. rewrite <- (zeller_weekDay y m d Hy Hm). unfold weekdayOf.
  pose proof (zeller_range y m d) as Hz.
  assert (zeller y m d = 0 \/ zeller y m d = 1 \/ zeller y m d = 2 \/
          zeller y m d = 3 \/ zeller y m d = 4 \/ zeller y m d = 5 \/
          zeller y m d = 6)
    as [->|[->|[->|[->|[->|[->| ->]]]]]] by lia;
    reflexivity.
Qed.

Lemma getDayName_localized zone (s : string) :
  keepsDate zone s = true ->
  getDayName zone s = localizedWeekday Indonesian s.
Proof.
  unfold keepsDate, getDayName, getDay, localizedWeekday.
  destruct (parseDate s) as [[[y m] d]|] eqn:Hp; [|discriminate].
  intros Hk. apply Z.eqb_eq in Hk. cbv zeta. rewrite Hk.
  apply parseDate_range in Hp. apply weekdayName_days; lia.
Qed.

(** The three tests of the filter callback, for a lower-cased query. *)
Lemma noteMatches_code zone (q : string) (note : Note) :
  validDate (date note) = true ->
  exists keep,
    noteMatches zone (toLowerCase q) note = Some keep /\
    (keep = true <->
     containsIgnoringCase (date note) q \/
     (exists name, getDayName zone (date note) = Some name /\
                   containsIgnoringCase name q) \/
     containsIgnoringCase (content note) q).
Proof.
  intros Hv. unfold noteMatches.
  destruct (validDate_dayName zone _ Hv) as [name Hname]. rewrite Hname.
  pose proof (includes_toLowerCase (date note) q) as Hd.
  rewrite (validDate_lower _ Hv) in Hd.
  pose proof (includes_toLowerCase name q) as Hn.
  pose proof (includes_toLowerCase (content note) q) as Hc.
  destruct (includes (date note) (toLowerCase q)) eqn:H1.
  { exists true. tauto. }
  destruct (includes (toLowerCase name) (toLowerCase q)) eqn:H2.
  { exists true. split; [reflexivity|]. split; [intros _|reflexivity].
    right. left. exists name. tauto. }
  destruct (includes (toLowerCase (content note)) (toLowerCase q)) eqn:H3.
  { exists true. tauto. }
  exists false. split; [reflexivity|]. split; [discriminate|].
  intros [H|[(name' & Hn' & H)|H]].
  - apply Hd in H. discriminate.
  - assert (name' = name) as -> by congruence. apply Hn in H. discriminate.
  - apply Hc in H. discriminate.
Qed.

Lemma noteMatches_iff zone (q : string) (note : Note) :
  keepsDate zone (date note) = true ->
  exists keep,
    noteMatches zone (toLowerCase q) note = Some keep /\
    (keep = true <->
     containsIgnoringCase (date note) q \/
     (exists name, localizedWeekday Indonesian (date note) = Some name /\
                   containsIgnoringCase name q) \/
     containsIgnoringCase (content note) q).
Proof.
  intros Hk.
  destruct (noteMatches_code zone q note (keepsDate_valid _ _ Hk))
    as (keep & Hkeep & Hiff).
  rewrite (getDayName_localized _ _ Hk) in Hiff.
  now exists keep.
Qed.

(** Whatever the zone, the filter has a result on calendar dates. *)
Lemma filterNotes_defined zone (q : string) (notes : list Note) :
  Forall (fun note => validDate (date note) = true) notes ->
  exists result, filterNotes zone (toLowerCase q) notes = Some result.
Proof.
  induction 1 as [|note notes Hv _ IH].
  - now exists [].
  - destruct IH as (rest & Hrest).
    destruct (noteMatches_code zone q note Hv) as (keep & Hkeep & _).
    cbn [filterNotes]. rewrite Hkeep, Hrest. eexists. reflexivity.
Qed.

Lemma filteredNotes_defined zone (notes : list Note) (searchQuery : string) :
  Forall (fun note => validDate (date note) = true) notes ->
  exists result, filteredNotes zone notes searchQuery = Some result.
Proof.
  intros Hv. unfold filteredNotes.
  destruct (negb (truthy (trim searchQuery))); [now exists notes|].
  cbv zeta. rewrite trim_toLowerCase. now apply filterNotes_defined.
Qed.

Lemma filterNotes_iff zone (q : string) (notes : list Note) :
  Forall (fun note => keepsDate zone (date note) = true) notes ->
  exists result,
    filterNotes zone (toLowerCase q) notes = Some result /\
    Selects
      (fun note =>
         containsIgnoringCase (date note) q \/
         (exists name, localizedWeekday Indonesian (date note) = Some name /\
                       containsIgnoringCase name q) \/
         containsIgnoringCase (content note) q)
      notes result.
Proof.
  induction 1 as [|note notes Hk _ IH].
  - exists []. split; [reflexivity|constructor].
  - destruct IH as (rest & Hrest & Hsel).
    destruct (noteMatches_iff zone q note Hk) as (keep & Hkeep & Hiff).
    cbn [filterNotes]. rewrite Hkeep, Hrest.
    eexists. split; [reflexivity|]. destruct keep.
    + apply Selects_keep; [now apply Hiff|exact Hsel].
    + apply Selects_drop; [|exact Hsel]. intros Hm. apply Hiff in Hm.
      discriminate.
Qed.

Lemma filteredNotes_exact zone (notes : list Note) (searchQuery : string) :
  Forall (fun note => keepsDate zone (date note) = true) notes ->
  exists result,
    filteredNotes zone notes searchQuery = Some result /\
    Selects (specMatches Indonesian searchQuery) notes result /\
    sublist result notes /\
    (forall note, In note result <->
                  In note notes /\ specMatches Indonesian searchQuery note) /\
    (trim searchQuery = "" -> result = notes).
Proof.
  intros Hk.
  assert (exists result,
             filteredNotes zone notes searchQuery = Some result /\
             Selects (specMatches Indonesian searchQuery) notes result /\
             (trim searchQuery = "" -> result = notes))
    as (result & Hres & Hsel & Hall).
  { unfold filteredNotes, specMatches.
    destruct (truthy (trim searchQuery)) eqn:Ht; cbn [negb].
    - assert (trim searchQuery <> "") as Hne.
      { intros E. apply truthy_empty in E. congruence. }
      rewrite trim_toLowerCase.
      destruct (filterNotes_iff zone (trim searchQuery) notes Hk)
        as (result & Hres & Hsel).
      exists result. split; [exact Hres|]. split; [|contradiction].
      eapply SelectsFacts.Selects_iff; [|exact Hsel].
      intros note. cbv zeta. tauto.
    - apply truthy_empty in Ht. exists notes.
      split; [reflexivity|]. split; [|reflexivity].
      apply SelectsFacts.Selects_all. intros note. now left. }
  exists result. split; [exact Hres|]. split; [exact Hsel|].
  split; [eapply SelectsFacts.Selects_sublist, Hsel|].
  split; [eapply SelectsFacts.Selects_In, Hsel|exact Hall].
Qed.

(** The search on a list of one note. *)
Lemma filteredNotes_single zone (note : Note) (searchQuery : string) :
  keepsDate zone (date note) = true ->
  (specMatches Indonesian searchQuery note ->
   filteredNotes zone [note] searchQuery = Some [note]) /\
  (~ specMatches Indonesian searchQuery note ->
   filteredNotes zone [note] searchQuery = Some []).
Proof.
  intros Hk.
  destruct (filteredNotes_exact zone [note] searchQuery)
    as (result & -> & _ & Hsub & Hin & _).
  { now constructor. }
  assert (result = [] \/ result = [note]) as [-> | ->].
  { inversion Hsub as [|x l1 l2 Hs|x l1 l2 Hs]; subst;
      inversion Hs; subst; auto. }
  - split; [|reflexivity]. intros Hm.
    assert (In note []) as [] by (apply Hin; split; [now left|exact Hm]).
  - split; [reflexivity|]. intros Hm. exfalso. apply Hm.
    apply Hin. now left.
Qed.

(** C8 (as amended). In a time zone that has local midnight of the
    notes' dates (every zone with a fixed offset has them all), the
    search returns, in the order of the list, exactly the notes for which
    the trimmed query occurs, up to case, in the date string, in the
    Indonesian name of the weekday of the date, or in the content; a
    query that is empty after trimming returns every note.  The weekday
    is the one of the calendar, by Zeller's congruence.  A note dated
    2025-01-20, a Monday, is found by the queries [2025-01-20] and
    [senin] and by every query that occurs in its content up to case, and
    is not found by a query that occurs in none of the three. *)
Theorem filteredNotes_specMatches zone (notes : list Note) (searchQuery : string) :
  Forall (fun note => keepsDate zone (date note) = true) notes ->
  (exists result,
     filteredNotes zone notes searchQuery = Some result /\
     Selects (specMatches Indonesian searchQuery) notes result /\
     sublist result notes /\
     (forall note, In note result <->
                   In note notes /\ specMatches Indonesian searchQuery note) /\
     (trim searchQuery = "" -> result = notes)) /\
  (forall note, In note notes -> date note = "2025-01-20" ->
     weekdayOf 2025 1 20 = Monday /\
     filteredNotes zone [note] "2025-01-20" = Some [note] /\
     filteredNotes zone [note] "senin" = Some [note] /\
     (forall word, containsIgnoringCase (content note) (trim word) ->
                   filteredNotes zone [note] word = Some [note]) /\
     (forall word,
         trim word <> "" ->
         ~ containsIgnoringCase "2025-01-20" (trim word) ->
         ~ containsIgnoringCase "Senin" (trim word) ->
         ~ containsIgnoringCase (content note) (trim word) ->
         filteredNotes zone [note] word = Some [])) /\
  (forall offset note, validDate (date note) = true ->
     keepsDate (fixedOffset offset) (date note) = true).
Proof.
  intros Hk. split; [apply filteredNotes_exact, Hk|].
  split; [|intros offset note; apply fixedOffset_keepsDate].
  intros note Hin Hdate.
  assert (keepsDate zone (date note) = true) as Hkd.
  { rewrite List.Forall_forall in Hk. now apply Hk. }
  assert (localizedWeekday Indonesian (date note) = Some "Senin") as Hday
    by now rewrite Hdate.
  split; [reflexivity|].
  split; [|split; [|split]].
  - apply filteredNotes_single; [exact Hkd|].
    right. left. rewrite Hdate. now exists "", "2025-01-20", "".
  - apply filteredNotes_single; [exact Hkd|].
    right. right. left. exists "Senin". split; [exact Hday|].
    now exists "", "Senin", "".
  - intros word Hw. apply filteredNotes_single; [exact Hkd|].
    right. right. right. exact Hw.
  - intros word Hne Hd Hn Hc. apply filteredNotes_single; [exact Hkd|].
    intros [H|[H|[(name & Hname & H)|H]]]; try contradiction.
    + rewrite Hdate in H. contradiction.
    + assert (name = "Senin") as -> by congruence. contradiction.
Qed.

Lemma filteredNotes_specMatches_witness :
  let notes := [Samples.mondayNote; Samples.sundayNote] in
  Forall (fun note => keepsDate Samples.jakarta (date note) = true) notes /\
  filteredNotes Samples.jakarta [Samples.mondayNote] "2025-01-20"
    = Some [Samples.mondayNote] /\
  filteredNotes Samples.jakarta [Samples.mondayNote] "senin"
    = Some [Samples.mondayNote] /\
  filteredNotes Samples.jakarta [Samples.mondayNote] " RAPAT "
    = Some [Samples.mondayNote] /\
  exists result,
    filteredNotes Samples.jakarta notes "Minggu" = Some result /\
    In Samples.sundayNote result.
Proof.
  intros notes.
  assert (Forall (fun note => keepsDate Samples.jakarta (date note) = true) notes)
    as Hk by (repeat constructor).
  split; [exact Hk|].
  destruct (filteredNotes_specMatches Samples.jakarta notes "Minggu" Hk)
    as ((result & Hres & _ & _ & Hin & _) & Hmonday & _).
  destruct (Hmonday Samples.mondayNote) as (_ & Hdate & Hday & Hword & _);
    [now left|reflexivity|].
  split; [exact Hdate|]. split; [exact Hday|].
  split.
  - apply Hword. now exists "", "Rapat", " tim jam 10".
  - exists result. split; [exact Hres|]. apply Hin.
    split; [right; now left|].
    right. right. left. exists "Minggu". split; [reflexivity|].
    now exists "", "Minggu", "".
Defined.

(** C8 as the specification states it fails where the locale is not
    Indonesian: the weekday names are the ones written in [getDayName],
    whatever the locale of the runtime.  For an English locale the
    specification has the Monday note match the query [monday]; the
    search does not find it. *)
Lemma english_weekday_not_found :
  weekdayOf 2025 1 20 = Monday /\
  localizedWeekday English (date Samples.mondayNote) = Some "Monday" /\
  specMatches English "monday" Samples.mondayNote /\
  filteredNotes Samples.jakarta [Samples.mondayNote] "monday" = Some [] /\
  ~ (forall result,
        filteredNotes Samples.jakarta [Samples.mondayNote] "monday" = Some result ->
        (In Samples.mondayNote result <->
         specMatches English "monday" Samples.mondayNote)).
Proof.
  assert (specMatches English "monday" Samples.mondayNote) as Hspec.
  { right. right. left. exists "Monday". split; [reflexivity|].
    now exists "", "Monday", "". }
  split; [reflexivity|]. split; [reflexivity|]. split; [exact Hspec|].
  split; [reflexivity|].
  intros Hall. destruct (Hall [] eq_refl) as [_ Hin]. exact (Hin Hspec).
Qed.

(** Other queries on the sample notes. *)
Example unrelated_queries :
  filteredNotes Samples.jakarta [Samples.mondayNote] "belanja" = Some [] /\
  filteredNotes Samples.jakarta [Samples.mondayNote; Samples.sundayNote] "01-19"
    = Some [Samples.sundayNote].
Proof. split; reflexivity. Qed.

(** Where the zone skipped the date, local midnight is read with the
    offset before the change and falls on the next day: in Samoa a note
    dated 30 December 2011, a Friday, is found under [sabtu] (Saturday)
    and not under [jumat]. *)
Example skipped_date_is_the_next_day :
  weekdayOf 2011 12 30 = Friday /\
  keepsDate Samples.apia "2011-12-30" = false /\
  getDayName Samples.apia "2011-12-30" = Some "Sabtu" /\
  getDayName Samples.jakarta "2011-12-30" = Some "Jumat" /\
  filteredNotes Samples.apia [Samples.fridayNote] "jumat" = Some [] /\
  filteredNotes Samples.apia [Samples.fridayNote] "sabtu"
    = Some [Samples.fridayNote] /\
  keepsDate Samples.apia "2011-12-29" = true /\
  keepsDate Samples.apia "2011-12-31" = true.
Proof. repeat split; reflexivity. Qed.

End NotesSearchFacts.


(** ** JSON texts *)

Module JsonFacts.
Import LocalStorage.
#[local] Open Scope string_scope.
#[local] Open Scope nat_scope.

Lemma skipSpace_length s : String.length (skipSpace s) <= String.length s.
Proof.
  induction s as [|c s IH]; simpl; [lia|].
  destruct (isJsonSpace c); simpl; lia.
Qed.

Lemma skipSpace_tail s c rest :
  skipSpace s = String c rest -> String.length rest < String.length s.
Proof.
  intros E. pose proof (skipSpace_length s) as H. rewrite E in H. simpl in H. lia.
Qed.

Lemma after_length word s r :
  after word s = Some r ->
  String.length s = String.length word + String.length r.
Proof.
  revert s. induction word as [|c word IH]; intros s; simpl.
  - now intros [= ->].
  - destruct s as [|c' s]; [discriminate|].
    destruct (Ascii.eqb c c'); [|discriminate].
    intros E. apply IH in E. simpl. lia.
Qed.

Lemma parseString_length s :
  forall acc units r,
    parseString s acc = Some (units, r) -> String.length r < String.length s.
Proof.
  assert (forall n s, String.length s <= n ->
            forall acc units r,
              parseString s acc = Some (units, r) ->
              String.length r < String.length s) as Hind.
  { clear s. induction n as [|n IH]; intros s Hn acc units r.
    - destruct s; [discriminate|simpl in Hn; lia].
    - destruct s as [|c rest]; [discriminate|]. simpl in Hn.
      cbn [parseString].
      destruct (Ascii.eqb c quote); [intros [= _ ->]; simpl; lia|].
      destruct (Ascii.eqb c "\").
      + destruct rest as [|e rest']; [discriminate|]. simpl in Hn.
        destruct (Ascii.eqb e "u").
        * destruct rest' as [|h1 [|h2 [|h3 [|h4 rest'']]]]; try discriminate.
          destruct (hexDigit h1), (hexDigit h2), (hexDigit h3), (hexDigit h4);
            try discriminate.
          intros E. apply IH in E; simpl in *; lia.
        * destruct (escaped e); [|discriminate].
          intros E. apply IH in E; simpl in *; lia.
      + destruct (N_of_ascii c <? 32)%N; [discriminate|].
        intros E. apply IH in E; simpl in *; lia. }
  intros acc units r. now apply (Hind (String.length s)).
Qed.

Lemma takeDigits_length s ds r :
  takeDigits s = (ds, r) -> String.length s = length ds + String.length r.
Proof.
  revert ds r. induction s as [|c s IH]; intros ds r; simpl.
  - now intros [= <- <-].
  - destruct (decimalDigit c); [|now intros [= <- <-]].
    destruct (takeDigits s) as [ds' r'] eqn:E. intros [= <- <-].
    specialize (IH ds' r' eq_refl). simpl. lia.
Qed.

Lemma signOf_length plus s negative r :
  signOf plus s = (negative, r) -> String.length r <= String.length s.
Proof.
  unfold signOf. destruct s as [|c rest]; [now intros [= _ <-]|].
  destruct (Ascii.eqb c "-"); [intros [= _ <-]; simpl; lia|].
  destruct (plus && Ascii.eqb c "+"); intros [= _ <-]; simpl; lia.
Qed.

Lemma fractionOf_length s ds r :
  fractionOf s = Some (ds, r) -> String.length r <= String.length s.
Proof.
  unfold fractionOf. destruct s as [|c rest]; [now intros [= _ <-]|].
  destruct (Ascii.eqb c "."); [|now intros [= _ <-]].
  destruct (takeDigits rest) as [[|d ds'] r'] eqn:E; [discriminate|].
  intros [= _ <-]. apply takeDigits_length in E. simpl in *. lia.
Qed.

Lemma exponentOf_length s power r :
  exponentOf s = Some (power, r) -> String.length r <= String.length s.
Proof.
  unfold exponentOf. destruct s as [|c rest]; [now intros [= _ <-]|].
  destruct (Ascii.eqb c "e" || Ascii.eqb c "E"); [|now intros [= _ <-]].
  destruct (signOf true rest) as [negative rest'] eqn:Es.
  destruct (takeDigits rest') as [[|d ds'] r'] eqn:E; [discriminate|].
  intros [= _ <-]. apply takeDigits_length in E. apply signOf_length in Es.
  simpl in *. lia.
Qed.

Lemma parseNumber_length s v r :
  parseNumber s = Some (v, r) -> String.length r < String.length s.
Proof.
  unfold parseNumber.
  destruct (signOf false s) as [negative s1] eqn:Es.
  destruct (takeDigits s1) as [whole s2] eqn:Ew.
  apply signOf_length in Es. apply takeDigits_length in Ew.
  assert (forall whole',
             whole' = whole -> whole <> [] ->
             match fractionOf s2 with
             | Some (fraction, s3) =>
                 match exponentOf s3 with
                 | Some (power, s4) =>
                     let digits := app whole' fraction in
                     let mantissa := digitsValue digits in
                     let (m, e) :=
                       stripZeros (length digits)
                         (if negative then (- mantissa)%Z else mantissa)
                         (power - Z.of_nat (length fraction))%Z in
                     Some (JNumber m e, s4)
                 | None => None
                 end
             | None => None
             end = Some (v, r) ->
             String.length r < String.length s) as Hrest.
  { intros whole' -> Hne.
    destruct (fractionOf s2) as [[fraction s3]|] eqn:Ef; [|discriminate].
    destruct (exponentOf s3) as [[power s4]|] eqn:Ee; [|discriminate].
    cbv zeta. destruct (stripZeros _ _ _). intros [= _ <-].
    apply fractionOf_length in Ef. apply exponentOf_length in Ee.
    destruct whole; [contradiction|]. simpl in Ew. lia. }
  destruct whole as [|d more]; [discriminate|].
  destruct d; [destruct more; [|discriminate]| |];
    apply Hrest; congruence.
Qed.

Section Steps.

Variable value value' : string -> option (Json * string).
Variable elements elements' : string -> option (list Json * string).
Variable members members' :
  string -> list (list N * Json) -> option (list (list N * Json) * string).

Hypothesis Hv :
  forall s v r, value s = Some (v, r) -> String.length r < String.length s.
Hypothesis He :
  forall s l r, elements s = Some (l, r) -> String.length r < String.length s.
Hypothesis Hm :
  forall s acc l r, members s acc = Some (l, r) ->
                    String.length r < String.length s.

Lemma valueStep_consumes s v r :
  valueStep elements members s = Some (v, r) ->
  String.length r < String.length s.
Proof.
  unfold valueStep.
  destruct (skipSpace s) as [|c rest] eqn:Es; [discriminate|].
  pose proof (skipSpace_tail _ _ _ Es) as Hrest.
  destruct (Ascii.eqb c quote).
  { destruct (parseString rest []) as [[units rest']|] eqn:E; [|discriminate].
    intros [= _ <-]. apply parseString_length in E. lia. }
  destruct (Ascii.eqb c "[").
  { pose proof (skipSpace_length rest) as Hs.
    destruct (after "]" (skipSpace rest)) as [rest'|] eqn:E.
    - intros [= _ <-]. apply after_length in E. simpl in E. lia.
    - destruct (elements rest) as [[l rest']|] eqn:E'; [|discriminate].
      intros [= _ <-]. apply He in E'. lia. }
  destruct (Ascii.eqb c "{").
  { pose proof (skipSpace_length rest) as Hs.
    destruct (after "}" (skipSpace rest)) as [rest'|] eqn:E.
    - intros [= _ <-]. apply after_length in E. simpl in E. lia.
    - destruct (members rest []) as [[l rest']|] eqn:E'; [|discriminate].
      intros [= _ <-]. apply Hm in E'. lia. }
  destruct (after "null" (String c rest)) as [r1|] eqn:E1.
  { intros [= _ <-]. apply after_length in E1. simpl in E1. lia. }
  destruct (after "true" (String c rest)) as [r2|] eqn:E2.
  { intros [= _ <-]. apply after_length in E2. simpl in E2. lia. }
  destruct (after "false" (String c rest)) as [r3|] eqn:E3.
  { intros [= _ <-]. apply after_length in E3. simpl in E3. lia. }
  intros E. apply parseNumber_length in E. simpl in E. lia.
Qed.

Lemma elementsStep_consumes s l r :
  elementsStep value elements s = Some (l, r) ->
  String.length r < String.length s.
Proof.
  unfold elementsStep.
  destruct (value s) as [[v rest]|] eqn:E; [|discriminate].
  apply Hv in E.
  destruct (skipSpace rest) as [|c rest'] eqn:Es; [discriminate|].
  apply skipSpace_tail in Es.
  destruct (Ascii.eqb c ",").
  { destruct (elements rest') as [[l' rest'']|] eqn:E'; [|discriminate].
    intros [= _ <-]. apply He in E'. lia. }
  destruct (Ascii.eqb c "]"); [|discriminate].
  intros [= _ <-]. lia.
Qed.

Lemma membersStep_consumes s acc l r :
  membersStep value members s acc = Some (l, r) ->
  String.length r < String.length s.
Proof.
  unfold membersStep.
  destruct (skipSpace s) as [|c rest] eqn:Es; [discriminate|].
  apply skipSpace_tail in Es.
  destruct (Ascii.eqb c quote); [|discriminate].
  destruct (parseString rest []) as [[key rest1]|] eqn:Ek; [|discriminate].
  apply parseString_length in Ek.
  pose proof (skipSpace_length rest1) as Hs1.
  destruct (after ":" (skipSpace rest1)) as [rest2|] eqn:Ec; [|discriminate].
  apply after_length in Ec. simpl in Ec.
  destruct (value rest2) as [[v rest3]|] eqn:E; [|discriminate].
  apply Hv in E. cbv zeta.
  destruct (skipSpace rest3) as [|c' rest4] eqn:Es3; [discriminate|].
  apply skipSpace_tail in Es3.
  destruct (Ascii.eqb c' ",").
  { intros E'. apply Hm in E'. lia. }
  destruct (Ascii.eqb c' "}"); [|discriminate].
  intros [= _ <-]. lia.
Qed.

(** A step calls the readers it is given on shorter texts only, the
    value reader of [elementsStep] apart, which starts on the same text. *)
Lemma valueStep_ext s :
  (forall s', String.length s' < String.length s -> elements s' = elements' s') ->
  (forall s' acc, String.length s' < String.length s ->
                  members s' acc = members' s' acc) ->
  valueStep elements members s = valueStep elements' members' s.
Proof.
  intros Eqe Eqm. unfold valueStep.
  destruct (skipSpace s) as [|c rest] eqn:Es; [reflexivity|].
  apply skipSpace_tail in Es.
  now rewrite (Eqe rest Es), (Eqm rest [] Es).
Qed.

Lemma elementsStep_ext s :
  value s = value' s ->
  (forall s', String.length s' < String.length s -> elements s' = elements' s') ->
  elementsStep value elements s = elementsStep value' elements' s.
Proof.
  intros Eq Eqe. unfold elementsStep. rewrite <- Eq.
  destruct (value s) as [[v rest]|] eqn:E; [|reflexivity].
  apply Hv in E.
  destruct (skipSpace rest) as [|c rest'] eqn:Es; [reflexivity|].
  apply skipSpace_tail in Es.
  now rewrite (Eqe rest') by lia.
Qed.

Lemma membersStep_ext s acc :
  (forall s', String.length s' < String.length s -> value s' = value' s') ->
  (forall s' acc', String.length s' < String.length s ->
                   members s' acc' = members' s' acc') ->
  membersStep value members s acc = membersStep value' members' s acc.
Proof.
  intros Eq Eqm. unfold membersStep.
  destruct (skipSpace s) as [|c rest] eqn:Es; [reflexivity|].
  apply skipSpace_tail in Es.
  destruct (Ascii.eqb c quote); [|reflexivity].
  destruct (parseString rest []) as [[key rest1]|] eqn:Ek; [|reflexivity].
  apply parseString_length in Ek.
  pose proof (skipSpace_length rest1) as Hs1.
  destruct (after ":" (skipSpace rest1)) as [rest2|] eqn:Ec; [|reflexivity].
  apply after_length in Ec. simpl in Ec.
  rewrite <- (Eq rest2) by lia.
  destruct (value rest2) as [[v rest3]|] eqn:E; [|reflexivity].
  apply Hv in E. cbv zeta.
  destruct (skipSpace rest3) as [|c' rest4] eqn:Es3; [reflexivity|].
  apply skipSpace_tail in Es3.
  now rewrite (Eqm rest4) by lia.
Qed.

End Steps.

(** Every reader leaves a shorter text. *)
Lemma parse_consumes fuel :
  (forall s v r, parseValue fuel s = Some (v, r) ->
                 String.length r < String.length s) /\
  (forall s l r, parseElements fuel s = Some (l, r) ->
                 String.length r < String.length s) /\
  (forall s acc l r, parseMembers fuel s acc = Some (l, r) ->
                     String.length r < String.length s).
Proof.
  induction fuel as [|fuel (Hv & He & Hm)].
  - repeat split; intros; discriminate.
  - split; [|split].
    + intros s v r. now apply valueStep_consumes.
    + intros s l r. now apply elementsStep_consumes.
    + intros s acc l r. now apply membersStep_consumes.
Qed.

(** Above twice the length of the text, one more unit of fuel changes
    nothing. *)
Lemma parse_fuel_step fuel :
  (forall s, 2 * String.length s < fuel ->
             parseValue (S fuel) s = parseValue fuel s) /\
  (forall s, 2 * String.length s + 1 < fuel ->
             parseElements (S fuel) s = parseElements fuel s) /\
  (forall s acc, 2 * String.length s + 1 < fuel ->
                 parseMembers (S fuel) s acc = parseMembers fuel s acc).
Proof.
  induction fuel as [|fuel (Hv & He & Hm)].
  - repeat split; intros; lia.
  - destruct (parse_consumes fuel) as (Cv & _ & _).
    destruct (parse_consumes (S fuel)) as (Cv' & _ & _).
    split; [|split].
    + intros s Hs. cbn [parseValue]. apply valueStep_ext.
      * intros s' Hs'. apply He. lia.
      * intros s' acc Hs'. apply Hm. lia.
    + intros s Hs. cbn [parseElements]. apply elementsStep_ext.
      * exact Cv'.
      * apply Hv. lia.
      * intros s' Hs'. apply He. lia.
    + intros s acc Hs. cbn [parseMembers]. apply membersStep_ext.
      * exact Cv'.
      * intros s' Hs'. apply Hv. lia.
      * intros s' acc' Hs'. apply Hm. lia.
Qed.

(** [parseJson] does not depend on its fuel: more gives the same
    answer. *)
Lemma parseValue_fuel (text : string) (fuel : nat) :
  2 * String.length text + 2 <= fuel ->
  parseValue fuel text = parseValue (2 * String.length text + 2) text.
Proof.
  intros Hf. induction Hf as [|fuel Hle IH]; [reflexivity|].
  rewrite <- IH. apply parse_fuel_step. lia.
Qed.

End JsonFacts.

(** ** Persistent store adapter *)

Module LocalStorageFacts.
Import JsString TrimFacts LocalStorage.
#[local] Open Scope string_scope.

Section Adapter.

Context {T : Type} `{JSON T}.
Variable key : string.

Implicit Types (h : hook (T:=T)) (st : Storage) (v fallback : T).

Lemma getItem_setItem st st' value :
  setItem key value st = Some st' -> getItem key st' = Some value.
Proof.
  unfold setItem, getItem. destruct (_ <=? _)%nat; [|discriminate].
  intros [= <-]. simpl. apply lookup_insert_eq.
Qed.

Lemma getItem_setItem_other st st' key' value :
  key' <> key ->
  setItem key value st = Some st' -> getItem key' st' = getItem key' st.
Proof.
  intros Hne. unfold setItem, getItem. destruct (_ <=? _)%nat; [|discriminate].
  intros [= <-]. simpl. now apply lookup_insert_ne.
Qed.

Lemma read_written st v fallback :
  JSONSerializable v ->
  getItem key st = Some (stringify v) -> read key fallback st = v.
Proof.
  intros Hv Hget. unfold read.
  now rewrite Hget, stringify_truthy, parse_stringify.
Qed.

Lemma read_absent st fallback :
  getItem key st = None -> read key fallback st = fallback.
Proof. intros Hget. unfold read. now rewrite Hget. Qed.

Lemma read_undecodable st text fallback :
  getItem key st = Some text -> parse text = None ->
  read key fallback st = fallback.
Proof.
  intros Hget Hparse. unfold read. rewrite Hget, Hparse.
  now destruct (truthy text).
Qed.

(** In memory, [setValue] applies the updater to the current value,
    whatever becomes of the write. *)
Lemma setValue_in_memory (f : T -> T) h :
  storedValue (setValue key (Updater f) h) = f (storedValue h).
Proof. unfold setValue, setValueOf. cbv zeta. now destruct (setItem _ _ _). Qed.

(** C9 (as amended). A write of a JSON-serializable value that the
    storage accepts, followed by a read of the same key, returns the
    value written, whatever the fallback; a write the storage refuses is
    swallowed and leaves the storage as it was, while the state in memory
    holds the new value either way.  A read of a key with no entry, or
    with a text that does not decode, returns the fallback. *)
Theorem write_then_read (value : setStateAction (T:=T)) h fallback :
  let v := valueToStore value (storedValue h) in
  let h' := setValue key value h in
  storedValue h' = v /\
  (JSONSerializable v ->
   forall st', setItem key (stringify v) (storage h) = Some st' ->
     storage h' = st' /\
     read key fallback (storage h') = v /\
     storedValue (useLocalStorage key fallback (storage h')) = v) /\
  (setItem key (stringify v) (storage h) = None -> storage h' = storage h) /\
  (forall st, getItem key st = None -> read key fallback st = fallback) /\
  (forall st text,
      getItem key st = Some text -> parse text = None ->
      read key fallback st = fallback).
Proof.
  intros v h'. subst v h'. unfold setValue, setValueOf. cbv zeta.
  split; [now destruct (setItem _ _ _)|].
  split; [|split; [|split]].
  - intros Hv st' Hset. rewrite Hset. cbn [storage useLocalStorage storedValue].
    split; [reflexivity|].
    assert (read key fallback st' = valueToStore value (storedValue h)) as Hr.
    { apply read_written; [exact Hv|]. eapply getItem_setItem, Hset. }
    split; exact Hr.
  - intros Hset. now rewrite Hset.
  - intros st. apply read_absent.
  - intros st text. apply read_undecodable.
Qed.

(** C10. The handler of storage events changes the state in memory only
    for an event on the hook's own key whose new value is not null and
    decodes, and then the state becomes the decoded value; a removal
    (new value null), a text that does not decode and an event on
    another key leave the hook as it was.  The storage is never
    touched. *)
Theorem handleStorageChange_guard (e : StorageEvent) h :
  let h' := handleStorageChange key e h in
  storage h' = storage h /\
  (h' = h \/
   exists text v,
     eventKey e = Some key /\ newValue e = Some text /\
     parse text = Some v /\ h' = {| storedValue := v; storage := storage h |}) /\
  (newValue e = None -> h' = h) /\
  (forall text, newValue e = Some text -> parse text = None -> h' = h) /\
  (eventKey e <> Some key -> h' = h) /\
  (forall v, JSONSerializable v ->
             eventKey e = Some key ->
             newValue e = Some (stringify v) ->
             h' = {| storedValue := v; storage := storage h |}).
Proof.
  intros h'. subst h'. unfold handleStorageChange.
  destruct (eventKey e) as [k|] eqn:Hk, (newValue e) as [text|] eqn:Hv;
    try (split; [reflexivity|]; split; [now left|];
         repeat split; auto; congruence).
  destruct (String.eqb_spec k key) as [->|Hne]; cbn [andb].
  - destruct (truthy text) eqn:Ht.
    + destruct (parse text) as [v|] eqn:Hp.
      * split; [reflexivity|]. split; [right; now exists text, v|].
        split; [discriminate|]. split; [congruence|]. split; [congruence|].
        intros v' Hser _ [= ->]. rewrite parse_stringify in Hp. congruence.
      * split; [reflexivity|]. split; [now left|].
        repeat split; auto.
        intros v' Hser _ [= ->]. rewrite parse_stringify in Hp. discriminate.
    + split; [reflexivity|]. split; [now left|].
      repeat split; auto.
      intros v' Hser _ [= ->]. rewrite stringify_truthy in Ht. discriminate.
  - split; [reflexivity|]. split; [now left|].
    repeat split; auto. intros v' _ [= ->]. contradiction.
Qed.

End Adapter.

(** The two flags are values JSON can carry. *)
#[export] Instance JBool_serializable (b : bool) : JSONSerializable (JBool b).
Proof. split; destruct b; reflexivity. Qed.

Lemma write_then_read_witness :
  let h := useLocalStorage "done" (JBool false) Samples.roomyStorage in
  let h' := setValue "done" (Value (JBool true)) h in
  storedValue h = JBool false /\
  getItem "done" (storage h') = Some "true" /\
  read "done" (JBool false) (storage h') = JBool true /\
  read "missing" (JBool true) (storage h') = JBool true /\
  read "done" (JBool true) Samples.garbledStorage = JBool true /\
  read "visits" (JBool false) (storage h') = JNumber 42 0.
Proof.
  intros h h'.
  destruct (write_then_read "done" (Value (JBool true)) h (JBool false))
    as (_ & Hok & _ & _ & _).
  destruct (write_then_read "missing" (Value (JBool true)) h (JBool true))
    as (_ & _ & _ & Habsent & _).
  destruct (write_then_read "done" (Value (JBool true)) h (JBool true))
    as (_ & _ & _ & _ & Hbad).
  split; [reflexivity|]. split; [reflexivity|].
  split; [|split; [|split]].
  - eapply Hok; [apply JBool_serializable|reflexivity].
  - apply Habsent. reflexivity.
  - apply (Hbad _ "tru"); reflexivity.
  - reflexivity.
Defined.

(** C9 as the specification states it fails when the storage refuses the
    write: [setValue] swallows the error, and a later read of the key
    returns the fallback, not the value written. *)
Lemma refused_write_is_lost :
  let h := useLocalStorage "done" (JBool false) Samples.fullStorage in
  let h' := setValue "done" (Value (JBool true)) h in
  JSONSerializable (JBool true) /\
  setItem "done" (stringify (JBool true)) (storage h) = None /\
  storedValue h' = JBool true /\
  read "done" (JBool false) (storage h') = JBool false /\
  read "done" (JBool false) (storage h') <> JBool true.
Proof.
  split; [apply JBool_serializable|].
  vm_compute. repeat split; try reflexivity. discriminate.
Qed.

(** A setter kept from an earlier render starts from the value that
    render saw: called twice, it applies its updater once. *)
Example setter_of_one_render_called_twice :
  let h := useLocalStorage "done" (JBool false) Samples.roomyStorage in
  let set := setValueOf "done" (storedValue h) (Updater Samples.negate) in
  storedValue (set (set h)) = JBool true /\
  storedValue (setValue "done" (Updater Samples.negate)
                 (setValue "done" (Updater Samples.negate) h))
    = JBool false.
Proof. vm_compute. split; reflexivity. Qed.

(** The cast of [JSON.parse(item) as T] checks nothing: a hook used at
    the type of flags takes whatever value the stored text decodes to. *)
Example read_returns_what_the_text_decodes_to :
  read "visits" (JBool false) Samples.roomyStorage = JNumber 42 0 /\
  parse "null" = Some JNull /\
  parse " [1, 2.5] " = Some (JArray [JNumber 1 0; JNumber 25 (-1)]) /\
  parse "tru" = None (A:=Json) /\
  parse "[1,]" = None (A:=Json) /\
  parse "01" = None (A:=Json).
Proof. repeat split; reflexivity. Qed.

Lemma handleStorageChange_guard_witness :
  let h := useLocalStorage "done" (JBool false) Samples.roomyStorage in
  handleStorageChange "done" {| eventKey := Some "done"; newValue := Some "true" |} h
    = {| storedValue := JBool true; storage := storage h |} /\
  handleStorageChange "done" {| eventKey := Some "done"; newValue := None |} h = h /\
  handleStorageChange "done" {| eventKey := Some "done"; newValue := Some "tru" |} h = h /\
  handleStorageChange "done" {| eventKey := Some "visits"; newValue := Some "true" |} h = h.
Proof.
  intros h.
  pose proof (handleStorageChange_guard "done"
                {| eventKey := Some "done"; newValue := Some "true" |} h)
    as (_ & _ & _ & _ & _ & Hown).
  pose proof (handleStorageChange_guard "done"
                {| eventKey := Some "done"; newValue := None |} h)
    as (_ & _ & Hremoved & _).
  pose proof (handleStorageChange_guard "done"
                {| eventKey := Some "done"; newValue := Some "tru" |} h)
    as (_ & _ & _ & Hbad & _).
  pose proof (handleStorageChange_guard "done"
                {| eventKey := Some "visits"; newValue := Some "true" |} h)
    as (_ & _ & _ & _ & Hother & _).
  split; [apply (Hown (JBool true)); [apply JBool_serializable|reflexivity..]|].
  split; [apply Hremoved; reflexivity|].
  split; [apply (Hbad "tru"); reflexivity|].
  apply Hother. discriminate.
Defined.

End LocalStorageFacts.


(** * Further properties of the code *)

(** ** Trimming *)

Module TrimMore.
Import JsString TrimFacts.
#[local] Open Scope string_scope.

Lemma trimEnd_idem (s : string) : trimEnd (trimEnd s) = trimEnd s.
Proof.
  induction s as [|c s IH]; [reflexivity|]. cbn [trimEnd].
  destruct (trimEnd s) as [|d u] eqn:Hu.
  - destruct (isWhiteSpace c) eqn:Hc; [reflexivity|].
    cbn [trimEnd]. now rewrite Hc.
  - cbn [trimEnd]. cbn [trimEnd] in IH. now rewrite IH.
Qed.

Lemma trimStart_clean (s : string) :
  match trimStart s with
  | EmptyString => True
  | String c _ => isWhiteSpace c = false
  end.
Proof.
  induction s as [|c s IH]; simpl; [exact I|].
  destruct (isWhiteSpace c) eqn:Hc; [exact IH|exact Hc].
Qed.

Lemma trimStart_trimEnd_clean (s : string) :
  match s with
  | EmptyString => True
  | String c _ => isWhiteSpace c = false
  end ->
  trimStart (trimEnd s) = trimEnd s.
Proof.
  destruct s as [|c s]; [reflexivity|]. intros Hc. cbn [trimEnd].
  destruct (trimEnd s); rewrite ?Hc; cbn [trimStart]; now rewrite Hc.
Qed.

(** Trimming twice is trimming once. *)
Lemma trim_idem (s : string) : trim (trim s) = trim s.
Proof.
  unfold trim. rewrite trimStart_trimEnd_clean by apply trimStart_clean.
  apply trimEnd_idem.
Qed.

Lemma includes_empty (s : string) : includes s "" = true.
Proof. rewrite JsStringFacts.includes_unfold. now destruct s. Qed.

End TrimMore.

(** ** Pagination: how the actions compose *)

Module PaginationMore.
Import Pagination PaginationFacts.

Section WithItems.

Context {T : Type}.
Implicit Types (v : view (T:=T)) (l : list T).

Lemma firstn_more l (a b : nat) :
  (a <= b)%nat -> firstn b l = firstn a l ++ firstn (b - a) (skipn a l).
Proof.
  revert a b. induction l as [|x l IH]; intros a b Hab.
  - now rewrite !firstn_nil, skipn_nil, firstn_nil.
  - destruct a as [|a].
    + simpl. now rewrite Nat.sub_0_r.
    + destruct b as [|b]; [lia|]. simpl. f_equal. apply IH. lia.
Qed.

Lemma reachable_page ps (items : list T) es :
  1 <= currentPage (run ps (mount items) es).
Proof. apply run_page_lower. simpl. lia. Qed.

(** How many items are on show, and how many are left. *)
Lemma remainingItems_eq ps v :
  0 < ps -> 1 <= currentPage v ->
  remainingItems ps v =
    Z.max 0 (Z.of_nat (length (allItems v)) - currentPage v * ps).
Proof.
  intros Hps Hp. unfold remainingItems.
  rewrite displayedItems_length by nia. lia.
Qed.

Lemma hasNextPage_remaining ps v :
  0 < ps -> 1 <= currentPage v ->
  (hasNextPage ps v = true <-> 0 < remainingItems ps v).
Proof.
  intros Hps Hp. rewrite hasNextPage_lt, remainingItems_eq by assumption.
  pose proof (totalPages_ceiling ps v Hps). split; intros; nia.
Qed.

(** X1. The load-more button has something to load exactly when
    [hasNextPage]: in every reachable state, [hasNextPage] holds if and
    only if [remainingItems] is above 0, [remainingItems] is never
    negative, and it is 0 exactly when the window shows the whole list. *)
Theorem hasNextPage_iff_items_remain ps (items : list T) es (Hps : 0 < ps) :
  let v := run ps (mount items) es in
  0 <= remainingItems ps v /\
  (hasNextPage ps v = true <-> 0 < remainingItems ps v) /\
  (remainingItems ps v = 0 <-> displayedItems ps v = allItems v).
Proof.
  intros v. pose proof (reachable_page ps items es) as Hp. fold v in Hp.
  split; [rewrite remainingItems_eq by assumption; lia|].
  split; [now apply hasNextPage_remaining|].
  unfold remainingItems. split.
  - intros H0. rewrite displayedItems_prefix by nia.
    rewrite displayedItems_length in H0 by nia.
    apply firstn_all2. lia.
  - intros ->. lia.
Qed.

Lemma loadMore_appends_from ps v :
  0 < ps -> 1 <= currentPage v ->
  exists more,
    displayedItems ps (loadMore ps v) = displayedItems ps v ++ more /\
    Z.of_nat (length more) = Z.min ps (remainingItems ps v).
Proof.
  intros Hps Hp.
  set (len := Z.of_nat (length (allItems v))).
  assert (1 <= currentPage (loadMore ps v)) as Hp'.
  { apply (step_page_lower ps v LoadMore Hp). }
  rewrite (displayedItems_prefix ps v) by nia.
  rewrite (displayedItems_prefix ps (loadMore ps v)) by nia.
  change (allItems (loadMore ps v)) with (allItems v). fold len.
  rewrite remainingItems_eq by assumption. fold len.
  rewrite loadMore_page.
  pose proof (totalPages_ceiling ps v Hps) as Hceil. fold len in Hceil.
  set (a := Z.to_nat (Z.min (currentPage v * ps) len)).
  destruct (Z.leb_spec (currentPage v + 1) (totalPages ps v)) as [Hnext|Hlast].
  - set (b := Z.to_nat (Z.min ((currentPage v + 1) * ps) len)).
    exists (firstn (b - a) (skipn a (allItems v))).
    split; [apply firstn_more; subst a b; nia|].
    rewrite length_firstn, length_skipn. subst a b. nia.
  - exists []. split; [now rewrite app_nil_r|]. simpl. nia.
Qed.

(** X2. [loadMore] only adds to what is on show: in every reachable state the
    new window is the old one followed by [min(pageSize, remainingItems)]
    further items. *)
Theorem loadMore_appends ps (items : list T) es (Hps : 0 < ps) :
  let v := run ps (mount items) es in
  exists more,
    displayedItems ps (loadMore ps v) = displayedItems ps v ++ more /\
    Z.of_nat (length more) = Z.min ps (remainingItems ps v).
Proof.
  intros v. apply loadMore_appends_from; [assumption|].
  apply reachable_page.
Qed.

Lemma view_eta v : {| allItems := allItems v; currentPage := currentPage v |} = v.
Proof. now destruct v. Qed.

(** X3. [showLess] undoes [loadMore] and, above page 1 and within the pages,
    [loadMore] undoes [showLess]; on the last page [loadMore] changes
    nothing, on page 1 [showLess] changes nothing. *)
Theorem loadMore_showLess_inverse ps (items : list T) es (Hps : 0 < ps) :
  let v := run ps (mount items) es in
  (hasNextPage ps v = true -> showLess (loadMore ps v) = v) /\
  (hasNextPage ps v = false -> loadMore ps v = v) /\
  (1 < currentPage v -> currentPage v <= totalPages ps v ->
   loadMore ps (showLess v) = v) /\
  (currentPage v = 1 -> showLess v = v).
Proof.
  intros v. pose proof (reachable_page ps items es) as Hp. fold v in Hp.
  clearbody v.
  assert (forall w : view (T:=T),
             allItems w = allItems v -> currentPage w = currentPage v -> w = v)
    as Heq.
  { intros [a p] Ha Hc. simpl in *. subst. apply view_eta. }
  split; [|split; [|split]].
  - intros Hn. apply hasNextPage_lt in Hn. apply Heq; [reflexivity|].
    rewrite showLess_page, loadMore_page.
    destruct (Z.leb_spec (currentPage v + 1) (totalPages ps v)); lia.
  - intros Hn. apply Heq; [reflexivity|]. rewrite loadMore_page.
    destruct (Z.leb_spec (currentPage v + 1) (totalPages ps v)) as [H|H];
      [|reflexivity].
    assert (hasNextPage ps v = true) by (apply hasNextPage_lt; lia).
    congruence.
  - intros H1 Htp. apply Heq; [reflexivity|].
    rewrite loadMore_page, showLess_page.
    change (totalPages ps (showLess v)) with (totalPages ps v).
    destruct (Z.leb_spec (Z.max 1 (currentPage v - 1) + 1) (totalPages ps v)); lia.
  - intros H1. apply Heq; [reflexivity|]. rewrite showLess_page. lia.
Qed.

Lemma run_loadMore_page ps (k : nat) : forall v,
  allItems (run ps v (repeat LoadMore k)) = allItems v /\
  currentPage (run ps v (repeat LoadMore k)) =
    Z.min (currentPage v + Z.of_nat k) (Z.max (currentPage v) (totalPages ps v)).
Proof.
  induction k as [|k IH]; intros v.
  - simpl. split; [reflexivity|lia].
  - cbn [repeat run fold_left step].
    destruct (IH (loadMore ps v)) as [Hitems Hpage].
    unfold run in Hitems, Hpage. rewrite Hitems, Hpage.
    split; [reflexivity|].
    change (totalPages ps (loadMore ps v)) with (totalPages ps v).
    rewrite loadMore_page.
    destruct (Z.leb_spec (currentPage v + 1) (totalPages ps v)); lia.
Qed.

(** X4. Pressing load-more often enough shows everything: from a freshly
    mounted view, [n] presses with [totalPages <= n + 1] end on the last
    page, with the whole list on show and nothing left to load. *)
Theorem loadMore_repeated_shows_all ps (items : list T) (n : nat) (Hps : 0 < ps) :
  totalPages ps (mount items) <= Z.of_nat n + 1 ->
  let v := run ps (mount items) (repeat LoadMore n) in
  currentPage v = Z.max 1 (totalPages ps (mount items)) /\
  displayedItems ps v = items /\
  hasNextPage ps v = false /\
  remainingItems ps v = 0.
Proof.
  intros Hn v.
  destruct (run_loadMore_page ps n (mount items)) as [Hitems Hpage].
  fold v in Hitems, Hpage. cbn [mount allItems currentPage] in Hitems, Hpage.
  pose proof (totalPages_ceiling ps (mount items) Hps) as Hceil.
  cbn [mount allItems] in Hceil.
  pose proof (totalPages_nonneg ps (mount items) Hps) as Hnn.
  assert (currentPage v = Z.max 1 (totalPages ps (mount items))) as Hp by lia.
  assert (totalPages ps v = totalPages ps (mount items)) as Htp.
  { unfold totalPages. now rewrite Hitems. }
  assert (remainingItems ps v = 0) as Hrem.
  { rewrite remainingItems_eq by lia. rewrite Hitems. nia. }
  split; [exact Hp|]. split; [|split; [|exact Hrem]].
  - rewrite displayedItems_prefix by nia. rewrite Hitems.
    apply firstn_all2. nia.
  - destruct (hasNextPage ps v) eqn:Hh; [|reflexivity].
    apply hasNextPage_lt in Hh. lia.
Qed.

End WithItems.

Lemma loadMore_appends_witness :
  let v := run 5 (mount (seq 0 13)) [LoadMore] in
  displayedItems 5 v = seq 0 10 /\
  exists more,
    displayedItems 5 (loadMore 5 v) = seq 0 10 ++ more /\ length more = 3%nat.
Proof.
  intros v.
  destruct (loadMore_appends 5 (seq 0 13) [LoadMore] ltac:(lia)) as (more & Hm & Hl).
  split; [reflexivity|]. exists more. split; [exact Hm|].
  change (remainingItems 5 (run 5 (mount (seq 0 13)) [LoadMore])) with 3 in Hl.
  lia.
Defined.

Lemma hasNextPage_iff_items_remain_witness :
  let v := run 5 (mount (seq 0 13)) [LoadMore; LoadMore] in
  remainingItems 5 v = 0 /\ hasNextPage 5 v = false /\
  displayedItems 5 v = seq 0 13.
Proof.
  intros v.
  destruct (hasNextPage_iff_items_remain 5 (seq 0 13) [LoadMore; LoadMore]
              ltac:(lia)) as (_ & Hnext & Hall).
  split; [reflexivity|]. split; [|apply Hall; reflexivity].
  destruct (hasNextPage 5 v) eqn:Hh; [|reflexivity].
  apply Hnext in Hh. vm_compute in Hh. discriminate.
Defined.

Lemma loadMore_showLess_inverse_witness :
  let v := run 5 (mount (seq 0 13)) [LoadMore] in
  showLess (loadMore 5 v) = v /\ loadMore 5 (showLess v) = v.
Proof.
  intros v.
  destruct (loadMore_showLess_inverse 5 (seq 0 13) [LoadMore] ltac:(lia))
    as (Hup & _ & Hdown & _).
  split; [apply Hup; reflexivity|].
  apply Hdown; [reflexivity|]. vm_compute. discriminate.
Defined.

Lemma loadMore_repeated_shows_all_witness :
  let v := run 5 (mount (seq 0 13)) (repeat LoadMore 4) in
  currentPage v = 3 /\ displayedItems 5 v = seq 0 13.
Proof.
  intros v.
  destruct (loadMore_repeated_shows_all 5 (seq 0 13) 4 ltac:(lia))
    as (Hp & Hd & _).
  { vm_compute. discriminate. }
  split; [exact Hp|exact Hd].
Defined.

End PaginationMore.

(** ** To-do container: the other operations *)

Module TodosMore.
Import JsString JsStringFacts TrimFacts TrimMore IdFacts Effect Todos TodosFacts
  Invariants Samples.
#[local] Open Scope string_scope.

Implicit Types (s : TodoState) (l : list Todo) (todo : Todo).

Lemma filter_all {A} (p : A -> bool) (l : list A) :
  List.filter p l = l <-> Forall (fun x => p x = true) l.
Proof.
  induction l as [|x l IH]; simpl.
  - split; [constructor|reflexivity].
  - destruct (p x) eqn:Hx.
    + split.
      * intros [= H]. constructor; [exact Hx|now apply IH].
      * intros H. inversion H; subst. f_equal. now apply IH.
    + split.
      * intros H. pose proof (filter_sublist p l) as Hs. rewrite H in Hs.
        apply sublist_length in Hs. simpl in Hs. lia.
      * intros H. inversion H; subst. congruence.
Qed.

Lemma filter_unique_length {A} (key : A -> string) (id' : string) (l : list A) :
  List.NoDup (map key l) -> In id' (map key l) ->
  S (length (List.filter (fun x => negb (String.eqb (key x) id')) l)) = length l.
Proof.
  induction l as [|x l IH]; simpl; [tauto|]. intros Hnd Hin.
  apply List.NoDup_cons_iff in Hnd as [Hx Hnd].
  destruct (String.eqb_spec (key x) id') as [Heq|Hne]; simpl.
  - rewrite (filter_absent key); [reflexivity|]. now rewrite <- Heq.
  - f_equal. apply IH; [exact Hnd|]. destruct Hin as [Hin|Hin]; [contradiction|exact Hin].
Qed.

(** X6. [deleteTodo] takes out the records that carry the identifier and
    nothing else: the list left is the selection of the other records, no
    record with the identifier is left, and where identifiers are unique
    and the identifier is present the list is shorter by exactly one. *)
Theorem deleteTodo_removes id' s :
  let s' := stateAfter (deleteTodo id') s in
  completion (deleteTodo id') s = Returned tt /\
  Selects (fun todo => id todo <> id') (todos s) (todos s') /\
  ~ In id' (map id (todos s')) /\
  (length (todos s') <= length (todos s))%nat /\
  (List.NoDup (map id (todos s)) -> In id' (map id (todos s)) ->
   S (length (todos s')) = length (todos s)) /\
  filter s' = filter s /\ searchQuery s' = searchQuery s.
Proof.
  intros s'. subst s'. unfold stateAfter, completion, deleteTodo, setTodos, setTodosOf, update.
  cbn [fst snd todos filter searchQuery].
  split; [reflexivity|].
  assert (Selects (fun todo => id todo <> id') (todos s)
            (List.filter (fun todo => negb (String.eqb (id todo) id')) (todos s)))
    as Hsel.
  { apply SelectsFacts.Selects_filter. intros todo.
    rewrite negb_true_iff. destruct (String.eqb_spec (id todo) id'); split;
      congruence. }
  split; [exact Hsel|]. split; [|split; [|split; [|split]]].
  - intros Hin. apply in_map_iff in Hin as (todo & Hid & Hin).
    apply (SelectsFacts.Selects_In _ _ _ Hsel) in Hin as [_ Hne]. contradiction.
  - apply sublist_length, (SelectsFacts.Selects_sublist _ _ _ Hsel).
  - apply filter_unique_length.
  - reflexivity.
  - reflexivity.
Qed.

Lemma deleteTodo_removes_witness :
  length (todos (stateAfter (deleteTodo "1737244800000-b7c2m4n8p") sampleState))
    = 1%nat.
Proof.
  pose proof (deleteTodo_removes "1737244800000-b7c2m4n8p" sampleState)
    as (_ & _ & _ & _ & Hone & _).
  assert (S (length (todos (stateAfter (deleteTodo "1737244800000-b7c2m4n8p")
                              sampleState))) = 2%nat) as H.
  { apply Hone.
    - simpl. repeat constructor; simpl; intuition discriminate.
    - simpl. right. now left. }
  lia.
Defined.

(** X7. [editTodo] with a text that is not blank keeps every record in its
    place with its identifier, flag and creation time; the records with
    the identifier get the trimmed text and the current time, the others
    are untouched.  With a blank text nothing changes. *)
Theorem editTodo_replaces_text env id' newText s :
  let s' := stateAfter (editTodo env id' newText) s in
  completion (editTodo env id' newText) s = Returned tt /\
  filter s' = filter s /\ searchQuery s' = searchQuery s /\
  (trim newText = "" -> s' = s) /\
  (trim newText <> "" ->
   Forall2
     (fun old new =>
        id new = id old /\ completed new = completed old /\
        createdAt new = createdAt old /\
        (id old = id' -> text new = trim newText /\ updatedAt new = isoNow env) /\
        (id old <> id' -> new = old))
     (todos s) (todos s')).
Proof.
  intros s'. subst s'. unfold stateAfter, completion, editTodo.
  destruct (truthy (trim newText)) eqn:Ht; cbn [negb].
  - unfold setTodos, setTodosOf, update. cbn [fst snd todos filter searchQuery].
    repeat split; auto.
    + intros He. apply truthy_empty in He. congruence.
    + intros _. induction (todos s) as [|todo l IH]; simpl; constructor;
        [|exact IH].
      destruct (String.eqb_spec (id todo) id'); simpl; repeat split; auto;
        try contradiction; try congruence.
  - apply truthy_empty in Ht. unfold ret. cbn [fst snd].
    repeat split; auto. contradiction.
Qed.

Lemma editTodo_replaces_text_witness :
  stateAfter (editTodo laterEnv "1737244800000-b7c2m4n8p" "   ") sampleState
    = sampleState /\
  Forall2
    (fun old new =>
       id new = id old /\ completed new = completed old /\
       createdAt new = createdAt old /\
       (id old = "1737244800000-b7c2m4n8p" ->
        text new = "Buy oat milk" /\ updatedAt new = "2025-01-20T00:01:00.000Z") /\
       (id old <> "1737244800000-b7c2m4n8p" -> new = old))
    (todos sampleState)
    (todos (stateAfter (editTodo laterEnv "1737244800000-b7c2m4n8p"
                          "  Buy oat milk ") sampleState)).
Proof.
  pose proof (editTodo_replaces_text laterEnv "1737244800000-b7c2m4n8p"
                "  Buy oat milk " sampleState) as (_ & _ & _ & _ & Hedit).
  pose proof (editTodo_replaces_text laterEnv "1737244800000-b7c2m4n8p"
                "   " sampleState) as (_ & _ & _ & Hblank & _).
  split; [apply Hblank; reflexivity|].
  apply Hedit. discriminate.
Defined.

Lemma tidy_trim (text : string) : trim text <> "" -> tidy (trim text).
Proof. intros H. split; [apply trim_idem|exact H]. Qed.

Lemma Forall_map_cases {A} (P : A -> Prop) (test : A -> bool) (f : A -> A) (l : list A) :
  (forall x, P x -> P (f x)) -> Forall P l ->
  Forall P (map (fun x => if test x then f x else x) l).
Proof.
  intros Hf. induction 1; simpl; constructor; auto.
  destruct (test x); auto.
Qed.

Lemma Forall_filter_keep {A} (P : A -> Prop) (p : A -> bool) (l : list A) :
  Forall P l -> Forall P (List.filter p l).
Proof.
  induction 1; simpl; [constructor|]. destruct (p x); auto.
Qed.

(** X8. No operation of the container stores a blank or untrimmed text: if
    every text of the list is trimmed and not empty, the same holds after
    [addTodo], [toggleTodo], [deleteTodo], [editTodo] and
    [clearCompleted], whatever their arguments. *)
Theorem texts_stay_tidy env id' input s :
  todosTidy (todos s) ->
  todosTidy (todos (stateAfter (addTodo env input) s)) /\
  todosTidy (todos (stateAfter (toggleTodo env id') s)) /\
  todosTidy (todos (stateAfter (deleteTodo id') s)) /\
  todosTidy (todos (stateAfter (editTodo env id' input) s)) /\
  todosTidy (todos (stateAfter clearCompleted s)).
Proof.
  unfold todosTidy. intros Ht.
  unfold stateAfter, addTodo, toggleTodo, toggleTodoOf, deleteTodo, editTodo, clearCompleted,
    setTodos, setTodosOf, update, ret.
  split; [|split; [|split; [|split]]].
  - destruct (truthy (trim input)) eqn:Hi; cbn [negb snd todos]; [|exact Ht].
    constructor; [|exact Ht]. cbn [text]. apply tidy_trim.
    intros He. apply truthy_empty in He. congruence.
  - cbn [snd todos]. apply (Forall_map_cases _ _ (fun todo => _)); [|exact Ht].
    intros todo H. exact H.
  - cbn [snd todos]. now apply Forall_filter_keep.
  - destruct (truthy (trim input)) eqn:Hi; cbn [negb snd todos]; [|exact Ht].
    apply (Forall_map_cases _ _ (fun todo => _)); [|exact Ht].
    intros todo _. cbn [text]. apply tidy_trim.
    intros He. apply truthy_empty in He. congruence.
  - cbn [snd todos]. now apply Forall_filter_keep.
Qed.

Lemma texts_stay_tidy_witness :
  todosTidy (todos sampleState) /\
  todosTidy (todos (stateAfter (addTodo laterEnv "  Call the bank ") sampleState)) /\
  todosTidy (todos (stateAfter (editTodo laterEnv "1737244800000-b7c2m4n8p" " x ")
                      sampleState)).
Proof.
  assert (todosTidy (todos sampleState)) as Ht.
  { repeat constructor; discriminate. }
  split; [exact Ht|].
  pose proof (texts_stay_tidy laterEnv "1737244800000-b7c2m4n8p"
                "  Call the bank " sampleState Ht) as (Hadd & _).
  pose proof (texts_stay_tidy laterEnv "1737244800000-b7c2m4n8p"
                " x " sampleState Ht) as (_ & _ & _ & Hedit & _).
  split; [exact Hadd|exact Hedit].
Defined.

Lemma map_id_cases (test : Todo -> bool) (f : Todo -> Todo) l :
  (forall todo, id (f todo) = id todo) ->
  map id (map (fun todo => if test todo then f todo else todo) l) = map id l.
Proof.
  intros Hf. induction l as [|todo l IH]; simpl; [reflexivity|].
  rewrite IH. f_equal. destruct (test todo); auto.
Qed.

Lemma sublist_map_filter (p : Todo -> bool) l :
  sublist (map id (List.filter p l)) (map id l).
Proof.
  induction l as [|todo l IH]; simpl; [constructor|].
  destruct (p todo); simpl; now constructor.
Qed.

Lemma sublist_In {A} (l1 l2 : list A) (x : A) :
  sublist l1 l2 -> In x l1 -> In x l2.
Proof.
  induction 1; simpl; intuition.
Qed.

Lemma NoDup_sublist_ids (l1 l2 : list string) :
  sublist l1 l2 -> List.NoDup l2 -> List.NoDup l1.
Proof.
  induction 1 as [|x l1 l2 Hs IH|x l1 l2 Hs IH]; intros Hnd.
  - constructor.
  - apply List.NoDup_cons_iff in Hnd as [Hx Hnd]. constructor; [|auto].
    intros Hin. apply Hx. eapply sublist_In; eassumption.
  - apply List.NoDup_cons_iff in Hnd as [_ Hnd]. auto.
Qed.

(** X9. Identifiers are stable: [toggleTodo] and [editTodo] leave the
    sequence of identifiers as it is, [deleteTodo] and [clearCompleted]
    leave a subsequence of it, so none of the four introduces a duplicate;
    [addTodo] keeps identifiers unique whenever the identifier it
    generates is not in the list yet. *)
Theorem identifiers_stay_unique env id' input s :
  map id (todos (stateAfter (toggleTodo env id') s)) = map id (todos s) /\
  map id (todos (stateAfter (editTodo env id' input) s)) = map id (todos s) /\
  sublist (map id (todos (stateAfter (deleteTodo id') s))) (map id (todos s)) /\
  sublist (map id (todos (stateAfter clearCompleted s))) (map id (todos s)) /\
  (List.NoDup (map id (todos s)) ->
   List.NoDup (map id (todos (stateAfter (toggleTodo env id') s))) /\
   List.NoDup (map id (todos (stateAfter (editTodo env id' input) s))) /\
   List.NoDup (map id (todos (stateAfter (deleteTodo id') s))) /\
   List.NoDup (map id (todos (stateAfter clearCompleted s))) /\
   (~ In (generateId env) (map id (todos s)) ->
    List.NoDup (map id (todos (stateAfter (addTodo env input) s))))).
Proof.
  assert (map id (todos (stateAfter (toggleTodo env id') s)) = map id (todos s))
    as Htoggle.
  { unfold stateAfter, toggleTodo, toggleTodoOf, setTodos, setTodosOf, update. cbn [snd todos].
    now apply (map_id_cases _ (fun todo => _)). }
  assert (map id (todos (stateAfter (editTodo env id' input) s)) = map id (todos s))
    as Hedit.
  { unfold stateAfter, editTodo, setTodos, setTodosOf, update, ret.
    destruct (negb _); cbn [snd todos]; [reflexivity|].
    now apply (map_id_cases _ (fun todo => _)). }
  assert (sublist (map id (todos (stateAfter (deleteTodo id') s))) (map id (todos s)))
    as Hdelete by apply sublist_map_filter.
  assert (sublist (map id (todos (stateAfter clearCompleted s))) (map id (todos s)))
    as Hclear by apply sublist_map_filter.
  split; [exact Htoggle|]. split; [exact Hedit|].
  split; [exact Hdelete|]. split; [exact Hclear|].
  intros Hnd. rewrite Htoggle, Hedit.
  split; [exact Hnd|]. split; [exact Hnd|].
  split; [eapply NoDup_sublist_ids; eassumption|].
  split; [eapply NoDup_sublist_ids; eassumption|].
  intros Hfresh. unfold stateAfter, addTodo, setTodos, setTodosOf, update, ret.
  destruct (negb _); cbn [snd todos]; [exact Hnd|].
  simpl. constructor; assumption.
Qed.

Lemma identifiers_stay_unique_witness :
  List.NoDup (map id (todos sampleState)) /\
  List.NoDup (map id (todos (stateAfter (addTodo laterEnv "Call the bank")
                               sampleState))) /\
  List.NoDup (map id (todos (stateAfter clearCompleted sampleState))).
Proof.
  assert (List.NoDup (map id (todos sampleState))) as Hnd.
  { simpl. repeat constructor; simpl; intuition discriminate. }
  pose proof (identifiers_stay_unique laterEnv "x" "Call the bank" sampleState)
    as (_ & _ & _ & _ & H).
  destruct (H Hnd) as (_ & _ & _ & Hclear & Hadd).
  split; [exact Hnd|]. split; [|exact Hclear].
  apply Hadd. simpl. intuition discriminate.
Defined.

Lemma toggle_counts env id' l todo :
  List.NoDup (map id l) -> In todo l -> id todo = id' ->
  let l' := map (fun todo =>
                   if String.eqb (id todo) id'
                   then {| id := id todo; text := text todo;
                           completed := negb (completed todo);
                           createdAt := createdAt todo;
                           updatedAt := isoNow env |}
                   else todo) l in
  let act l := length (List.filter (fun t => negb (completed t)) l) in
  let com l := length (List.filter (fun t => completed t) l) in
  if completed todo
  then act l' = S (act l) /\ S (com l') = com l
  else S (act l') = act l /\ com l' = S (com l).
Proof.
  intros Hnd Hin Hid. cbv zeta.
  induction l as [|x l IH]; [contradiction|].
  simpl in Hnd. apply List.NoDup_cons_iff in Hnd as [Hx Hnd].
  destruct (String.eqb_spec (id x) id') as [Hxid|Hxid].
  - assert (x = todo) as ->.
    { destruct Hin as [H|H]; [exact H|]. exfalso. apply Hx.
      rewrite Hxid, <- Hid. now apply in_map. }
    cbn [map]. rewrite Hid, String.eqb_refl.
    rewrite (map_absent id) by now rewrite <- Hid.
    simpl. destruct (completed todo); simpl; auto.
  - destruct Hin as [H|H]; [congruence|].
    specialize (IH Hnd H). cbn [map].
    destruct (String.eqb_spec (id x) id'); [contradiction|].
    simpl. destruct (completed todo), (completed x); simpl; lia.
Qed.

(** X10. How the counts move: a create that is not blank adds one to [total]
    and to [active]; [clearCompleted] leaves [completed] at 0 and [total]
    at the old [active]; with unique identifiers, toggling a record moves
    exactly one unit between [active] and [completed] and keeps [total];
    deleting a record that is present lowers [total] by one. *)
Theorem stats_follow_operations env id' input s :
  (trim input <> "" ->
   stats (stateAfter (addTodo env input) s) =
     {| Stats.total := S (Stats.total (stats s));
        Stats.active := S (Stats.active (stats s));
        Stats.completed := Stats.completed (stats s) |}) /\
  stats (stateAfter clearCompleted s) =
    {| Stats.total := Stats.active (stats s);
       Stats.active := Stats.active (stats s);
       Stats.completed := 0 |} /\
  (List.NoDup (map id (todos s)) ->
   forall todo, In todo (todos s) -> id todo = id' ->
     let after := stats (stateAfter (toggleTodo env id') s) in
     Stats.total after = Stats.total (stats s) /\
     (if completed todo
      then Stats.active after = S (Stats.active (stats s)) /\
           S (Stats.completed after) = Stats.completed (stats s)
      else S (Stats.active after) = Stats.active (stats s) /\
           Stats.completed after = S (Stats.completed (stats s))) /\
     S (Stats.total (stats (stateAfter (deleteTodo id') s))) = Stats.total (stats s)).
Proof.
  split; [|split].
  - intros Hne. unfold stateAfter. rewrite addTodo_nonempty by assumption.
    reflexivity.
  - unfold stateAfter, clearCompleted, setTodos, setTodosOf, update, stats.
    cbn [snd todos Stats.total Stats.active Stats.completed].
    set (l := todos s).
    assert (List.filter (fun t => negb (completed t))
              (List.filter (fun todo => negb (completed todo)) l)
            = List.filter (fun todo => negb (completed todo)) l) as ->.
    { apply filter_all, List.Forall_forall. intros t Ht.
      now apply filter_In in Ht. }
    assert (List.filter (fun t => completed t)
              (List.filter (fun todo => negb (completed todo)) l) = []) as ->.
    { induction l as [|t l IH]; [reflexivity|]. simpl.
      destruct (completed t) eqn:Hc; simpl; [exact IH|]. now rewrite Hc. }
    reflexivity.
  - intros Hnd todo Hin Hid after. subst after.
    unfold stateAfter, toggleTodo, toggleTodoOf, deleteTodo, setTodos, setTodosOf, update, stats.
    cbn [snd todos Stats.total Stats.active Stats.completed].
    split; [now rewrite length_map|].
    split; [exact (toggle_counts env id' (todos s) todo Hnd Hin Hid)|].
    apply filter_unique_length; [exact Hnd|].
    rewrite <- Hid. now apply in_map.
Qed.

Lemma stats_follow_operations_witness :
  stats (stateAfter (addTodo laterEnv "Call the bank") sampleState) =
    {| Stats.total := 3; Stats.active := 2; Stats.completed := 1 |} /\
  Stats.completed
    (stats (stateAfter (toggleTodo laterEnv "1737244800000-b7c2m4n8p") sampleState))
    = 2%nat.
Proof.
  pose proof (stats_follow_operations laterEnv "1737244800000-b7c2m4n8p"
                "Call the bank" sampleState) as (Hadd & _ & Htoggle).
  split; [apply Hadd; discriminate|].
  assert (List.NoDup (map id (todos sampleState))) as Hnd.
  { simpl. repeat constructor; simpl; intuition discriminate. }
  destruct (Htoggle Hnd
              {| id := "1737244800000-b7c2m4n8p";
                 text := "Buy MILK";
                 completed := false;
                 createdAt := "2025-01-19T00:00:00.000Z";
                 updatedAt := "2025-01-19T00:00:00.000Z" |})
    as (_ & Hmove & _).
  { simpl. right. now left. }
  { reflexivity. }
  simpl completed in Hmove. destruct Hmove as [_ Hc]. exact Hc.
Defined.

End TodosMore.

(** ** The components that call the to-do container *)

Module ComponentsMore.
Import JsString JsStringFacts TrimFacts TrimMore Effect Todos TodosFacts TodosMore
  Samples.
#[local] Open Scope string_scope.

Implicit Types (s : TodoState) (todo : Todo).

(** X11. The filter of the page is redundant: applied to the list the hook has
    filtered already, it returns that list, for every list, selector and
    query.  In particular the page's guard for a blank query does not
    bring back what the hook's search has dropped. *)
Theorem page_filter_is_redundant s :
  Index.filteredTodos s = filteredTodos s.
Proof.
  unfold Index.filteredTodos. cbv zeta.
  assert (Forall (fun todo =>
                    match filter s with
                    | active => negb (completed todo)
                    | completed_ => completed todo
                    | all => true
                    end = true /\
                    includes (toLowerCase (text todo))
                             (toLowerCase (searchQuery s)) = true)
                 (filteredTodos s)) as Hall.
  { apply List.Forall_forall. intros todo Hin. unfold filteredTodos in Hin.
    apply filter_In in Hin as [Hin Hq]. apply filter_In in Hin as [_ Hf].
    split; assumption. }
  assert (List.filter
            (fun todo =>
               match filter s with
               | active => negb (completed todo)
               | completed_ => completed todo
               | all => true
               end) (filteredTodos s) = filteredTodos s) as ->.
  { apply filter_all. eapply Forall_impl; [exact Hall|].
    intros todo [H _]. exact H. }
  apply filter_all. eapply Forall_impl; [exact Hall|].
  intros todo [_ H]. simpl. rewrite H. now destruct (negb _).
Qed.

(** A query of white space only is not treated as empty: it hides every
    record whose text does not hold it, also on the page. *)
Example blank_query_still_filters :
  Index.filteredTodos
    {| todos := todos sampleState; filter := all; searchQuery := "  " |} = [].
Proof. reflexivity. Qed.

(** X12. The badge of each selector of [TodoFilter] is the number of records
    that selector shows while the search query is empty. *)
Theorem filter_badge_counts_view s (f : FilterType) :
  TodoFilter.getCount (Index.filterCounts s) f =
    length (filteredTodos {| todos := todos s; filter := f; searchQuery := "" |}).
Proof.
  unfold filteredTodos. cbn [todos filter searchQuery toLowerCase].
  assert (forall l : list Todo,
             List.filter (fun todo => includes (toLowerCase (text todo)) "") l = l)
    as Hq.
  { intros l. apply filter_all, List.Forall_forall. intros todo _.
    apply includes_empty. }
  rewrite Hq. unfold Index.filterCounts, stats. cbv zeta.
  destruct f; cbn [TodoFilter.getCount TodoFilter.Counts.all
                   TodoFilter.Counts.active TodoFilter.Counts.completed
                   Stats.total Stats.active Stats.completed].
  - f_equal. symmetry. apply filter_all, List.Forall_forall. reflexivity.
  - reflexivity.
  - reflexivity.
Qed.

(** X13. [TodoStats] offers the clear button exactly when [clearCompleted]
    would remove something, and renders nothing exactly when the list is
    empty. *)
Theorem clear_button_iff_effect s :
  (TodoStats.clearButtonShown (stats s) = true <->
   todos (stateAfter clearCompleted s) <> todos s) /\
  (TodoStats.rendered (stats s) = false <-> todos s = []).
Proof.
  unfold TodoStats.clearButtonShown, TodoStats.rendered, stats.
  cbn [Stats.total Stats.completed].
  unfold stateAfter, clearCompleted, setTodos, setTodosOf, update. cbn [snd todos].
  set (l := todos s). split.
  - rewrite andb_true_iff, negb_true_iff, Nat.eqb_neq, Nat.ltb_lt.
    rewrite filter_all. split.
    + intros [_ Hc] Hall.
      destruct (List.filter (fun t => completed t) l) as [|t rest] eqn:Hf;
        [simpl in Hc; lia|].
      assert (In t (List.filter (fun t => completed t) l)) as Hin
          by (rewrite Hf; now left).
      apply filter_In in Hin as [Hin Ht].
      rewrite List.Forall_forall in Hall. specialize (Hall t Hin).
      rewrite Ht in Hall. discriminate.
    + intros Hnot.
      assert (exists t, In t l /\ completed t = true) as (t & Hin & Ht).
      { clear -Hnot. induction l as [|x l IH].
        - exfalso. apply Hnot. constructor.
        - destruct (completed x) eqn:Hx; [exists x; split; [now left|exact Hx]|].
          destruct IH as (t & Hin & Ht).
          + intros Hall. apply Hnot. constructor; [now rewrite Hx|exact Hall].
          + exists t. split; [now right|exact Ht]. }
      assert (In t (List.filter (fun t => completed t) l)) as Hf
          by (apply filter_In; auto).
      split; [destruct l; [contradiction|simpl; lia]|].
      destruct (List.filter _ l); [contradiction|simpl; lia].
  - rewrite negb_false_iff, Nat.eqb_eq. destruct l; simpl; split; congruence.
Qed.

(** X14. Submitting the input has the effect of [addTodo] on the raw value:
    the trimming of the component and the trimming of the container
    amount to one.  The input is emptied exactly when a record was added;
    on a blank value nothing happens and the input keeps its value; no
    other key than Enter submits. *)
Theorem input_submit_adds env value s :
  stateAfter (TodoInput.handleSubmit (addTodo env) value) s
    = stateAfter (addTodo env value) s /\
  (trim value = "" ->
   TodoInput.handleSubmit (addTodo env) value s = (Returned value, s)) /\
  (trim value <> "" ->
   completion (TodoInput.handleSubmit (addTodo env) value) s = Returned "" /\
   exists newTodo,
     todos (stateAfter (TodoInput.handleSubmit (addTodo env) value) s)
       = newTodo :: todos s /\
     text newTodo = trim value) /\
  TodoInput.handleKeyDown (addTodo env) "Enter" value s
    = TodoInput.handleSubmit (addTodo env) value s /\
  (forall key, key <> "Enter" ->
               TodoInput.handleKeyDown (addTodo env) key value s = (Returned value, s)).
Proof.
  assert (forall key, key <> "Enter" ->
            TodoInput.handleKeyDown (addTodo env) key value s = (Returned value, s))
    as Hkey.
  { intros key Hk. unfold TodoInput.handleKeyDown.
    destruct (String.eqb_spec key "Enter"); [contradiction|reflexivity]. }
  assert (TodoInput.handleKeyDown (addTodo env) "Enter" value s
          = TodoInput.handleSubmit (addTodo env) value s) as Henter by reflexivity.
  rewrite Henter. clear Henter.
  unfold TodoInput.handleSubmit, stateAfter, completion, bind, ret. cbv zeta.
  destruct (string_dec (trim value) "") as [He|Hne].
  - assert (truthy (trim value) = false) as Ht by now apply truthy_empty.
    rewrite Ht, (addTodo_empty env value s He).
    split; [reflexivity|]. split; [reflexivity|]. split; [contradiction|].
    split; [reflexivity|exact Hkey].
  - assert (truthy (trim value) = true) as Ht.
    { destruct (truthy (trim value)) eqn:E; [reflexivity|].
      apply truthy_empty in E. contradiction. }
    rewrite Ht.
    assert (trim (trim value) <> "") as Hne2 by now rewrite trim_idem.
    rewrite (addTodo_nonempty env (trim value) s Hne2),
      (addTodo_nonempty env value s Hne), trim_idem.
    cbn [fst snd todos].
    split; [reflexivity|]. split; [contradiction|]. split; [|split].
    + intros _. split; [reflexivity|]. eexists. split; reflexivity.
    + reflexivity.
    + exact Hkey.
Qed.

Lemma input_submit_adds_witness :
  TodoInput.handleSubmit (addTodo laterEnv) "   " sampleState
    = (Returned "   ", sampleState) /\
  completion (TodoInput.handleSubmit (addTodo laterEnv) " Call the bank ") sampleState
    = Returned "" /\
  TodoInput.handleKeyDown (addTodo laterEnv) "Tab" " Call the bank " sampleState
    = (Returned " Call the bank ", sampleState).
Proof.
  pose proof (input_submit_adds laterEnv "   " sampleState) as (_ & Hblank & _).
  pose proof (input_submit_adds laterEnv " Call the bank " sampleState)
    as (_ & _ & Hadd & _ & Hkey).
  split; [apply Hblank; reflexivity|].
  split; [apply Hadd; discriminate|]. apply Hkey. discriminate.
Defined.

Lemma editTodo_returns env id' newText s :
  fst (editTodo env id' newText s) = Returned tt.
Proof. unfold editTodo. now destruct (negb _). Qed.

Lemma handleSaveEdit_cases env todo (st : TodoItem.state) s :
  let saved := TodoItem.handleSaveEdit (editTodo env) todo st in
  completion saved s =
    Returned {| TodoItem.isEditing := false;
                TodoItem.editValue := TodoItem.editValue st |} /\
  (trim (TodoItem.editValue st) = "" \/ trim (TodoItem.editValue st) = text todo ->
   stateAfter saved s = s) /\
  (trim (TodoItem.editValue st) <> "" ->
   trim (TodoItem.editValue st) <> text todo ->
   stateAfter saved s
     = stateAfter (editTodo env (id todo) (TodoItem.editValue st)) s).
Proof.
  intros saved. subst saved.
  unfold TodoItem.handleSaveEdit, stateAfter, completion, bind, ret. cbv zeta.
  set (v := trim (TodoItem.editValue st)).
  assert (editTodo env (id todo) v s
          = editTodo env (id todo) (TodoItem.editValue st) s) as Hsame.
  { unfold editTodo. subst v. cbv zeta. now rewrite trim_idem. }
  destruct (truthy v) eqn:Ht; destruct (String.eqb_spec v (text todo)) as [He|Hne];
    cbn [andb negb fst snd].
  - split; [reflexivity|]. split; [reflexivity|]. intros _ Hd. contradiction.
  - rewrite Hsame.
    assert (editTodo env (id todo) (TodoItem.editValue st) s
            = (Returned tt, snd (editTodo env (id todo) (TodoItem.editValue st) s)))
      as Hret.
    { rewrite <- (editTodo_returns env (id todo) (TodoItem.editValue st) s).
      apply surjective_pairing. }
    rewrite Hret. cbn [fst snd]. split; [reflexivity|]. split; [|reflexivity].
    intros [H|H]; [|contradiction]. apply truthy_empty in H. congruence.
  - split; [reflexivity|]. split; [reflexivity|]. intros _ Hd. contradiction.
  - split; [reflexivity|]. split; [reflexivity|].
    intros Hv _. apply truthy_empty in Ht. contradiction.
Qed.

(** X15. Saving an edit that is blank or equal to the stored text leaves the
    list exactly as it is (the modification time is not refreshed);
    any other edit is [editTodo] with the typed value; either way the item
    leaves the edit mode.  Enter saves; Escape restores the stored text
    and calls nothing. *)
Theorem item_save_edit env todo (st : TodoItem.state) s :
  let saved := TodoItem.handleSaveEdit (editTodo env) todo st in
  completion saved s =
    Returned {| TodoItem.isEditing := false;
                TodoItem.editValue := TodoItem.editValue st |} /\
  (trim (TodoItem.editValue st) = "" \/ trim (TodoItem.editValue st) = text todo ->
   stateAfter saved s = s) /\
  (trim (TodoItem.editValue st) <> "" ->
   trim (TodoItem.editValue st) <> text todo ->
   stateAfter saved s
     = stateAfter (editTodo env (id todo) (TodoItem.editValue st)) s) /\
  TodoItem.handleEditKeyDown (editTodo env) "Enter" todo st s = saved s /\
  TodoItem.handleEditKeyDown (editTodo env) "Escape" todo st s
    = (Returned {| TodoItem.isEditing := false;
                   TodoItem.editValue := text todo |}, s).
Proof.
  intros saved.
  destruct (handleSaveEdit_cases env todo st s) as (H1 & H2 & H3).
  split; [exact H1|]. split; [exact H2|]. split; [exact H3|].
  split; reflexivity.
Qed.

Lemma item_save_edit_witness :
  let todo := {| id := "1737244800000-b7c2m4n8p";
                 text := "Buy MILK";
                 completed := false;
                 createdAt := "2025-01-19T00:00:00.000Z";
                 updatedAt := "2025-01-19T00:00:00.000Z" |} in
  stateAfter (TodoItem.handleSaveEdit (editTodo laterEnv) todo
                {| TodoItem.isEditing := true; TodoItem.editValue := " Buy MILK " |})
             sampleState = sampleState /\
  map text (todos (stateAfter (TodoItem.handleSaveEdit (editTodo laterEnv) todo
                     {| TodoItem.isEditing := true; TodoItem.editValue := "Buy tea" |})
                  sampleState)) = ["Water the plants"; "Buy tea"].
Proof.
  intros todo.
  pose proof (item_save_edit laterEnv todo
                {| TodoItem.isEditing := true; TodoItem.editValue := " Buy MILK " |}
                sampleState) as (_ & Hsame & _).
  pose proof (item_save_edit laterEnv todo
                {| TodoItem.isEditing := true; TodoItem.editValue := "Buy tea" |}
                sampleState) as (_ & _ & Hedit & _).
  split; [apply Hsame; right; reflexivity|].
  rewrite Hedit by discriminate. reflexivity.
Defined.

End ComponentsMore.

(** ** Note container: the other operations *)

Module NotesMore.
Import JsString JsStringFacts TrimFacts TrimMore Effect Notes NotesSearch
  NotesSearchFacts Invariants Samples.
#[local] Open Scope string_scope.

Implicit Types (notes : list Note) (note : Note).

Lemma addNote_nonempty env content notes :
  trim content <> "" ->
  addNote env content notes =
    (Returned {| id := generateId env;
                 content := trim content;
                 date := getTodayDate env;
                 createdAt := isoNow env;
                 updatedAt := isoNow env;
                 convertedToTodo := false |},
     {| id := generateId env;
        content := trim content;
        date := getTodayDate env;
        createdAt := isoNow env;
        updatedAt := isoNow env;
        convertedToTodo := false |} :: notes).
Proof.
  intros H. unfold addNote.
  destruct (truthy (trim content)) eqn:Ht; [reflexivity|].
  apply truthy_empty in Ht. contradiction.
Qed.

(** *** The order the render gives the notes *)










(** A note the hook holds with a later creation time (the clock was set
    back, or the note came from another page) stays in front of the new
    one once the render has sorted the array. *)
Example later_note_stays_in_front :
  let newNote := {| id := generateId sampleEnv;
                    Notes.content := "Beli susu";
                    date := "2025-01-20";
                    createdAt := isoNow sampleEnv;
                    updatedAt := isoNow sampleEnv;
                    convertedToTodo := false |} in
  addNote sampleEnv "Beli susu" [eveningNote]
    = (Returned newNote, [newNote; eveningNote]) /\
  NotesOrder.allNotes [newNote; eveningNote] = Some [eveningNote; newNote] /\
  getTodayNotes sampleEnv [eveningNote; newNote] = [eveningNote; newNote].
Proof. repeat split; reflexivity. Qed.

Lemma parseDate_length (s : string) (d : Z * Z * Z) :
  parseDate s = Some d -> String.length s = 10%nat.
Proof.
  unfold parseDate. intros H.
  destruct s as [|y1 [|y2 [|y3 [|y4 [|h1 [|m1 [|m2 [|h2 [|d1 [|d2 [|]]]]]]]]]]];
    try (cbv beta iota in H; discriminate H).
  reflexivity.
Qed.

(** X17. The date [getTodayDate] writes reads back: under a calendar clock it
    is ten characters [YYYY-MM-DD], zero padded, that denote the year, the
    month (counted from 1) and the day of the clock. *)
Theorem getTodayDate_reads_back env :
  calendarEnv env = true ->
  String.length (getTodayDate env) = 10%nat /\
  parseDate (getTodayDate env) =
    Some (Z.of_N (localYear env), (Z.of_N (localMonth env) + 1)%Z,
          Z.of_N (localDate env)) /\
  validDate (getTodayDate env) = true.
Proof.
  intros Hc. pose proof (getTodayDate_parses env Hc) as Hp.
  split; [eapply parseDate_length, Hp|]. split; [exact Hp|].
  now apply getTodayDate_valid.
Qed.

Lemma getTodayDate_reads_back_witness :
  getTodayDate {| dateNow := 0; isoNow := ""; localYear := 2026;
                  localMonth := 1; localDate := 7; randomBase36 := "" |}
    = "2026-02-07" /\
  parseDate (getTodayDate sampleEnv) = Some (2025, 1, 20)%Z.
Proof.
  split; [reflexivity|].
  apply (getTodayDate_reads_back sampleEnv). reflexivity.
Defined.

Lemma map_fields_cases {B} (proj : Note -> B) (test : Note -> bool)
    (f : Note -> Note) notes :
  (forall note, proj (f note) = proj note) ->
  map proj (map (fun note => if test note then f note else note) notes)
    = map proj notes.
Proof.
  intros Hf. induction notes as [|note notes IH]; simpl; [reflexivity|].
  rewrite IH. f_equal. destruct (test note); auto.
Qed.

(** X18. What the note container never changes: [updateNote] and
    [markAsConverted] keep every note in its place with its identifier,
    its date and its creation time; no operation stores a blank or
    untrimmed content; [deleteNote] leaves the selection of the notes with
    another identifier. *)
Theorem notes_keep_their_shape env id' input notes :
  let key note := (id note, date note, createdAt note) in
  map key (stateAfter (updateNote env id' input) notes) = map key notes /\
  map key (stateAfter (markAsConverted env id') notes) = map key notes /\
  map content (stateAfter (markAsConverted env id') notes) = map content notes /\
  Selects (fun note => id note <> id') notes (stateAfter (deleteNote id') notes) /\
  (notesTidy notes ->
   notesTidy (stateAfter (addNote env input) notes) /\
   notesTidy (stateAfter (updateNote env id' input) notes) /\
   notesTidy (stateAfter (deleteNote id') notes) /\
   notesTidy (stateAfter (markAsConverted env id') notes)).
Proof.
  intros key.
  unfold stateAfter, addNote, updateNote, deleteNote, markAsConverted, setNotes, setNotesOf,
    update, bind, ret, throw.
  split; [|split; [|split; [|split]]].
  - destruct (negb _); cbn [snd]; [reflexivity|].
    now apply (map_fields_cases key _ (fun note => _)).
  - cbn [snd]. now apply (map_fields_cases key _ (fun note => _)).
  - cbn [snd]. now apply (map_fields_cases content _ (fun note => _)).
  - cbn [snd]. apply SelectsFacts.Selects_filter. intros note.
    rewrite negb_true_iff.
    destruct (String.eqb_spec (id note) id'); split; congruence.
  - unfold notesTidy. intros Ht.
    split; [|split; [|split]].
    + destruct (truthy (trim input)) eqn:Hi; cbn [negb snd]; [|exact Ht].
      constructor; [|exact Ht]. cbn [content]. apply TodosMore.tidy_trim.
      intros He. apply truthy_empty in He. congruence.
    + destruct (truthy (trim input)) eqn:Hi; cbn [negb snd]; [|exact Ht].
      apply (TodosMore.Forall_map_cases _ _ (fun note => _)); [|exact Ht].
      intros note _. cbn [content]. apply TodosMore.tidy_trim.
      intros He. apply truthy_empty in He. congruence.
    + cbn [snd]. now apply TodosMore.Forall_filter_keep.
    + cbn [snd]. apply (TodosMore.Forall_map_cases _ _ (fun note => _)); [|exact Ht].
      intros note H. exact H.
Qed.

Lemma notes_keep_their_shape_witness :
  notesTidy [mondayNote; sundayNote] /\
  notesTidy (stateAfter (updateNote laterEnv "1737331200000-k3x9q1z7a" " Rapat jam 11 ")
               [mondayNote; sundayNote]) /\
  map date (stateAfter (updateNote laterEnv "1737331200000-k3x9q1z7a" " Rapat jam 11 ")
              [mondayNote; sundayNote]) = ["2025-01-20"; "2025-01-19"].
Proof.
  assert (notesTidy [mondayNote; sundayNote]) as Ht.
  { repeat constructor; discriminate. }
  pose proof (notes_keep_their_shape laterEnv "1737331200000-k3x9q1z7a"
                " Rapat jam 11 " [mondayNote; sundayNote]) as (Hkey & _ & _ & _ & Htidy).
  destruct (Htidy Ht) as (_ & Hupd & _).
  split; [exact Ht|]. split; [exact Hupd|].
  apply (f_equal (map (fun k => snd (fst k)))) in Hkey.
  rewrite !map_map in Hkey. exact Hkey.
Defined.

(** X19. [markAsConverted] raises the flag of the notes with the identifier
    and of no other; it never lowers a flag, and marking again changes no
    flag. *)
Theorem markAsConverted_raises_flag env env' id' notes :
  let notes' := stateAfter (markAsConverted env id') notes in
  Forall2
    (fun old new =>
       (id old = id' -> convertedToTodo new = true /\ updatedAt new = isoNow env) /\
       (id old <> id' -> new = old) /\
       (convertedToTodo old = true -> convertedToTodo new = true))
    notes notes' /\
  map convertedToTodo (stateAfter (markAsConverted env' id') notes')
    = map convertedToTodo notes'.
Proof.
  intros notes'. subst notes'.
  unfold stateAfter, markAsConverted, setNotes, setNotesOf, update. cbn [snd].
  split.
  - induction notes as [|note notes IH]; simpl; constructor; [|exact IH].
    destruct (String.eqb_spec (id note) id'); simpl; repeat split; auto;
      try contradiction; try congruence.
  - induction notes as [|note notes IH]; simpl; [reflexivity|].
    rewrite IH. f_equal.
    destruct (String.eqb_spec (id note) id') as [He|Hne]; simpl.
    + now rewrite He, String.eqb_refl.
    + destruct (String.eqb_spec (id note) id'); [contradiction|reflexivity].
Qed.




Lemma truthy_toLowerCase (s : string) : truthy (toLowerCase s) = truthy s.
Proof. now destruct s. Qed.

(** X21. The search does not depend on the case of the query nor on white
    space around it, in any time zone. *)
Theorem search_ignores_case_and_margins zone notes (searchQuery : string) :
  filteredNotes zone notes (trim searchQuery)
    = filteredNotes zone notes searchQuery /\
  filteredNotes zone notes (toLowerCase searchQuery)
    = filteredNotes zone notes searchQuery.
Proof.
  unfold filteredNotes. split.
  - rewrite trim_idem. rewrite (trim_toLowerCase (trim searchQuery)), trim_idem.
    now rewrite <- trim_toLowerCase.
  - rewrite (trim_toLowerCase searchQuery), truthy_toLowerCase.
    rewrite toLowerCase_idem. now rewrite trim_toLowerCase.
Qed.

End NotesMore.

(** ** The note form and the page *)

Module FormMore.
Import JsString JsStringFacts TrimFacts TrimMore Effect Handler Samples.
#[local] Open Scope string_scope.

Implicit Types (f : NoteForm.state) (s : Index.state).

Lemma truthy_nonempty (t : string) : t <> "" -> truthy t = true.
Proof. destruct t; [contradiction|reflexivity]. Qed.

(** X23. The save button of the note form never raises the error of [addNote]:
    the form checks the content first.  On a blank content nothing
    changes; otherwise the note is added with the trimmed content, the
    form is emptied and closed, and [isSubmitting] is back to false. *)
Theorem form_save_note env f s :
  completion (Index.saveNote env) (f, s) = Returned tt /\
  (trim (NoteForm.content f) = "" ->
   stateAfter (Index.saveNote env) (f, s) = (f, s)) /\
  (trim (NoteForm.content f) <> "" ->
   exists newNote,
     Notes.addNote env (NoteForm.content f) (Index.notes s)
       = (Returned newNote, newNote :: Index.notes s) /\
     Notes.content newNote = trim (NoteForm.content f) /\
     stateAfter (Index.saveNote env) (f, s) =
       ({| NoteForm.content := ""; NoteForm.isSubmitting := false |},
        Index.closed s (Index.todoState s) (newNote :: Index.notes s))).
Proof.
  unfold completion, stateAfter, Index.saveNote, NoteForm.handleAddNote.
  destruct (string_dec (trim (NoteForm.content f)) "") as [He|Hne].
  - assert (truthy (trim (NoteForm.content f)) = false) as Ht
        by now apply truthy_empty.
    rewrite Ht. cbn [negb]. split; [reflexivity|]. split; [reflexivity|].
    contradiction.
  - rewrite (truthy_nonempty _ Hne). cbn [negb].
    unfold bind, tryFinally, NoteForm.parent, NoteForm.setIsSubmitting,
      NoteForm.setContent, zoom, update, Index.handleAddNote, Index.onNotes,
      Index.closeNoteForm, Index.setIsNoteFormOpen, Index.setEditingNote, bind,
      ret, zoom, update.
    cbn [snd fst Index.notes]. rewrite (NotesMore.addNote_nonempty env _ _ Hne).
    cbn. split; [reflexivity|]. split; [contradiction|].
    intros _. eexists. split; [reflexivity|]. split; reflexivity.
Qed.

Lemma form_save_note_witness :
  stateAfter (Index.saveNote sampleEnv)
    ({| NoteForm.content := "   "; NoteForm.isSubmitting := false |},
     {| Index.todoState := sampleState; Index.notes := [sundayNote];
        Index.currentPage := 1; Index.isNoteFormOpen := true;
        Index.editingNote := None |})
  = ({| NoteForm.content := "   "; NoteForm.isSubmitting := false |},
     {| Index.todoState := sampleState; Index.notes := [sundayNote];
        Index.currentPage := 1; Index.isNoteFormOpen := true;
        Index.editingNote := None |}) /\
  exists newNote,
    Notes.content newNote = "Beli susu" /\
    Index.notes (snd (stateAfter (Index.saveNote sampleEnv)
      ({| NoteForm.content := " Beli susu "; NoteForm.isSubmitting := false |},
       {| Index.todoState := sampleState; Index.notes := [sundayNote];
          Index.currentPage := 1; Index.isNoteFormOpen := true;
          Index.editingNote := None |}))) = [newNote; sundayNote].
Proof.
  split.
  - apply form_save_note. reflexivity.
  - destruct (form_save_note sampleEnv
                {| NoteForm.content := " Beli susu "; NoteForm.isSubmitting := false |}
                {| Index.todoState := sampleState; Index.notes := [sundayNote];
                   Index.currentPage := 1; Index.isNoteFormOpen := true;
                   Index.editingNote := None |}) as (_ & _ & Hadd).
    destruct Hadd as (newNote & _ & Hc & Hs); [discriminate|].
    exists newNote. split; [exact Hc|]. now rewrite Hs.
Defined.

Lemma updateNote_returns env id' content notes :
  trim content <> "" ->
  Notes.updateNote env id' content notes
    = (Returned tt, snd (Notes.updateNote env id' content notes)).
Proof.
  intros Hne. unfold Notes.updateNote. now rewrite (truthy_nonempty _ Hne).
Qed.

(** X24. The save button of the edit mode never raises the error of
    [updateNote] either.  Without a note under edit or with a blank
    content nothing changes; otherwise the notes become those
    [updateNote] leaves for the identifier under edit and the typed
    content, and the form is emptied and closed. *)
Theorem form_save_edit env f s :
  completion (Index.saveEdit env) (f, s) = Returned tt /\
  (Index.editingNote s = None \/ trim (NoteForm.content f) = "" ->
   stateAfter (Index.saveEdit env) (f, s) = (f, s)) /\
  (forall id' shown,
     Index.editingNote s = Some (id', shown) ->
     trim (NoteForm.content f) <> "" ->
     stateAfter (Index.saveEdit env) (f, s) =
       ({| NoteForm.content := ""; NoteForm.isSubmitting := false |},
        Index.closed s (Index.todoState s)
          (stateAfter (Notes.updateNote env id' (NoteForm.content f))
                      (Index.notes s)))).
Proof.
  unfold completion, stateAfter, Index.saveEdit, NoteForm.handleEditNote.
  destruct (Index.editingNote s) as [[id0 shown0]|] eqn:He.
  - destruct (string_dec (trim (NoteForm.content f)) "") as [Hb|Hne].
    + assert (truthy (trim (NoteForm.content f)) = false) as Ht
          by now apply truthy_empty.
      rewrite Ht. cbn [negb]. split; [reflexivity|]. split; [reflexivity|].
      intros ? ? _ Hc. contradiction.
    + rewrite (truthy_nonempty _ Hne). cbn [negb].
      unfold bind, tryFinally, NoteForm.parent, NoteForm.setIsSubmitting,
        NoteForm.setContent, zoom, update, Index.handleSaveEditNote, Index.onNotes,
        Index.closeNoteForm, Index.setIsNoteFormOpen, Index.setEditingNote, bind,
        ret, zoom, update.
      cbn [snd fst Index.notes].
      rewrite (updateNote_returns env id0 _ _ Hne). cbn.
      split; [reflexivity|]. split.
      * intros [H|H]; [discriminate|contradiction].
      * intros id' shown [= <- <-] _. reflexivity.
  - split; [reflexivity|]. split; [reflexivity|]. intros ? ? H. discriminate.
Qed.

Lemma form_save_edit_witness :
  let page := {| Index.todoState := sampleState;
                 Index.notes := [mondayNote; sundayNote];
                 Index.currentPage := 1; Index.isNoteFormOpen := true;
                 Index.editingNote :=
                   Some ("1737331200000-k3x9q1z7a", "Rapat tim jam 10") |} in
  map Notes.content
      (Index.notes (snd (stateAfter (Index.saveEdit laterEnv)
         ({| NoteForm.content := " Rapat jam 11 "; NoteForm.isSubmitting := false |},
          page))))
    = ["Rapat jam 11"; "Belanja mingguan"].
Proof.
  intros page.
  destruct (form_save_edit laterEnv
              {| NoteForm.content := " Rapat jam 11 "; NoteForm.isSubmitting := false |}
              page) as (_ & _ & Hedit).
  rewrite (Hedit _ _ eq_refl) by discriminate. reflexivity.
Defined.

Lemma convertToTodo_cases env f s :
  let after := stateAfter (Index.convertToTodo env) (f, s) in
  completion (Index.convertToTodo env) (f, s) = Returned tt /\
  Index.notes (snd after) = Index.notes s /\
  Index.todoState (snd after)
    = stateAfter (Todos.addTodo env (NoteForm.content f)) (Index.todoState s) /\
  (trim (NoteForm.content f) = "" -> after = (f, s)) /\
  (trim (NoteForm.content f) <> "" ->
   after = ({| NoteForm.content := ""; NoteForm.isSubmitting := false |},
            Index.closed s (Index.todoState (snd after)) (Index.notes s))).
Proof.
  intros after. subst after.
  unfold completion, stateAfter, Index.convertToTodo, NoteForm.handleConvertToTodo.
  destruct (string_dec (trim (NoteForm.content f)) "") as [Hb|Hne].
  - assert (truthy (trim (NoteForm.content f)) = false) as Ht
        by now apply truthy_empty.
    rewrite Ht. cbn [negb ret fst snd].
    rewrite (TodosFacts.addTodo_empty env _ _ Hb). cbn [snd].
    split; [reflexivity|]. split; [reflexivity|]. split; [reflexivity|].
    split; [reflexivity|contradiction].
  - rewrite (truthy_nonempty _ Hne). cbn [negb].
    unfold bind, tryFinally, NoteForm.parent, NoteForm.setIsSubmitting,
      NoteForm.setContent, zoom, update, Index.handleConvertNoteToTodo,
      Index.onTodos, Index.closeNoteForm, Index.setIsNoteFormOpen,
      Index.setEditingNote, bind, ret, zoom, update.
    cbn [snd fst Index.todoState].
    rewrite (TodosFacts.addTodo_nonempty env _ _ Hne). cbn.
    split; [reflexivity|]. split; [reflexivity|]. split; [reflexivity|].
    split; [contradiction|reflexivity].
Qed.

(** X25. Turning the content of the form into a to-do calls [addTodo] and
    nothing of the note container: the notes, and with them every
    [convertedToTodo] flag, are as before.  Ctrl+Enter and Cmd+Enter do
    what the button does, Enter alone does nothing; on a blank content
    nothing changes. *)
Theorem form_convert_to_todo env f s :
  let after := stateAfter (Index.convertToTodo env) (f, s) in
  completion (Index.convertToTodo env) (f, s) = Returned tt /\
  Index.notes (snd after) = Index.notes s /\
  Index.todoState (snd after)
    = stateAfter (Todos.addTodo env (NoteForm.content f)) (Index.todoState s) /\
  (trim (NoteForm.content f) = "" -> after = (f, s)) /\
  (trim (NoteForm.content f) <> "" ->
   after = ({| NoteForm.content := ""; NoteForm.isSubmitting := false |},
            Index.closed s (Index.todoState (snd after)) (Index.notes s))) /\
  (forall ctrlKey metaKey, ctrlKey || metaKey = true ->
     NoteForm.handleKeyDown Index.closeNoteForm (Index.handleConvertNoteToTodo env)
       ctrlKey metaKey "Enter" f (f, s)
     = Index.convertToTodo env (f, s)) /\
  NoteForm.handleKeyDown Index.closeNoteForm (Index.handleConvertNoteToTodo env)
    false false "Enter" f (f, s) = (Returned tt, (f, s)).
Proof.
  intros after.
  destruct (convertToTodo_cases env f s) as (H1 & H2 & H3 & H4 & H5).
  split; [exact H1|]. split; [exact H2|]. split; [exact H3|].
  split; [exact H4|]. split; [exact H5|]. split; [|reflexivity].
  intros c m Hcm. unfold NoteForm.handleKeyDown. now rewrite Hcm.
Qed.

Lemma form_convert_to_todo_witness :
  let page := {| Index.todoState := sampleState;
                 Index.notes := [mondayNote];
                 Index.currentPage := 1; Index.isNoteFormOpen := true;
                 Index.editingNote := None |} in
  let after := stateAfter (Index.convertToTodo laterEnv)
                 ({| NoteForm.content := " Rapat tim jam 10 ";
                     NoteForm.isSubmitting := false |}, page) in
  Index.notes (snd after) = [mondayNote] /\
  Index.isNoteFormOpen (snd after) = false /\
  NoteForm.handleKeyDown Index.closeNoteForm (Index.handleConvertNoteToTodo laterEnv)
    true false "Enter"
    {| NoteForm.content := " Rapat tim jam 10 "; NoteForm.isSubmitting := false |}
    ({| NoteForm.content := " Rapat tim jam 10 "; NoteForm.isSubmitting := false |},
     page)
  = Index.convertToTodo laterEnv
      ({| NoteForm.content := " Rapat tim jam 10 "; NoteForm.isSubmitting := false |},
       page).
Proof.
  intros page after.
  destruct (form_convert_to_todo laterEnv
              {| NoteForm.content := " Rapat tim jam 10 ";
                 NoteForm.isSubmitting := false |} page)
    as (_ & Hnotes & _ & _ & Hclosed & Hkey & _).
  split; [exact Hnotes|]. split.
  - fold after in Hclosed. rewrite Hclosed by discriminate. reflexivity.
  - apply Hkey. reflexivity.
Defined.

(** X26. The page never marks a note as converted: if no note carries the
    flag, none does after any of the callbacks the page hands to its
    components ([handleAddNote], [handleSaveEditNote], [deleteNote],
    [handleConvertNoteToTodo], [handleEditNote], closing the form). *)
Theorem page_never_marks_converted env id' input (picked : string * string) s :
  Forall (fun note => Notes.convertedToTodo note = false) (Index.notes s) ->
  let unmarked (m : M Index.state unit) :=
    Forall (fun note => Notes.convertedToTodo note = false)
           (Index.notes (stateAfter m s)) in
  unmarked (Index.handleAddNote env input) /\
  unmarked (Index.handleSaveEditNote env id' input) /\
  unmarked (Index.onNotes (Notes.deleteNote id')) /\
  unmarked (Index.handleConvertNoteToTodo env input) /\
  unmarked (Index.handleEditNote picked) /\
  unmarked Index.closeNoteForm.
Proof.
  intros Hf unmarked. subst unmarked. cbv beta.
  unfold stateAfter, Index.handleAddNote, Index.handleSaveEditNote,
    Index.handleConvertNoteToTodo, Index.handleEditNote, Index.closeNoteForm,
    Index.onNotes, Index.onTodos, Index.setIsNoteFormOpen, Index.setEditingNote,
    bind, zoom, update, ret.
  split; [|split; [|split; [|split; [|split]]]].
  - unfold Notes.addNote, bind, Notes.setNotes, Notes.setNotesOf, update, ret, throw.
    destruct (negb _); cbn; [exact Hf|]. constructor; [reflexivity|exact Hf].
  - unfold Notes.updateNote, Notes.setNotes, Notes.setNotesOf, update, throw.
    destruct (negb _); cbn; [exact Hf|].
    apply (TodosMore.Forall_map_cases _ _ (fun note => _)); [|exact Hf].
    intros note H. exact H.
  - unfold Notes.deleteNote, Notes.setNotes, Notes.setNotesOf, update. cbn.
    now apply TodosMore.Forall_filter_keep.
  - destruct (Todos.addTodo env input (Index.todoState s)). cbn. exact Hf.
  - cbn. exact Hf.
  - cbn. exact Hf.
Qed.

Lemma page_never_marks_converted_witness :
  Forall (fun note => Notes.convertedToTodo note = false)
    (Index.notes
       (stateAfter (Index.handleConvertNoteToTodo laterEnv "Rapat tim jam 10")
          {| Index.todoState := sampleState; Index.notes := [mondayNote];
             Index.currentPage := 1; Index.isNoteFormOpen := false;
             Index.editingNote := None |})).
Proof.
  apply (page_never_marks_converted laterEnv "x" "Rapat tim jam 10" ("x", "y")).
  repeat constructor.
Defined.

End FormMore.

(** ** Store adapter: keys, pages and refused writes *)

Module LocalStorageMore.
Import JsString TrimFacts LocalStorage LocalStorageFacts StorageEvents Samples
  MoreSamples.
#[local] Open Scope string_scope.

Section Adapter.

Context {T : Type} `{JSON T}.
Variable key : string.

Implicit Types (h other : hook (T:=T)) (st : Storage) (v fallback : T).

Lemma storage_setValue_cases (value : setStateAction (T:=T)) h :
  (exists st', setItem key (stringify (valueToStore value (storedValue h))) (storage h)
               = Some st' /\ storage (setValue key value h) = st') \/
  storage (setValue key value h) = storage h.
Proof.
  unfold setValue, setValueOf. cbv zeta.
  destruct (setItem _ _ _) as [st'|] eqn:E; [left; now exists st'|now right].
Qed.

(** X27. A hook writes under its own key only: whatever the value and whether
    or not the storage accepts it, every other key holds the text it held,
    so a hook on another key reads what it read before. *)
Theorem setValue_keeps_other_keys (value : setStateAction (T:=T)) h key' fallback :
  key' <> key ->
  getItem key' (storage (setValue key value h)) = getItem key' (storage h) /\
  read key' fallback (storage (setValue key value h))
    = read key' fallback (storage h).
Proof.
  intros Hne.
  assert (getItem key' (storage (setValue key value h)) = getItem key' (storage h))
    as Hget.
  { destruct (storage_setValue_cases value h) as [(st' & Hset & ->)| ->];
      [|reflexivity].
    eapply getItem_setItem_other; eassumption. }
  split; [exact Hget|]. unfold read. now rewrite Hget.
Qed.

(** X28. Two pages stay in step: when a page's write is accepted and the
    browser delivers the event of that write, a hook on the same key in
    another page takes the written value, and a hook on another key is
    left alone. *)
Theorem storage_event_synchronises (value : setStateAction (T:=T)) h other st' :
  let v := valueToStore value (storedValue h) in
  JSONSerializable v ->
  setItem key (stringify v) (storage h) = Some st' ->
  let e := written key (storage (setValue key value h)) in
  handleStorageChange key e other
    = {| storedValue := v; storage := storage other |} /\
  storedValue (handleStorageChange key e other)
    = storedValue (setValue key value h) /\
  (forall key', key' <> key -> handleStorageChange key' e other = other).
Proof.
  intros v Hv Hset e. subst e.
  assert (written key (storage (setValue key value h))
          = {| eventKey := Some key; newValue := Some (stringify v) |}) as ->.
  { unfold written, setValue, setValueOf. cbv zeta. fold v. rewrite Hset.
    cbn [storage]. now rewrite (getItem_setItem key _ _ _ Hset). }
  assert (handleStorageChange key
            {| eventKey := Some key; newValue := Some (stringify v) |} other
          = {| storedValue := v; storage := storage other |}) as Hsync.
  { unfold handleStorageChange. cbn [eventKey newValue].
    now rewrite String.eqb_refl, stringify_truthy, parse_stringify. }
  split; [exact Hsync|]. split.
  - rewrite Hsync. unfold setValue, setValueOf. cbv zeta. fold v.
    now rewrite Hset.
  - intros key' Hne. unfold handleStorageChange. cbn [eventKey newValue].
    destruct (String.eqb_spec key key'); [congruence|reflexivity].
Qed.

(** X29. After a refused write the page and the storage disagree: the hook
    shows the new value, while a reload reads what the storage held, that
    is the value of the last accepted write. *)
Theorem refused_write_diverges v1 v2 h fallback st1 :
  JSONSerializable v1 ->
  setItem key (stringify v1) (storage h) = Some st1 ->
  setItem key (stringify v2) st1 = None ->
  let h2 := setValue key (Value v2) (setValue key (Value v1) h) in
  storedValue h2 = v2 /\
  storedValue (useLocalStorage key fallback (storage h2)) = v1.
Proof.
  intros Hv1 H1 H2 h2. subst h2.
  unfold setValue, setValueOf, valueToStore. cbv zeta.
  rewrite H1. cbn [storage storedValue]. rewrite H2.
  cbn [storage storedValue useLocalStorage].
  split; [reflexivity|].
  apply read_written; [exact Hv1|]. eapply getItem_setItem, H1.
Qed.

(** X30. The last accepted write is the one a reload reads. *)
Theorem last_write_wins v1 v2 h fallback st1 st2 :
  JSONSerializable v2 ->
  setItem key (stringify v1) (storage h) = Some st1 ->
  setItem key (stringify v2) st1 = Some st2 ->
  let h2 := setValue key (Value v2) (setValue key (Value v1) h) in
  storage h2 = st2 /\
  storedValue (useLocalStorage key fallback (storage h2)) = v2.
Proof.
  intros Hv2 H1 H2 h2. subst h2.
  unfold setValue, setValueOf, valueToStore. cbv zeta.
  rewrite H1. cbn [storage storedValue]. rewrite H2.
  cbn [storage storedValue useLocalStorage].
  split; [reflexivity|].
  apply read_written; [exact Hv2|]. eapply getItem_setItem, H2.
Qed.

End Adapter.

Lemma setValue_keeps_other_keys_witness :
  let h := useLocalStorage "done" (JBool false) roomyStorage in
  getItem "visits" (storage (setValue "done" (Value (JBool true)) h)) = Some "42".
Proof.
  intros h.
  destruct (setValue_keeps_other_keys "done" (Value (JBool true)) h "visits"
              (JBool false))
    as [Hget _]; [discriminate|].
  rewrite Hget. reflexivity.
Defined.

Lemma storage_event_synchronises_witness :
  let h := useLocalStorage "done" (JBool false) roomyStorage in
  let other := useLocalStorage "done" (JBool false) roomyStorage in
  let e := written "done" (storage (setValue "done" (Updater negate) h)) in
  storedValue other = JBool false /\
  storedValue (handleStorageChange "done" e other) = JBool true.
Proof.
  intros h other e. split; [reflexivity|].
  destruct (storage_event_synchronises "done" (Updater negate) h other
              {| items := <["done" := "true"]> (items roomyStorage);
                 quota := 5000 |}) as (Hsync & _);
    [apply (JBool_serializable true)|reflexivity|].
  fold e in Hsync. now rewrite Hsync.
Defined.

Lemma refused_write_diverges_witness :
  let h := useLocalStorage "done" (JBool true) tightStorage in
  let h2 := setValue "done" (Value (JBool false))
              (setValue "done" (Value (JBool true)) h) in
  storedValue h2 = JBool false /\
  storedValue (useLocalStorage "done" (JBool false) (storage h2)) = JBool true.
Proof.
  intros h h2.
  apply (refused_write_diverges "done" (JBool true) (JBool false) h (JBool false)
           {| items := <["done" := "true"]> (items tightStorage); quota := 16 |});
    [apply JBool_serializable|reflexivity..].
Defined.

Lemma last_write_wins_witness :
  let h := useLocalStorage "done" (JBool false) roomyStorage in
  let h2 := setValue "done" (Value (JBool false))
              (setValue "done" (Value (JBool true)) h) in
  storedValue (useLocalStorage "done" (JBool true) (storage h2)) = JBool false.
Proof.
  intros h h2.
  apply (last_write_wins "done" (JBool true) (JBool false) h (JBool true)
           {| items := <["done" := "true"]> (items roomyStorage); quota := 5000 |}
           {| items := <["done" := "false"]>
                         (<["done" := "true"]> (items roomyStorage));
              quota := 5000 |});
    [apply JBool_serializable|reflexivity..].
Defined.

End LocalStorageMore.

(** ** The pagination buttons of the page *)

Module PageMore.
Import Pagination PaginationFacts PaginationMore MoreSamples.

Lemma view_changed {T} (v w : view (T:=T)) :
  allItems w = allItems v -> (w = v <-> currentPage w = currentPage v).
Proof.
  destruct v as [a p], w as [b q]. simpl. intros ->. split; [congruence|].
  now intros ->.
Qed.

(** X5. The buttons agree with the actions behind them.  On every page number
    from 1 on: the load-more button is disabled exactly when [loadMore]
    would change nothing, which is also exactly when no item remains, so
    the two tests of the button say the same; the show-less button is
    shown exactly when [showLess] would change the page; and the
    pagination is not rendered exactly when the filtered list is empty. *)
Theorem pagination_buttons_match_actions (s : Index.state) :
  1 <= Index.currentPage s ->
  let v := Index.pagination s in
  let p := Index.paginationProps s in
  (PaginationLoadMore.loadMoreDisabled p = true <-> loadMore 5 v = v) /\
  PaginationLoadMore.disabled p = (PaginationLoadMore.remainingItems p =? 0) /\
  (PaginationLoadMore.showLessShown p = true <-> showLess v <> v) /\
  (Index.paginationRendered s = false <->
   Index.filteredTodos (Index.todoState s) = []).
Proof.
  intros Hp v p.
  assert (1 <= currentPage v) as Hv by exact Hp.
  pose proof (hasNextPage_remaining 5 v ltac:(lia) Hv) as Hnext.
  pose proof (remainingItems_eq 5 v ltac:(lia) Hv) as Hrem.
  assert (PaginationLoadMore.disabled p
          = (PaginationLoadMore.remainingItems p =? 0)) as Hsame.
  { subst p. cbn [Index.paginationProps PaginationLoadMore.disabled
                  PaginationLoadMore.remainingItems]. fold v.
    destruct (hasNextPage 5 v) eqn:Hh; cbn [negb]; symmetry.
    - apply Z.eqb_neq. assert (0 < remainingItems 5 v) by now apply Hnext. lia.
    - apply Z.eqb_eq. destruct (Z.eq_dec (remainingItems 5 v) 0); [assumption|].
      assert (false = true) by (apply Hnext; lia). discriminate. }
  split; [|split; [exact Hsame|split]].
  - unfold PaginationLoadMore.loadMoreDisabled. rewrite <- Hsame, orb_diag.
    subst p. cbn [Index.paginationProps PaginationLoadMore.disabled]. fold v.
    rewrite (view_changed v (loadMore 5 v)) by reflexivity.
    rewrite loadMore_page, negb_true_iff.
    destruct (hasNextPage 5 v) eqn:Hh.
    + apply hasNextPage_lt in Hh.
      destruct (Z.leb_spec (currentPage v + 1) (totalPages 5 v)); split;
        try discriminate; lia.
    + destruct (Z.leb_spec (currentPage v + 1) (totalPages 5 v)) as [Hle|Hgt];
        split; auto.
      assert (hasNextPage 5 v = true) by (apply hasNextPage_lt; lia). congruence.
  - unfold PaginationLoadMore.showLessShown. subst p.
    cbn [Index.paginationProps PaginationLoadMore.canShowLess].
    rewrite (view_changed v (showLess v)) by reflexivity.
    rewrite showLess_page, Z.ltb_lt.
    change (currentPage v) with (Index.currentPage s). lia.
  - unfold Index.paginationRendered, Index.paginatedTodos. fold v.
    rewrite Nat.ltb_ge.
    pose proof (displayedItems_length 5 v ltac:(lia)) as Hlen.
    change (allItems v) with (Index.filteredTodos (Index.todoState s)) in Hlen.
    split.
    + intros H0. destruct (Index.filteredTodos (Index.todoState s));
        [reflexivity|]. simpl length in Hlen. lia.
    + intros He. rewrite He in Hlen. simpl in Hlen. lia.
Qed.

Lemma pagination_buttons_match_actions_witness :
  PaginationLoadMore.loadMoreDisabled (Index.paginationProps samplePage) = true /\
  loadMore 5 (Index.pagination samplePage) = Index.pagination samplePage /\
  PaginationLoadMore.showLessShown (Index.paginationProps samplePage) = false.
Proof.
  destruct (pagination_buttons_match_actions samplePage ltac:(simpl; lia))
    as (Hload & _ & Hless & _).
  split; [reflexivity|]. split; [apply Hload; reflexivity|reflexivity].
Defined.

End PageMore.

(** ** Dates of the notes *)

Module NoteDates.
Import Effect Notes NotesSearch NotesSearchFacts Samples.

(** X22. Calendar dates are an invariant of the note container: if every note
    carries a date [YYYY-MM-DD] of the calendar, so does every note after
    [updateNote], [deleteNote] and [markAsConverted], and after [addNote]
    under a calendar clock.  The search is then defined on every list the
    container can hold, in every time zone. *)
Theorem dates_stay_valid env id' input (notes : list Note) (searchQuery : string) :
  Forall (fun note => validDate (date note) = true) notes ->
  calendarEnv env = true ->
  let valid l := Forall (fun note => validDate (date note) = true) l in
  valid (stateAfter (addNote env input) notes) /\
  valid (stateAfter (updateNote env id' input) notes) /\
  valid (stateAfter (deleteNote id') notes) /\
  valid (stateAfter (markAsConverted env id') notes) /\
  forall zone, exists result,
    filteredNotes zone (stateAfter (addNote env input) notes) searchQuery
      = Some result.
Proof.
  intros Hv Hc valid. subst valid. cbv beta.
  destruct (validDate_invariant env notes id' input Hv) as (Hadd & Hupd & Hdel & Hmark).
  split; [exact (Hadd Hc)|]. split; [exact Hupd|]. split; [exact Hdel|].
  split; [exact Hmark|].
  intros zone. apply filteredNotes_defined, Hadd, Hc.
Qed.

Lemma dates_stay_valid_witness :
  Forall (fun note => validDate (date note) = true)
         (stateAfter (addNote sampleEnv "Beli susu") [mondayNote; sundayNote]).
Proof.
  apply (dates_stay_valid sampleEnv "x" "Beli susu" [mondayNote; sundayNote] "susu");
    [repeat constructor|reflexivity].
Defined.

End NoteDates.
